(** * LWE IoT simulation driver (src/LWE.cc): a shallow embedding

    The program loads averaged cost figures from a CSV file
    ([LoadMetricsFromCSV]), schedules one UDP client per IoT node, lets the
    network simulator run, reduces the per-flow statistics to network-level
    figures and appends one row to a results file.

    Numbers are modelled as the program has them: [double] is the binary64
    format (Rocq's primitive floats), [uint32_t] counters are integers
    reduced modulo [2^32], conversions from integers to [double] round to
    nearest-even.  The simulator, [std::stod] and the number formatting of
    [operator<<] are library code: they appear as parameters. *)

From Stdlib Require Import ZArith List String Ascii Bool Lia Floats DecimalString.
From Stdlib Require Import DecimalN DecimalPos.
Import ListNotations.

Set Warnings "-inexact-float".

Open Scope Z_scope.

(* ================================================================== *)
(** ** Machine numbers *)

Definition UINT32_MAX : Z := 4294967295.
Definition INT_MAX : Z := 2147483647.

(** Arithmetic on [uint32_t] is modulo [2^32]. *)
Definition wrap32 (z : Z) : Z := z mod 4294967296.

(** Integer to [double] conversion: the nearest binary64 value, ties to
    even.  Exact below [2^53]. *)
Definition Z2double (z : Z) : float :=
  SF2Prim (binary_normalize prec emax z 0 false).

(* ================================================================== *)
(** ** Input streams: [std::getline] *)

(** The characters before the first [delim], and what follows it. *)
Fixpoint take_until (delim : ascii) (input : string) : string * string :=
  match input with
  | EmptyString => (EmptyString, EmptyString)
  | String c rest =>
      if Ascii.eqb c delim then (EmptyString, rest)
      else let (item, rest') := take_until delim rest in (String c item, rest')
  end.

(** [std::getline(is, item, delim)] on a stream whose unread part is
    [input]: it fails when nothing is left to extract; otherwise it
    extracts up to and including the delimiter (or up to the end of the
    input) and stores the characters before the delimiter. *)
Definition getline (delim : ascii) (input : string) : option (string * string) :=
  match input with
  | EmptyString => None
  | _ => Some (take_until delim input)
  end.

(** All the items that [while (std::getline(is, item, delim))] goes
    through, in order ([getlines_unfold] below is the loop's equation). *)
Fixpoint getlines (delim : ascii) (input : string) : list string :=
  match input with
  | EmptyString => []
  | String c rest =>
      if Ascii.eqb c delim then EmptyString :: getlines delim rest
      else match getlines delim rest with
           | [] => [String c EmptyString]
           | item :: items => String c item :: items
           end
  end.

Definition newline : ascii := Ascii.ascii_of_nat 10.
Definition comma : ascii := Ascii.ascii_of_nat 44.

(* ================================================================== *)
(** ** Outcomes of code that may throw *)

Inductive exception := invalid_argument | out_of_range.

(** [Undefined]: signed overflow of an [int], which C++ leaves undefined. *)
Inductive result (A : Type) :=
| Ok (a : A)
| Throw (e : exception)
| Undefined.

Arguments Ok {A} a.
Arguments Throw {A} e.
Arguments Undefined {A}.

Definition bind {A B : Type} (r : result A) (k : A -> result B) : result B :=
  match r with
  | Ok a => k a
  | Throw e => Throw e
  | Undefined => Undefined
  end.

Notation "x <- r ;; k" := (bind r (fun x => k))
  (at level 61, r at next level, right associativity).

(* ================================================================== *)
(** ** The performance profile *)

Record LweMetrics := {
  avg_computation_time_ms : float;
  avg_memory_kb : float;
  avg_energy_mj : float;
  key_size_bytes : Z;
  public_data_bytes : Z
}.

(** The member initialisers of [struct LweMetrics]: the initial value of
    the global [g_metrics]. *)
Definition default_metrics : LweMetrics := {|
  avg_computation_time_ms := 0.5;
  avg_memory_kb := 12.0;
  avg_energy_mj := 0.5;
  key_size_bytes := 256;
  public_data_bytes := 16640
|}.

(* ================================================================== *)
(** ** LoadMetricsFromCSV *)

(** The locals [total_time], [total_memory], [total_energy] and [count]. *)
Record sums := {
  total_time : float;
  total_memory : float;
  total_energy : float;
  count : Z
}.

Definition zero_sums : sums :=
  {| total_time := 0; total_memory := 0; total_energy := 0; count := 0 |}.

(** The inner loop: the items of a line, split at commas. *)
Definition split_row (line : string) : list string := getlines comma line.

(** [row.size() >= 6] *)
Definition enough_fields (row : list string) : bool :=
  6 <=? Z.of_nat (List.length row).

(** One iteration of the outer loop.  [stod] is [std::stod]: it returns
    the value or throws; the program catches nothing. *)
Definition add_row (stod : string -> result float) (acc : sums) (line : string)
  : result sums :=
  let row := split_row line in
  if enough_fields row then
    t <- stod (nth 1 row EmptyString) ;;
    m <- stod (nth 2 row EmptyString) ;;
    e <- stod (nth 5 row EmptyString) ;;
    if count acc <? INT_MAX then
      Ok {| total_time := total_time acc + t;
            total_memory := total_memory acc + m;
            total_energy := total_energy acc + e;
            count := count acc + 1 |}
    else Undefined
  else Ok acc.

(** The outer loop over the lines that follow the header. *)
Fixpoint add_rows (stod : string -> result float) (acc : sums) (lines : list string)
  : result sums :=
  match lines with
  | [] => Ok acc
  | line :: rest => acc' <- add_row stod acc line ;; add_rows stod acc' rest
  end.

(** The assignments under [if (count > 0)]; the two sizes are not touched. *)
Definition store_averages (g : LweMetrics) (s : sums) : LweMetrics := {|
  avg_computation_time_ms := total_time s / Z2double (count s);
  avg_memory_kb := total_memory s / Z2double (count s);
  avg_energy_mj := total_energy s / Z2double (count s);
  key_size_bytes := key_size_bytes g;
  public_data_bytes := public_data_bytes g
|}.

(** [file] is [None] when the file cannot be opened, otherwise its
    contents.  [g] is [g_metrics] before the call, the result is
    [g_metrics] after it.  The first [getline] reads the header and its
    line is dropped. *)
Definition LoadMetricsFromCSV (stod : string -> result float)
  (file : option string) (g : LweMetrics) : result LweMetrics :=
  match file with
  | None => Ok g
  | Some contents =>
      s <- add_rows stod zero_sums (tl (getlines newline contents)) ;;
      if 0 <? count s then Ok (store_averages g s) else Ok g
  end.

(* ================================================================== *)
(** ** A model of [std::stod] on decimal literals

    [std::stod] is [strtod] plus exceptions: leading white space is
    skipped, an optional sign is read, then the longest prefix that is a
    number; what follows the number is ignored.  No number at all throws
    [invalid_argument]; a value out of the range of [double] ([ERANGE])
    throws [out_of_range].  This model is for the examples: it covers
    decimal literals, [inf]/[infinity] and [nan], with the value correctly
    rounded.  It does not cover hexadecimal literals (it reads their
    leading [0]), and it reports every non-zero literal below the normal
    range as out of range ([strtod] does so unless the literal is a
    binary64 number exactly).  The general statements below hold for any
    [stod]. *)

Definition isspace (c : ascii) : bool :=
  let n := Z.of_nat (nat_of_ascii c) in (n =? 32) || ((9 <=? n) && (n <=? 13)).

Definition digit_of (c : ascii) : option Z :=
  let n := Z.of_nat (nat_of_ascii c) in
  if (48 <=? n) && (n <=? 57) then Some (n - 48) else None.

Definition tolower (c : ascii) : ascii :=
  let n := nat_of_ascii c in
  if ((65 <=? n) && (n <=? 90))%nat then ascii_of_nat (n + 32) else c.

Fixpoint skip_spaces (s : string) : string :=
  match s with
  | String c rest => if isspace c then skip_spaces rest else s
  | EmptyString => s
  end.

(** Reads a run of digits: the number read so far, how many digits were
    read, and the rest. *)
Fixpoint read_digits (acc : Z) (n : Z) (s : string) : Z * Z * string :=
  match s with
  | String c rest =>
      match digit_of c with
      | Some d => read_digits (10 * acc + d) (n + 1) rest
      | None => (acc, n, s)
      end
  | EmptyString => (acc, n, s)
  end.

Fixpoint starts_with_ci (word : string) (s : string) : bool :=
  match word, s with
  | EmptyString, _ => true
  | String w word', String c rest =>
      Ascii.eqb w (tolower c) && starts_with_ci word' rest
  | String _ _, EmptyString => false
  end.

Definition read_sign (s : string) : bool * string :=
  match s with
  | String "-"%char rest => (true, rest)
  | String "+"%char rest => (false, rest)
  | _ => (false, s)
  end.

(** The exponent part [e[+-]digits]; it counts only when it has a digit. *)
Definition read_exponent (s : string) : Z :=
  match s with
  | String c rest =>
      if Ascii.eqb (tolower c) "e"%char then
        let (neg, rest') := read_sign rest in
        let '(v, n, _) := read_digits 0 0 rest' in
        if 0 <? n then (if neg then - v else v) else 0
      else 0
  | EmptyString => 0
  end.

(** [m * 10^e], correctly rounded. *)
Definition decimal_to_SF (neg : bool) (m : Z) (e : Z) : spec_float :=
  match m with
  | Zpos p =>
      if 0 <=? e then
        binary_normalize prec emax ((if neg then Zneg p else Zpos p) * 10 ^ e) 0 false
      else
        SFdiv prec emax (S754_finite neg p 0)
              (S754_finite false (Z.to_pos (10 ^ (- e))) 0)
  | _ => S754_zero neg
  end.

(** Not [ERANGE]: a normal number (neither an overflow nor a value below
    the normal range). *)
Definition in_range (v : spec_float) : bool :=
  match v with
  | S754_finite _ m _ => Zpos (digits2_pos m) =? prec
  | _ => false
  end.

Definition stod_decimal (str : string) : result float :=
  let (neg, s) := read_sign (skip_spaces str) in
  if starts_with_ci "inf" s then Ok (if neg then neg_infinity else infinity)
  else if starts_with_ci "nan" s then Ok nan
  else
    let '(m1, n1, s1) := read_digits 0 0 s in
    let '(m, n2, s2) :=
      match s1 with
      | String "."%char rest => read_digits m1 0 rest
      | _ => (m1, 0, s1)
      end in
    if n1 + n2 =? 0 then Throw invalid_argument
    else if m =? 0 then Ok (SF2Prim (S754_zero neg))
    else
      let v := decimal_to_SF neg m (read_exponent s2 - n2) in
      if in_range v then Ok (SF2Prim v) else Throw out_of_range.

(* ================================================================== *)
(** ** Scheduling the clients (the second loop of [main]) *)

(** What is configured for one client application. *)
Record ClientApp := {
  client_node : Z;
  MaxPackets : Z;
  Interval : float;
  PacketSize : Z;
  start_seconds : float;
  stop_seconds : float
}.

(** The argument of [clientApp.Start] for node [i]. *)
Definition start_time (g : LweMetrics) (i : Z) : float :=
  2.0 + Z2double i * 0.5 + avg_computation_time_ms g / 1000.0.

Definition make_client (g : LweMetrics) (simTime : float) (i : Z) : ClientApp := {|
  client_node := i;
  MaxPackets := 1;
  Interval := 1.0;
  PacketSize := public_data_bytes g;
  start_seconds := start_time g i;
  stop_seconds := simTime
|}.

(** The state the loop changes: the installed clients and the global
    [g_totalPacketsSent]. *)
Record schedule := {
  clients : list ClientApp;
  g_totalPacketsSent : Z
}.

(** The body of the loop for index [i]. *)
Definition install_client (g : LweMetrics) (simTime : float)
  (st : schedule) (i : Z) : schedule := {|
  clients := clients st ++ [make_client g simTime i];
  g_totalPacketsSent := wrap32 (g_totalPacketsSent st + 1)
|}.

(** Before the loop: no client yet, and the global counter at its
    initial value 0. *)
Definition no_schedule : schedule := {| clients := []; g_totalPacketsSent := 0 |}.

(** The indices [0, 1, ..., n-1] that [for (uint32_t i = 0; i < n; i++)]
    goes through. *)
Definition indices (n : Z) : list Z := map Z.of_nat (seq 0 (Z.to_nat n)).

Definition install_clients (g : LweMetrics) (simTime : float)
  (nIoTNodes : Z) (st : schedule) : schedule :=
  fold_left (install_client g simTime) (indices nIoTNodes) st.

(* ================================================================== *)
(** ** Flow statistics and their reduction *)

(** The fields of [FlowMonitor::FlowStats] that are read; [delaySum] is
    kept as the [double] that [delaySum.GetSeconds()] returns. *)
Record FlowStats := {
  txPackets : Z;
  rxPackets : Z;
  delaySum : float;
  rxBytes : Z
}.

(** [uint32_t] packet counts and a [uint64_t] byte count. *)
Definition flow_ok (f : FlowStats) : Prop :=
  0 <= txPackets f <= UINT32_MAX /\ 0 <= rxPackets f <= UINT32_MAX /\
  0 <= rxBytes f < 2 ^ 64.

(** The four accumulators of the statistics loop. *)
Record totals := {
  totalThroughput : float;
  totalDelay : float;
  totalRxPackets : Z;
  totalTxPackets : Z
}.

Definition zero_totals : totals :=
  {| totalThroughput := 0; totalDelay := 0; totalRxPackets := 0; totalTxPackets := 0 |}.

(** What one flow adds to [totalThroughput]. *)
Definition flow_kbps (simTime : float) (f : FlowStats) : float :=
  Z2double (rxBytes f) * 8.0 / simTime / 1000.0.

(** The body of [for (auto const& flow : stats)]. *)
Definition add_flow (simTime : float) (t : totals) (f : FlowStats) : totals :=
  let tx := wrap32 (totalTxPackets t + txPackets f) in
  let rx := wrap32 (totalRxPackets t + rxPackets f) in
  if 0 <? rxPackets f then
    {| totalThroughput := totalThroughput t + flow_kbps simTime f;
       totalDelay := totalDelay t + delaySum f;
       totalRxPackets := rx;
       totalTxPackets := tx |}
  else
    {| totalThroughput := totalThroughput t;
       totalDelay := totalDelay t;
       totalRxPackets := rx;
       totalTxPackets := tx |}.

Definition sum_flows (simTime : float) (stats : list FlowStats) : totals :=
  fold_left (add_flow simTime) stats zero_totals.

Definition avgDelay_of (t : totals) : float :=
  if 0 <? totalRxPackets t
  then totalDelay t / Z2double (totalRxPackets t) * 1000.0
  else 0.

Definition pdr_of (t : totals) : float :=
  if 0 <? totalTxPackets t
  then Z2double (totalRxPackets t) / Z2double (totalTxPackets t) * 100.0
  else 0.

(** The figures of one run, as they go into the results row. *)
Record RunMetrics := {
  nodes : Z;
  packets_sent : Z;
  packets_received : Z;
  pdr : float;
  avg_delay_ms : float;
  throughput_kbps : float;
  total_energy_mj : float;
  computation_ms : float;
  memory_kb : float
}.

(** Lines 175-192 and the expressions of lines 214-217. *)
Definition aggregate (stats : list FlowStats) (simTime : float)
  (nIoTNodes sent received : Z) (g : LweMetrics) : RunMetrics :=
  let t := sum_flows simTime stats in {|
  nodes := nIoTNodes;
  packets_sent := sent;
  packets_received := received;
  pdr := pdr_of t;
  avg_delay_ms := avgDelay_of t;
  throughput_kbps := totalThroughput t;
  total_energy_mj := Z2double sent * avg_energy_mj g;
  computation_ms := avg_computation_time_ms g;
  memory_kb := avg_memory_kb g * Z2double nIoTNodes
|}.

(* ================================================================== *)
(** ** Appending to the results file *)

Open Scope string_scope.

(** The results file before the run: it cannot be opened for writing, it
    does not exist yet, or it exists with some contents. *)
Inductive out_file :=
| Unopenable
| Missing
| Existing (contents : string).

(** A [std::ofstream] opened with [std::ios::app].  [None] is a stream
    whose open failed; otherwise the stream carries the contents of its
    file, and every write goes to the end. *)
Definition ofstream := option string.

Definition open_append (f : out_file) : ofstream :=
  match f with
  | Unopenable => None
  | Missing => Some EmptyString
  | Existing contents => Some contents
  end.

(** [tellp()] right after the open: the end of the file (where the
    append mode of [fopen] leaves the position on POSIX systems), and
    [-1] for a failed stream. *)
Definition tellp (s : ofstream) : Z :=
  match s with
  | None => -1
  | Some contents => Z.of_nat (String.length contents)
  end.

(** [outfile << text]: nothing happens on a failed stream. *)
Definition put (s : ofstream) (text : string) : ofstream :=
  match s with
  | None => None
  | Some contents => Some (contents ++ text)
  end.

(** The file after [outfile.close()]. *)
Definition close (f : out_file) (s : ofstream) : out_file :=
  match s with
  | None => f
  | Some contents => Existing contents
  end.

Definition endl : string := String newline EmptyString.

Definition header : string :=
  "nodes,packets_sent,packets_received,pdr,avg_delay_ms,throughput_kbps,"
  ++ "total_energy_mj,computation_ms,memory_kb" ++ endl.

Section Formatting.

(** [operator<<] for [uint32_t] and for [double]. *)
Variable show_uint : Z -> string.
Variable show_double : float -> string.

(** The data row of lines 214-217. *)
Definition row_text (r : RunMetrics) : string :=
  show_uint (nodes r) ++ "," ++ show_uint (packets_sent r) ++ ","
  ++ show_uint (packets_received r) ++ ","
  ++ show_double (pdr r) ++ "," ++ show_double (avg_delay_ms r) ++ ","
  ++ show_double (throughput_kbps r) ++ ","
  ++ show_double (total_energy_mj r) ++ "," ++ show_double (computation_ms r) ++ ","
  ++ show_double (memory_kb r) ++ endl.

(** Lines 206-220: the file afterwards and the line that is logged. *)
Definition save_results (f : out_file) (r : RunMetrics) : out_file * string :=
  let outfile := open_append f in
  let newFile := (tellp outfile =? 0)%Z in
  let outfile := if newFile then put outfile header else outfile in
  let outfile := put outfile (row_text r) in
  (close f outfile, "Saved to lwe_ns3_results.csv" ++ endl).

End Formatting.

(* ================================================================== *)
(** ** The whole run *)

(** [RxCallback]: one more packet received. *)
Definition RxCallback (g_totalPacketsReceived : Z) : Z :=
  wrap32 (g_totalPacketsReceived + 1).

(** What the outside world sees of a run of [main]. *)
Record run_outcome := {
  results_file : out_file;
  last_log : string;
  exit_status : Z
}.

Section Main.

Variable stod : string -> result float.
Variable show_uint : Z -> string.
Variable show_double : float -> string.

(** [Simulator::Run()] with the flow monitor: from the installed clients
    and the duration, the per-flow statistics and the number of packets
    that arrived at the server (one [RxCallback] each). *)
Variable Simulator_Run : list ClientApp -> float -> list FlowStats * nat.

(** The global counters after the simulation, and the results row. *)
Definition run_metrics (nIoTNodes : Z) (simTime : float) (g : LweMetrics)
  : RunMetrics :=
  let sched := install_clients g simTime nIoTNodes no_schedule in
  let (stats, arrivals) := Simulator_Run (clients sched) simTime in
  let g_totalPacketsReceived := Nat.iter arrivals RxCallback 0 in
  aggregate stats simTime nIoTNodes (g_totalPacketsSent sched)
            g_totalPacketsReceived g.

(** [main], for a node count, a duration, the CSV file (if it can be
    opened) and the results file. *)
Definition main (nIoTNodes : Z) (simTime : float)
  (csv : option string) (out : out_file) : result run_outcome :=
  g <- LoadMetricsFromCSV stod csv default_metrics ;;
  let r := run_metrics nIoTNodes simTime g in
  let (out', log) := save_results show_uint show_double out r in
  Ok {| results_file := out'; last_log := log; exit_status := 0 |}.

End Main.

Close Scope string_scope.

(* ================================================================== *)
(** ** Binary64 numbers as integers: vocabulary

    Every finite [double] is an integer number of units of [2^-1074].
    The definitions below name that integer and the pieces of the
    rounding of [SpecFloat], which the primitive operations are specified
    by. *)

(** [2^k], for the exponents of this development. *)
Definition pow2 (k : Z) : Z := 2 ^ k.

Definition shr_exact (r : shr_record) : Prop := shr_r r = false /\ shr_s r = false.

(** The result of rounding, from the rounded mantissa [m2] at the
    exponent [E]: a carry into the 54th digit takes the exponent up. *)
Definition round_result (m2 E : Z) : spec_float :=
  if m2 =? 0 then S754_zero false
  else if m2 =? pow2 53 then
    if E + 1 <=? 971 then S754_finite false (Z.to_pos (pow2 52)) (E + 1)
    else S754_infinity false
  else
    if E <=? 971 then S754_finite false (Z.to_pos m2) E
    else S754_infinity false.

(** Zero (of either sign) or a positive finite number. *)
Definition nonneg_finite (f : spec_float) : Prop :=
  match f with
  | S754_zero _ => True
  | S754_finite false _ _ => True
  | _ => False
  end.

(** The magnitude of a finite number in units of [2^k]. *)
Definition SFmag (k : Z) (f : spec_float) : Z :=
  match f with
  | S754_finite _ m e => Zpos m * pow2 (e - k)
  | _ => 0
  end.

(** The magnitude in units of [2^-1074], the smallest positive binary64
    number: an integer for every finite binary64 number. *)
Definition SFZ (f : spec_float) : Z := SFmag (-1074) f.

(** The magnitude of a [double] in units of [2^-1074]. *)
Definition FZ (x : float) : Z := SFZ (Prim2SF x).

(** [x] is [+0], [-0] or a positive finite number. *)
Definition fnonneg (x : float) : Prop := nonneg_finite (Prim2SF x).

(** The binary64 number [k * 2^j], for [k] below [2^53]. *)
Definition dyadic (k j : Z) : float :=
  SF2Prim (binary_normalize prec emax k j false).

(* ================================================================== *)
(** ** Vocabulary of the statements *)

Open Scope string_scope.

(** Left-to-right accumulation in [double], as [x += v] does it. *)
Definition accumulate (init : float) (values : list float) : float :=
  fold_left PrimFloat.add values init.

Definition fsum (values : list float) : float := accumulate 0 values.

Definition Zsum (values : list Z) : Z := fold_right Z.add 0%Z values.

(** The lines after the header, and those among them that give at
    least six items. *)
Definition data_lines (contents : string) : list string :=
  tl (getlines newline contents).

Definition valid_line (line : string) : bool := enough_fields (split_row line).

Definition valid_rows (contents : string) : list (list string) :=
  map split_row (filter valid_line (data_lines contents)).

(** The three fields that are read from a row are numbers for [stod]. *)
Definition numeric (stod : string -> result float) (row : list string) : Prop :=
  exists t m e,
    stod (nth 1 row EmptyString) = Ok t /\
    stod (nth 2 row EmptyString) = Ok m /\
    stod (nth 5 row EmptyString) = Ok e.

(** The number in field [k] of a row. *)
Definition field (stod : string -> result float) (k : nat) (row : list string)
  : float :=
  match stod (nth k row EmptyString) with
  | Ok v => v
  | _ => 0%float
  end.

Definition received (f : FlowStats) : bool := (0 <? rxPackets f)%Z.

(** The contents a results file starts from. *)
Definition old_contents (f : out_file) : string :=
  match f with
  | Existing contents => contents
  | _ => EmptyString
  end.

(** The sums and the count that the loader holds after the last line of a
    file whose rows of six items or more are all numeric. *)
Definition sums_of (stod : string -> result float) (contents : string) : sums := {|
  total_time := fsum (map (field stod 1) (valid_rows contents));
  total_memory := fsum (map (field stod 2) (valid_rows contents));
  total_energy := fsum (map (field stod 5) (valid_rows contents));
  count := Z.of_nat (List.length (valid_rows contents))
|}.

(** The file of property P2: a header and two rows. *)
Definition P2_csv : string :=
  "run,time_ms,memory_kb,key_bytes,public_bytes,energy_mj" ++ endl
  ++ "1,1.0,10.0,256,16640,2.0" ++ endl
  ++ "2,3.0,20.0,256,16640,4.0" ++ endl.

(** One row of six numbers, the second beyond the range of [double]. *)
Definition overflow_csv : string :=
  "run,time_ms,memory_kb,key_bytes,public_bytes,energy_mj" ++ endl
  ++ "1,1e999,10.0,256,16640,2.0" ++ endl.

(** One good row, one row of three items. *)
Definition P3_csv : string :=
  "run,time_ms,memory_kb,key_bytes,public_bytes,energy_mj" ++ endl
  ++ "1,1.0,10.0,256,16640,2.0" ++ endl
  ++ "2,3.0,20.0" ++ endl.

(** One good row, one row of six items whose time is not a number. *)
Definition non_numeric_csv : string :=
  "run,time_ms,memory_kb,key_bytes,public_bytes,energy_mj" ++ endl
  ++ "1,1.0,10.0,256,16640,2.0" ++ endl
  ++ "2,n/a,20.0,256,16640,4.0" ++ endl.

(** Two flows of [2^31] packets each, all delivered. *)
Definition wrapping_flows : list FlowStats :=
  [ {| txPackets := 2147483648; rxPackets := 2147483648;
       delaySum := 1.0; rxBytes := 2147483648 |};
    {| txPackets := 2147483648; rxPackets := 2147483648;
       delaySum := 1.0; rxBytes := 2147483648 |} ].

(** A fully delivered flow of [2^32 - 1] packets, and a flow of two
    packets that were lost. *)
Definition overfull_flows : list FlowStats :=
  [ {| txPackets := 4294967295; rxPackets := 4294967295;
       delaySum := 1.0; rxBytes := 4294967295 |};
    {| txPackets := 2; rxPackets := 0; delaySum := 0; rxBytes := 0 |} ].

(** The flows of property P5: ten packets sent, none received. *)
Definition P5_flows : list FlowStats :=
  [ {| txPackets := 10; rxPackets := 0; delaySum := 0; rxBytes := 0 |};
    {| txPackets := 10; rxPackets := 0; delaySum := 0; rxBytes := 0 |} ].

(** The two flows of property P6. *)
Definition P6_flows : list FlowStats :=
  [ {| txPackets := 1; rxPackets := 1; delaySum := 0.01; rxBytes := 16640 |};
    {| txPackets := 1; rxPackets := 1; delaySum := 0.01; rxBytes := 16640 |} ].

(** A profile whose computation time is [1e20] ms. *)
Definition slow_metrics : LweMetrics := {|
  avg_computation_time_ms := 1e20;
  avg_memory_kb := 12.0;
  avg_energy_mj := 0.5;
  key_size_bytes := 256;
  public_data_bytes := 16640
|}.

(** What the caller of [main] can tell a run by: the exit status and the
    last line logged. *)
Definition report (o : result run_outcome) : option (Z * string) :=
  match o with
  | Ok o => Some (exit_status o, last_log o)
  | _ => None
  end.

(** The figures of a run without any node. *)
Definition idle_metrics : RunMetrics := aggregate [] 10 0 0 0 default_metrics.

(** Decimal printing of a counter. *)
Definition show_count (z : Z) : string :=
  NilZero.string_of_uint (N.to_uint (Z.to_N z)).

(** How [operator<<] prints the two [double] values of [idle_metrics]. *)
Definition show_sample (x : float) : string :=
  if (x =? 0.5)%float then "0.5" else "0".

Close Scope string_scope.

(* ================================================================== *)
(** ** Connecting the nodes (the first loop of [main]) *)

Open Scope string_scope.

Section Subnets.

(** [operator<<] for [uint32_t], here on a [std::ostringstream]. *)
Variable show_uint : Z -> string.

(** The network number written for node [i]:
    ["10.1." << (i + 1) << ".0"], where [i + 1] is a [uint32_t]. *)
Definition subnet (i : Z) : string :=
  "10.1." ++ show_uint (wrap32 (i + 1)) ++ ".0".

(** The body of the loop.  The link of node [i] gets its addresses from
    the network [subnet i]; what [interfaces.push_back(iface)] stores is
    kept here as that network. *)
Definition connect_node (interfaces : list string) (i : Z) : list string :=
  (interfaces ++ [subnet i])%list.

Definition connect_nodes (nIoTNodes : Z) : list string :=
  fold_left connect_node (indices nIoTNodes) [].

End Subnets.

(** [interfaces[i]], as the second loop reads it: an element of the
    vector, and nothing defined beyond its end. *)
Definition interface_of (interfaces : list string) (i : Z) : option string :=
  if (0 <=? i)%Z then nth_error interfaces (Z.to_nat i) else None.

(** The time that the log line of node [i] shows, [2.0 + i * 0.5]
    (the client is started at [start_time]). *)
Definition logged_start (i : Z) : float := 2.0 + Z2double i * 0.5.

(** The value of [simTime] when the command line gives none. *)
Definition default_simTime : float := 10.0.

(* ================================================================== *)
(** ** Further vocabulary *)

(** How many times a character occurs in a string. *)
Fixpoint occurrences (c : ascii) (s : string) : nat :=
  match s with
  | EmptyString => 0
  | String a rest => ((if Ascii.eqb a c then 1 else 0) + occurrences c rest)%nat
  end.

Definition contains (c : ascii) (s : string) : bool :=
  negb (Nat.eqb (occurrences c s) 0).

(** The last character of the string is [c]. *)
Fixpoint ends_with (c : ascii) (s : string) : bool :=
  match s with
  | EmptyString => false
  | String a EmptyString => Ascii.eqb a c
  | String _ rest => ends_with c rest
  end.

(** The three items of a row that the loader converts. *)
Definition read_fields (row : list string) : string * string * string :=
  (nth 1 row "", nth 2 row "", nth 5 row "").

(** The header of the results file, without its end of line. *)
Definition header_line : string :=
  "nodes,packets_sent,packets_received,pdr,avg_delay_ms,throughput_kbps,"
  ++ "total_energy_mj,computation_ms,memory_kb".

(** A file with a NaN in the time column of its second row. *)
Definition nan_csv : string :=
  "run,time_ms,memory_kb,key_bytes,public_bytes,energy_mj" ++ endl
  ++ "1,1.0,10.0,256,16640,2.0" ++ endl
  ++ "2,nan,20.0,256,16640,4.0" ++ endl.

(** A file whose only row holds [2.5], [10.0] and [2.0]. *)
Definition one_row_csv : string :=
  "run,time_ms,memory_kb,key_bytes,public_bytes,energy_mj" ++ endl
  ++ "1,2.5,10.0,256,16640,2.0" ++ endl.

Section RowFields.

Variable show_uint : Z -> string.
Variable show_double : float -> string.

(** The nine values of the data row, as they are printed. *)
Definition row_fields (r : RunMetrics) : list string :=
  [ show_uint (nodes r); show_uint (packets_sent r);
    show_uint (packets_received r);
    show_double (pdr r); show_double (avg_delay_ms r);
    show_double (throughput_kbps r); show_double (total_energy_mj r);
    show_double (computation_ms r); show_double (memory_kb r) ].

(** The data row without its end of line. *)
Definition row_line (r : RunMetrics) : string :=
  String.concat "," (row_fields r).

End RowFields.

(** Neither a comma nor an end of line in the text. *)
Definition plain (text : string) : Prop :=
  contains comma text = false /\ contains newline text = false.

Close Scope string_scope.

(** A [double] that is zero, a positive number or [+infinity]: what sums,
    products and quotients of such numbers stay, as long as no [0 * inf],
    [inf / inf] or [0 / 0] is formed. *)
Definition not_negative (x : float) : Prop := fnonneg x \/ x = infinity.

(** A positive finite [double]. *)
Definition positive_finite (x : float) : Prop := fnonneg x /\ 0 < FZ x.

(* ================================================================== *)
(** * Binary64 arithmetic

    The rounding of [SpecFloat] (the specification of the primitive
    operations on [double]) keeps a result between the binary64 numbers
    next to the exact one.  This is what the bounds on the delivery ratio
    and on the start times rest on. *)

Ltac Zify.zify_post_hook ::= Z.div_mod_to_equations.

(** ** Powers of two and digits *)

Lemma pow2_pos (k : Z) : 0 <= k -> 0 < pow2 k.
Proof. intros H. unfold pow2. apply Z.pow_pos_nonneg; lia. Qed.

Lemma pow2_add (a b : Z) : 0 <= a -> 0 <= b -> pow2 (a + b) = pow2 a * pow2 b.
Proof. intros. unfold pow2. apply Z.pow_add_r; assumption. Qed.

Lemma pow2_succ (a : Z) : 0 <= a -> pow2 (a + 1) = 2 * pow2 a.
Proof. intros. rewrite pow2_add by lia. unfold pow2 at 2. change (2 ^ 1) with 2. lia. Qed.

Lemma pow2_le (a b : Z) : 0 <= a <= b -> pow2 a <= pow2 b.
Proof. intros. unfold pow2. apply Z.pow_le_mono_r; lia. Qed.

Lemma pow2_lt (a b : Z) : 0 <= a < b -> pow2 a < pow2 b.
Proof. intros. unfold pow2. apply Z.pow_lt_mono_r; lia. Qed.

Lemma pow2_lt_inv (a b : Z) : 0 <= a -> 0 <= b -> pow2 a < pow2 b -> a < b.
Proof.
  intros Ha Hb H. destruct (Z.lt_ge_cases a b) as [|L]; [assumption|].
  pose proof (pow2_le b a). lia.
Qed.

(** The number of binary digits. *)
Lemma digits2_pos_bounds (p : positive) :
  pow2 (Zpos (digits2_pos p) - 1) <= Zpos p < pow2 (Zpos (digits2_pos p)).
Proof.
  induction p as [p IH|p IH|]; cbn [digits2_pos].
  - rewrite Pos2Z.inj_succ. replace (Z.succ (Zpos (digits2_pos p)) - 1) with (Zpos (digits2_pos p) - 1 + 1) by lia.
    unfold Z.succ. rewrite !pow2_succ by lia. lia.
  - rewrite Pos2Z.inj_succ. replace (Z.succ (Zpos (digits2_pos p)) - 1) with (Zpos (digits2_pos p) - 1 + 1) by lia.
    unfold Z.succ. rewrite !pow2_succ by lia. lia.
  - cbn. lia.
Qed.

Lemma Zdigits2_bounds (m : Z) :
  0 < m -> 0 < Zdigits2 m /\ pow2 (Zdigits2 m - 1) <= m < pow2 (Zdigits2 m).
Proof.
  destruct m as [|p|p]; try lia. intros _. cbn [Zdigits2].
  split; [lia | apply digits2_pos_bounds].
Qed.

Lemma Zdigits2_unique (m d : Z) :
  0 < d -> pow2 (d - 1) <= m < pow2 d -> Zdigits2 m = d.
Proof.
  intros Hd H. assert (Hm : 0 < m) by (pose proof (pow2_pos (d - 1)); lia).
  destruct (Zdigits2_bounds m Hm) as [H0 H1].
  assert (Zdigits2 m - 1 < d) by (apply pow2_lt_inv; lia).
  assert (d - 1 < Zdigits2 m) by (apply pow2_lt_inv; lia).
  lia.
Qed.

Lemma Zdigits2_nonneg (m : Z) : 0 <= Zdigits2 m.
Proof. destruct m; cbn; lia. Qed.

(** *** Shifting the mantissa to the right *)

Lemma shr_1_spec (r : shr_record) :
  0 <= shr_m r ->
  shr_m (shr_1 r) = shr_m r / 2 /\
  (shr_exact r -> shr_m r mod 2 = 0 -> shr_exact (shr_1 r)).
Proof.
  destruct r as [m r s]. cbn [shr_m]. intros Hm. unfold shr_exact.
  destruct m as [|[p|p|]|p]; cbn [shr_1 shr_m shr_r shr_s]; [ | | | |lia].
  - split; [reflexivity | intros [-> ->] _; auto].
  - assert (E : Zpos p~1 = 2 * Zpos p + 1) by reflexivity. rewrite E.
    clear E Hm. generalize (Zpos p). intros x.
    split; [lia | intros _ H; lia].
  - assert (E : Zpos p~0 = 2 * Zpos p) by reflexivity. rewrite E.
    clear E Hm. generalize (Zpos p). intros x.
    split; [lia | intros [-> ->] _; auto].
  - split; [reflexivity | intros _ H; discriminate H].
Qed.

Lemma shr_iter_spec (p : positive) : forall r : shr_record,
  0 <= shr_m r ->
  shr_m (SpecFloat.iter_pos shr_1 p r) = shr_m r / pow2 (Zpos p) /\
  (shr_exact r -> shr_m r mod pow2 (Zpos p) = 0 ->
   shr_exact (SpecFloat.iter_pos shr_1 p r)).
Proof.
  assert (D : forall a n, 0 <= a -> 0 < n -> 0 <= a / n)
    by (intros; apply Z.div_pos; lia).
  assert (M : forall a b c, 0 < b -> 0 < c -> a mod (b * c) = 0 ->
                            a mod b = 0 /\ (a / b) mod c = 0).
  { intros a b c Hb Hc H. apply Z.mod_divide in H; [|lia]. destruct H as [k ->].
    replace (k * (b * c)) with ((k * c) * b) by lia.
    rewrite Z.mod_mul, Z.div_mul by lia. rewrite Z.mod_mul by lia. auto. }
  induction p as [p IH|p IH|]; intros r Hm; cbn [SpecFloat.iter_pos].
  - destruct (shr_1_spec r Hm) as [E1 X1].
    assert (H1 : 0 <= shr_m (shr_1 r)) by (rewrite E1; apply D; lia).
    destruct (IH _ H1) as [E2 X2].
    assert (H2 : 0 <= shr_m (SpecFloat.iter_pos shr_1 p (shr_1 r)))
      by (rewrite E2; apply D; [lia | apply pow2_pos; lia]).
    destruct (IH _ H2) as [E3 X3].
    pose proof (pow2_pos (Zpos p) ltac:(lia)) as Pp.
    replace (pow2 (Zpos p~1)) with (2 * (pow2 (Zpos p) * pow2 (Zpos p))).
    2:{ rewrite Pos2Z.inj_xI, <- pow2_add, <- pow2_succ by lia. f_equal. lia. }
    split.
    + rewrite E3, E2, E1, !Z.div_div by lia. reflexivity.
    + intros Hx Hd.
      apply M in Hd; [|lia|lia]. destruct Hd as [Hd1 Hd2].
      apply M in Hd2; [|lia|lia]. destruct Hd2 as [Hd2 Hd3].
      apply X3; [apply X2; [apply X1; assumption|]|].
      * rewrite E1. exact Hd2.
      * rewrite E2, E1. exact Hd3.
  - destruct (IH _ Hm) as [E2 X2].
    assert (H2 : 0 <= shr_m (SpecFloat.iter_pos shr_1 p r))
      by (rewrite E2; apply D; [lia | apply pow2_pos; lia]).
    destruct (IH _ H2) as [E3 X3].
    pose proof (pow2_pos (Zpos p) ltac:(lia)) as Pp.
    replace (pow2 (Zpos p~0)) with (pow2 (Zpos p) * pow2 (Zpos p)).
    2:{ rewrite Pos2Z.inj_xO, <- pow2_add by lia. f_equal. lia. }
    split.
    + rewrite E3, E2, !Z.div_div by lia. reflexivity.
    + intros Hx Hd. apply M in Hd; [|lia|lia]. destruct Hd as [Hd1 Hd2].
      apply X3; [apply X2; assumption|]. rewrite E2. exact Hd2.
  - change (pow2 1) with 2. apply shr_1_spec. exact Hm.
Qed.

(** [shr] by [n >= 0] places: the quotient by [2^n], and nothing lost
    when nothing was lost before and [2^n] divides the mantissa. *)
Lemma shr_spec (r : shr_record) (e n : Z) :
  0 <= shr_m r -> 0 <= n ->
  shr_m (fst (shr r e n)) = shr_m r / pow2 n /\
  snd (shr r e n) = e + n /\
  (shr_exact r -> shr_m r mod pow2 n = 0 -> shr_exact (fst (shr r e n))).
Proof.
  intros Hm Hn. destruct n as [|p|p]; [| |lia]; cbn [shr fst snd].
  - change (pow2 0) with 1. rewrite Z.div_1_r.
    split; [reflexivity | split; [lia | auto]].
  - destruct (shr_iter_spec p r Hm) as [E X].
    split; [exact E | split; [reflexivity | exact X]].
Qed.

Lemma shr_record_of_loc_m (m : Z) (l : location) :
  shr_m (shr_record_of_loc m l) = m.
Proof. destruct l as [|[]]; reflexivity. Qed.

Lemma shr_record_of_loc_exact (m : Z) : shr_exact (shr_record_of_loc m loc_Exact).
Proof. split; reflexivity. Qed.

Lemma loc_of_shr_exact (r : shr_record) :
  shr_exact r -> loc_of_shr_record r = loc_Exact.
Proof. destruct r as [m r s]. intros [H1 H2]. cbn in *. subst. reflexivity. Qed.

Lemma round_nearest_even_bounds (m : Z) (l : location) :
  m <= round_nearest_even m l <= m + 1 /\
  (l = loc_Exact -> round_nearest_even m l = m).
Proof.
  destruct l as [|[]]; cbn [round_nearest_even].
  - split; [lia | reflexivity].
  - destruct (Z.even m); split; try lia; discriminate.
  - split; [lia | reflexivity].
  - split; [lia | discriminate].
Qed.

(** *** The binary64 format *)

Lemma fexp_eq (e : Z) : fexp prec emax e = Z.max (e - 53) (-1074).
Proof. reflexivity. Qed.

Lemma shr_fexp_shift (m e : Z) (l : location) :
  0 <= m -> 0 <= fexp prec emax (Zdigits2 m + e) - e ->
  shr_m (fst (shr_fexp prec emax m e l))
    = m / pow2 (fexp prec emax (Zdigits2 m + e) - e) /\
  snd (shr_fexp prec emax m e l) = fexp prec emax (Zdigits2 m + e) /\
  (l = loc_Exact -> m mod pow2 (fexp prec emax (Zdigits2 m + e) - e) = 0 ->
   loc_of_shr_record (fst (shr_fexp prec emax m e l)) = loc_Exact).
Proof.
  intros Hm Hn. unfold shr_fexp.
  destruct (shr_spec (shr_record_of_loc m l) e _
              ltac:(rewrite shr_record_of_loc_m; exact Hm) Hn) as (E1 & E2 & X).
  rewrite shr_record_of_loc_m in *.
  split; [exact E1 | split; [rewrite E2; lia|]].
  intros -> Hd. apply loc_of_shr_exact, X; [apply shr_record_of_loc_exact | exact Hd].
Qed.

Lemma shr_fexp_same (m e : Z) (l : location) :
  fexp prec emax (Zdigits2 m + e) - e <= 0 ->
  shr_fexp prec emax m e l = (shr_record_of_loc m l, e).
Proof.
  intros Hn. unfold shr_fexp.
  destruct (fexp prec emax (Zdigits2 m + e) - e) as [|p|p]; try reflexivity; lia.
Qed.

Lemma binary_round_aux_eq (sx : bool) (mx ex : Z) (lx : location) :
  binary_round_aux prec emax sx mx ex lx =
  let p1 := shr_fexp prec emax mx ex lx in
  let p2 := shr_fexp prec emax
              (round_nearest_even (shr_m (fst p1)) (loc_of_shr_record (fst p1)))
              (snd p1) loc_Exact in
  match shr_m (fst p2) with
  | Z0 => S754_zero sx
  | Zpos m =>
      if snd p2 <=? 971 then S754_finite sx m (snd p2) else S754_infinity sx
  | Zneg _ => S754_nan
  end.
Proof.
  unfold binary_round_aux.
  destruct (shr_fexp prec emax mx ex lx) as [mrs' e'].
  cbn [fst snd].
  destruct (shr_fexp prec emax _ e' loc_Exact) as [mrs'' e''].
  reflexivity.
Qed.

(** The quotient of a number of [d] digits by [2^n]. *)
Lemma div_pow2_bounds (m d n : Z) :
  0 <= n -> n < d -> pow2 (d - 1) <= m < pow2 d ->
  pow2 (d - n - 1) <= m / pow2 n < pow2 (d - n).
Proof.
  intros Hn Hd [Hl Hu]. pose proof (pow2_pos n Hn) as Pn.
  split.
  - apply Z.div_le_lower_bound; [lia|].
    rewrite Z.mul_comm, <- pow2_add by lia.
    replace (d - n - 1 + n) with (d - 1) by lia. exact Hl.
  - apply Z.div_lt_upper_bound; [lia|].
    rewrite <- pow2_add by lia. replace (n + (d - n)) with d by lia. exact Hu.
Qed.

Lemma div_pow2_small (m d n : Z) :
  0 <= d <= n -> 0 <= m < pow2 d -> m / pow2 n = 0.
Proof.
  intros Hd Hm. apply Z.div_small. pose proof (pow2_le d n). lia.
Qed.

(** What [binary_round_aux] computes for a mantissa [m >= 0] given at an
    exponent [e] not above its canonical exponent [E]: the mantissa at
    exponent [E] is the quotient [m / 2^(E-e)] or its successor, and it is
    the quotient when nothing is lost. *)
Lemma binary_round_aux_shape (m e : Z) (l : location) :
  0 <= m -> e <= fexp prec emax (Zdigits2 m + e) ->
  exists m2,
    m / pow2 (fexp prec emax (Zdigits2 m + e) - e) <= m2
      <= m / pow2 (fexp prec emax (Zdigits2 m + e) - e) + 1 /\
    (l = loc_Exact -> m mod pow2 (fexp prec emax (Zdigits2 m + e) - e) = 0 ->
     m2 = m / pow2 (fexp prec emax (Zdigits2 m + e) - e)) /\
    0 <= m2 <= pow2 53 /\
    (-1074 < fexp prec emax (Zdigits2 m + e) ->
     pow2 52 <= m / pow2 (fexp prec emax (Zdigits2 m + e) - e)) /\
    binary_round_aux prec emax false m e l
    = round_result m2 (fexp prec emax (Zdigits2 m + e)).
Proof.
  intros Hm Hpre.
  set (E := fexp prec emax (Zdigits2 m + e)) in *.
  assert (HE : -1074 <= E) by (subst E; rewrite fexp_eq; lia).
  destruct (shr_fexp_shift m e l Hm ltac:(fold E; lia)) as (S1 & S2 & S3).
  fold E in S1, S2, S3.
  rewrite binary_round_aux_eq. cbv zeta. rewrite S2.
  set (m1 := shr_m (fst (shr_fexp prec emax m e l))) in *.
  set (l1 := loc_of_shr_record (fst (shr_fexp prec emax m e l))) in *.
  destruct (round_nearest_even_bounds m1 l1) as [R1 R2].
  set (m2 := round_nearest_even m1 l1) in *.
  assert (B : 0 <= m1 < pow2 53 /\ (-1074 < E -> pow2 52 <= m1)).
  { rewrite S1. pose proof (pow2_pos (E - e) ltac:(lia)) as Pn.
    pose proof (pow2_pos 52 ltac:(lia)) as P52.
    destruct (Z.eq_dec m 0) as [->|Hm0].
    - rewrite Z.div_0_l by lia. split; [pose proof (pow2_pos 53); lia|].
      intros HE'. subst E. rewrite fexp_eq in *. cbn [Zdigits2] in *. lia.
    - destruct (Zdigits2_bounds m ltac:(lia)) as [Hd Hb].
      set (d := Zdigits2 m) in *.
      assert (EE : E = Z.max (d + e - 53) (-1074)) by (subst E; apply fexp_eq).
      destruct (Z.le_gt_cases (-1074) (d + e - 53)) as [Hn|Hs].
      + replace (E - e) with (d - 53) in * by lia.
        pose proof (div_pow2_bounds m d (d - 53) ltac:(lia) ltac:(lia) Hb) as Q.
        replace (d - (d - 53) - 1) with 52 in Q by lia.
        replace (d - (d - 53)) with 53 in Q by lia. lia.
      + assert (E = -1074) by lia.
        destruct (Z.lt_ge_cases (E - e) d) as [Hlt|Hge].
        * pose proof (div_pow2_bounds m d (E - e) ltac:(lia) Hlt Hb) as Q.
          pose proof (pow2_le (d - (E - e)) 52 ltac:(lia)).
          pose proof (pow2_lt 52 53 ltac:(lia)).
          pose proof (pow2_pos (d - (E - e) - 1) ltac:(lia)). lia.
        * rewrite (div_pow2_small m d (E - e)) by lia.
          pose proof (pow2_pos 53 ltac:(lia)). lia. }
  destruct B as [B1 B2].
  exists m2. rewrite <- S1. split; [exact R1|]. split.
  { intros Hl Hd. apply R2. subst l1. apply S3; assumption. }
  split; [lia|]. split; [exact B2|].
  unfold round_result.
  destruct (Z.eqb_spec m2 0) as [Z0|NZ].
  - rewrite Z0. rewrite shr_fexp_same
      by (cbn [Zdigits2]; rewrite fexp_eq; lia).
    reflexivity.
  - destruct (Z.eqb_spec m2 (pow2 53)) as [C|NC].
    + rewrite C.
      assert (D54 : Zdigits2 (pow2 53) = 54) by reflexivity.
      destruct (shr_fexp_shift (pow2 53) E loc_Exact) as (T1 & T2 & _).
      { vm_compute. discriminate. }
      { rewrite D54, fexp_eq. lia. }
      rewrite T1, T2, D54.
      replace (fexp prec emax (54 + E)) with (E + 1) by (rewrite fexp_eq; lia).
      replace (E + 1 - E) with 1 by lia.
      reflexivity.
    + assert (P : 0 < m2 < pow2 53) by lia.
      destruct (Zdigits2_bounds m2 ltac:(lia)) as [Hd2 Hb2].
      assert (Zdigits2 m2 - 1 < 53) by (apply pow2_lt_inv; lia).
      rewrite shr_fexp_same by (rewrite fexp_eq; lia).
      cbn [fst snd]. rewrite shr_record_of_loc_m.
      destruct m2 as [|p|p]; try lia. reflexivity.
Qed.

(** *** Values and order *)

Lemma valid_finite (s : bool) (m : positive) (e : Z) :
  valid_binary (S754_finite s m e) = true ->
  -1074 <= e <= 971 /\ Zpos m < pow2 53 /\ (-1074 < e -> pow2 52 <= Zpos m).
Proof.
  cbn [SpecFloat.valid_binary]. unfold bounded, canonical_mantissa.
  intros H. apply andb_true_iff in H. destruct H as [H1 H2].
  apply Z.eqb_eq in H1. apply Z.leb_le in H2. rewrite fexp_eq in H1.
  change (emax - prec) with 971 in H2.
  pose proof (digits2_pos_bounds m) as B.
  set (d := Zpos (digits2_pos m)) in *.
  assert (Hd : 0 < d) by (subst d; lia).
  split; [lia|]. split.
  - pose proof (pow2_le d 53 ltac:(lia)). lia.
  - intros He. replace d with 53 in B by lia. exact (proj1 B).
Qed.

Lemma valid_finite_intro (s : bool) (m : positive) (e : Z) :
  -1074 <= e <= 971 -> Zpos m < pow2 53 -> (-1074 < e -> pow2 52 <= Zpos m) ->
  valid_binary (S754_finite s m e) = true.
Proof.
  intros He Hu Hl. cbn [SpecFloat.valid_binary]. unfold bounded, canonical_mantissa.
  apply andb_true_iff. split; [|apply Z.leb_le; change (emax - prec) with 971; lia].
  apply Z.eqb_eq. rewrite fexp_eq.
  pose proof (digits2_pos_bounds m) as B.
  set (d := Zpos (digits2_pos m)) in *.
  assert (Hd : 0 < d) by (subst d; lia).
  assert (d - 1 < 53) by (apply pow2_lt_inv; lia).
  destruct (Z.eq_dec e (-1074)) as [->|Hne]; [lia|].
  assert (52 < d) by (apply pow2_lt_inv; [lia|lia|]; specialize (Hl ltac:(lia)); lia).
  lia.
Qed.

Lemma SFmag_scale (k k' : Z) (f : spec_float) :
  valid_binary f = true -> k' <= k <= -1074 ->
  SFmag k' f = SFmag k f * pow2 (k - k').
Proof.
  intros V Hk. destruct f as [| | |s m e]; cbn [SFmag]; try lia.
  apply valid_finite in V. rewrite <- Z.mul_assoc, <- pow2_add by lia.
  do 2 f_equal. lia.
Qed.

Lemma lower_exponent_smaller (a b A B P : Z) :
  0 < A -> 2 <= B -> 0 < P -> 0 <= a < 2 * P -> P <= b -> a * A < b * (A * B).
Proof.
  intros HA HB HP Ha Hb.
  apply Z.lt_le_trans with (2 * P * A).
  - apply Z.mul_lt_mono_pos_r; lia.
  - replace (2 * P * A) with (P * (A * 2)) by ring.
    apply Z.mul_le_mono_nonneg; try lia.
    apply Z.mul_le_mono_nonneg_l; lia.
Qed.

(** On valid numbers that are not negative, the comparison of
    [SpecFloat] is the comparison of the magnitudes. *)
Lemma SFcompare_nonneg (f g : spec_float) :
  valid_binary f = true -> valid_binary g = true ->
  nonneg_finite f -> nonneg_finite g ->
  SFcompare f g = Some (SFZ f ?= SFZ g).
Proof.
  intros Vf Vg Nf Ng.
  destruct f as [sf| | |sf mf ef]; try contradiction;
    destruct g as [sg| | |sg mg eg]; try contradiction;
    unfold SFZ; cbn [SFcompare SFmag].
  - reflexivity.
  - destruct sg; [contradiction|]. apply valid_finite in Vg.
    pose proof (pow2_pos (eg - -1074) ltac:(lia)).
    f_equal. symmetry. apply Z.compare_lt_iff. nia.
  - destruct sf; [contradiction|]. apply valid_finite in Vf.
    pose proof (pow2_pos (ef - -1074) ltac:(lia)).
    f_equal. symmetry. apply Z.compare_gt_iff. nia.
  - destruct sf; [contradiction|]. destruct sg; [contradiction|].
    apply valid_finite in Vf. apply valid_finite in Vg.
    destruct Vf as (Ef & Uf & Lf). destruct Vg as (Eg & Ug & Lg).
    pose proof (pow2_pos (ef - -1074) ltac:(lia)) as Pf.
    pose proof (pow2_pos (eg - -1074) ltac:(lia)) as Pg.
    f_equal. destruct (Z.compare_spec ef eg) as [->|Hlt|Hgt].
    + rewrite Pos.compare_cont_spec. cbn [Pos.switch_Eq].
      change (Pos.compare mf mg) with (Zpos mf ?= Zpos mg).
      destruct (Z.compare_spec (Zpos mf) (Zpos mg)) as [Q|Q|Q]; symmetry.
      * apply Z.compare_eq_iff. congruence.
      * apply Z.compare_lt_iff. apply Z.mul_lt_mono_pos_r; lia.
      * apply Z.compare_gt_iff. apply Z.mul_lt_mono_pos_r; lia.
    + symmetry. apply Z.compare_lt_iff.
      specialize (Lg ltac:(lia)).
      replace (eg - -1074) with ((ef - -1074) + (eg - ef)) by lia.
      rewrite pow2_add by lia.
      pose proof (pow2_le 1 (eg - ef) ltac:(lia)) as Q. change (pow2 1) with 2 in Q.
      change (pow2 53) with (2 * pow2 52) in Uf.
      apply lower_exponent_smaller with (P := pow2 52); lia.
    + symmetry. apply Z.compare_gt_iff.
      specialize (Lf ltac:(lia)).
      replace (ef - -1074) with ((eg - -1074) + (ef - eg)) by lia.
      rewrite pow2_add by lia.
      pose proof (pow2_le 1 (ef - eg) ltac:(lia)) as Q. change (pow2 1) with 2 in Q.
      change (pow2 53) with (2 * pow2 52) in Ug.
      apply lower_exponent_smaller with (P := pow2 52); lia.
Qed.

(** The magnitude of every valid finite number is below [2^1024], that
    is [2^2098] units. *)
Lemma SFZ_bounds (g : spec_float) :
  valid_binary g = true -> 0 <= SFZ g < pow2 2098.
Proof.
  intros V. destruct g as [| | |s m e]; unfold SFZ; cbn [SFmag];
    try (pose proof (pow2_pos 2098 ltac:(lia)); lia).
  apply valid_finite in V. destruct V as (He & Hu & _).
  pose proof (pow2_pos (e - -1074) ltac:(lia)) as P.
  split; [lia|].
  apply Z.lt_le_trans with (pow2 53 * pow2 (e - -1074)).
  - apply Z.mul_lt_mono_pos_r; lia.
  - rewrite <- pow2_add by lia. apply pow2_le. lia.
Qed.

(** A rounding result is a valid number that is not negative and has the
    magnitude of its mantissa at its exponent, or it is [+infinity] and
    the magnitude is that of [2^1024] at least. *)
Lemma round_result_cases (m2 E : Z) :
  -1074 <= E -> 0 <= m2 <= pow2 53 -> (-1074 < E -> pow2 52 <= m2) ->
  (valid_binary (round_result m2 E) = true /\
   nonneg_finite (round_result m2 E) /\
   SFZ (round_result m2 E) = m2 * pow2 (E + 1074)) \/
  (round_result m2 E = S754_infinity false /\
   pow2 2098 <= m2 * pow2 (E + 1074)).
Proof.
  intros HE H2 HN. unfold round_result.
  pose proof (pow2_pos (E + 1074) ltac:(lia)) as PE.
  destruct (Z.eqb_spec m2 0) as [->|NZ].
  { left. repeat split. }
  destruct (Z.eqb_spec m2 (pow2 53)) as [->|NC].
  - destruct (Z.leb_spec (E + 1) 971) as [L|G].
    + left. split; [|split].
      * apply valid_finite_intro; try lia; vm_compute; congruence.
      * exact I.
      * unfold SFZ. cbn [SFmag].
        replace (E + 1 - -1074) with (1 + (E + 1074)) by lia.
        rewrite pow2_add by lia. change (Zpos (Z.to_pos (pow2 52))) with (pow2 52).
        change (pow2 53) with (pow2 52 * pow2 1). ring.
    + right. split; [reflexivity|].
      replace 2098 with (53 + 2045) by lia. rewrite pow2_add by lia.
      apply Z.mul_le_mono_nonneg_l; [vm_compute; congruence|].
      apply pow2_le. lia.
  - assert (Hp : Zpos (Z.to_pos m2) = m2) by (apply Z2Pos.id; lia).
    destruct (Z.leb_spec E 971) as [L|G].
    + left. split; [|split].
      * apply valid_finite_intro; rewrite ?Hp; lia.
      * exact I.
      * unfold SFZ. cbn [SFmag]. rewrite Hp. do 2 f_equal.
    + right. split; [reflexivity|]. specialize (HN ltac:(lia)).
      replace 2098 with (52 + 2046) by lia. rewrite pow2_add by lia.
      apply Z.mul_le_mono_nonneg; try lia.
      * vm_compute. congruence.
      * pose proof (pow2_pos 2046). lia.
      * apply pow2_le. lia.
Qed.

Lemma SFleb_nonneg (f g : spec_float) :
  valid_binary f = true -> valid_binary g = true ->
  nonneg_finite f -> nonneg_finite g ->
  SFleb f g = true <-> SFZ f <= SFZ g.
Proof.
  intros Vf Vg Nf Ng. unfold SFleb. rewrite SFcompare_nonneg by assumption.
  destruct (Z.compare_spec (SFZ f) (SFZ g)); split; intros; try lia; try reflexivity;
    discriminate.
Qed.

Lemma SFltb_nonneg (f g : spec_float) :
  valid_binary f = true -> valid_binary g = true ->
  nonneg_finite f -> nonneg_finite g ->
  SFltb f g = true <-> SFZ f < SFZ g.
Proof.
  intros Vf Vg Nf Ng. unfold SFltb. rewrite SFcompare_nonneg by assumption.
  destruct (Z.compare_spec (SFZ f) (SFZ g)); split; intros; try lia; try reflexivity;
    discriminate.
Qed.

Lemma SFleb_infinity (g : spec_float) :
  nonneg_finite g -> SFleb g (S754_infinity false) = true.
Proof. destruct g as [s| | |[] m e]; try contradiction; reflexivity. Qed.

(** *** Rounding stays between the neighbouring binary64 numbers *)

(** Three facts of integer arithmetic, in the shape the proofs below use
    them: [A] is the weight of the result's last digit, [c] the factor
    between the two units, [T] what the shift divides by. *)
Lemma scaled_le (m1 T m U S Gz c A : Z) :
  0 < c -> 0 <= S -> 0 <= m1 -> S * T = A * c ->
  m1 * T <= m -> m <= U -> U * S <= Gz * c -> m1 * A <= Gz.
Proof.
  intros Hc HS Hm1 Heq H1 H2 H3.
  apply Z.mul_le_mono_pos_r with c; [exact Hc|].
  replace (m1 * A * c) with (m1 * T * S) by (rewrite <- !Z.mul_assoc, <- Heq; ring).
  apply Z.le_trans with (U * S); [|exact H3].
  apply Z.mul_le_mono_nonneg_r; lia.
Qed.

Lemma scaled_lt (m1 T U S Gz c A : Z) :
  0 < c -> 0 < S -> 0 <= m1 -> S * T = A * c ->
  m1 * T < U -> U * S <= Gz * c -> m1 * A < Gz.
Proof.
  intros Hc HS Hm1 Heq H1 H3.
  apply Z.mul_lt_mono_pos_r with c; [exact Hc|].
  replace (m1 * A * c) with (m1 * T * S) by (rewrite <- !Z.mul_assoc, <- Heq; ring).
  apply Z.lt_le_trans with (U * S); [|exact H3].
  apply Z.mul_lt_mono_pos_r; lia.
Qed.

Lemma scaled_lt' (m1 T m S Gz c A : Z) :
  0 < c -> 0 < S -> 0 <= m1 -> S * T = A * c ->
  m1 * T <= m -> m * S < Gz * c -> m1 * A < Gz.
Proof.
  intros Hc HS Hm1 Heq H1 H3.
  apply Z.mul_lt_mono_pos_r with c; [exact Hc|].
  replace (m1 * A * c) with (m1 * T * S) by (rewrite <- !Z.mul_assoc, <- Heq; ring).
  apply Z.le_lt_trans with (m * S); [|exact H3].
  apply Z.mul_le_mono_nonneg_r; lia.
Qed.

Lemma scaled_gt (m1 T m S Gz c A : Z) :
  0 < c -> 0 < S -> 0 < T -> S * T = A * c ->
  m < (m1 + 1) * T -> Gz * c <= m * S -> Gz < (m1 + 1) * A.
Proof.
  intros Hc HS HT Heq H1 H3.
  apply Z.mul_lt_mono_pos_r with c; [exact Hc|].
  replace ((m1 + 1) * A * c) with ((m1 + 1) * T * S)
    by (rewrite <- !Z.mul_assoc, <- Heq; ring).
  apply Z.le_lt_trans with (m * S); [exact H3|].
  apply Z.mul_lt_mono_pos_r; lia.
Qed.

(** A valid number whose magnitude is strictly above [m1] units of weight
    [2^E] reaches [m1 + 1] of them, when [m1] has its 53 digits in the
    normal range. *)
Lemma next_multiple (g : spec_float) (m1 E : Z) :
  valid_binary g = true -> -1074 <= E ->
  (-1074 < E -> pow2 52 <= m1) ->
  m1 * pow2 (E + 1074) < SFZ g -> (m1 + 1) * pow2 (E + 1074) <= SFZ g.
Proof.
  intros V HE HN H.
  pose proof (pow2_pos (E + 1074) ltac:(lia)) as PE.
  destruct g as [| | |s mg eg]; unfold SFZ in *; cbn [SFmag] in *.
  1-3: destruct (Z.le_gt_cases 0 m1); nia.
  apply valid_finite in V. destruct V as (Heg & Hu & Hl).
  destruct (Z.le_gt_cases E eg) as [L|G].
  - assert (Eq : pow2 (eg - -1074) = pow2 (eg - E) * pow2 (E + 1074))
      by (rewrite <- pow2_add by lia; f_equal; lia).
    rewrite Eq in H |- *.
    pose proof (pow2_pos (eg - E) ltac:(lia)) as PD.
    rewrite Z.mul_assoc in H |- *.
    apply Z.mul_le_mono_nonneg_r; [lia|].
    apply Z.mul_lt_mono_pos_r in H; lia.
  - exfalso. specialize (HN ltac:(lia)).
    assert (Eq : pow2 (E + 1074) = pow2 (eg - -1074) * pow2 (E - eg))
      by (rewrite <- pow2_add by lia; f_equal; lia).
    rewrite Eq in H.
    pose proof (pow2_le 1 (E - eg) ltac:(lia)) as Q. change (pow2 1) with 2 in Q.
    change (pow2 53) with (2 * pow2 52) in Hu.
    pose proof (pow2_pos (eg - -1074) ltac:(lia)) as Pg.
    pose proof (lower_exponent_smaller (Zpos mg) m1 (pow2 (eg - -1074))
                  (pow2 (E - eg)) (pow2 52)
                  Pg Q ltac:(vm_compute; reflexivity) ltac:(lia) HN).
    lia.
Qed.

Lemma prev_multiple (g : spec_float) (m1 E : Z) :
  valid_binary g = true -> -1074 <= E -> 0 <= m1 ->
  (-1074 < E -> pow2 52 <= m1) ->
  SFZ g < (m1 + 1) * pow2 (E + 1074) -> SFZ g <= m1 * pow2 (E + 1074).
Proof.
  intros V HE H0 HN H.
  pose proof (pow2_pos (E + 1074) ltac:(lia)) as PE.
  destruct g as [| | |s mg eg]; unfold SFZ in *; cbn [SFmag] in *.
  1-3: nia.
  apply valid_finite in V. destruct V as (Heg & Hu & Hl).
  destruct (Z.le_gt_cases E eg) as [L|G].
  - assert (Eq : pow2 (eg - -1074) = pow2 (eg - E) * pow2 (E + 1074))
      by (rewrite <- pow2_add by lia; f_equal; lia).
    rewrite Eq in H |- *.
    pose proof (pow2_pos (eg - E) ltac:(lia)) as PD.
    rewrite Z.mul_assoc in H |- *.
    apply Z.mul_le_mono_nonneg_r; [lia|].
    apply Z.mul_lt_mono_pos_r in H; lia.
  - specialize (HN ltac:(lia)).
    assert (Eq : pow2 (E + 1074) = pow2 (eg - -1074) * pow2 (E - eg))
      by (rewrite <- pow2_add by lia; f_equal; lia).
    rewrite Eq.
    pose proof (pow2_le 1 (E - eg) ltac:(lia)) as Q. change (pow2 1) with 2 in Q.
    change (pow2 53) with (2 * pow2 52) in Hu.
    pose proof (pow2_pos (eg - -1074) ltac:(lia)) as Pg.
    pose proof (lower_exponent_smaller (Zpos mg) m1 (pow2 (eg - -1074))
                  (pow2 (E - eg)) (pow2 52)
                  Pg Q ltac:(vm_compute; reflexivity) ltac:(lia) HN).
    lia.
Qed.

(** [binary_round_aux] on a mantissa [m >= 0] given at an exponent [e] at
    most its canonical one, standing for a number [x] that is [m * 2^e]
    (location exact) or strictly between [m * 2^e] and [(m + 1) * 2^e]:
    the result is a valid number, not negative; it is at most every
    binary64 number [g] with [x <= g], and at least every [g] with
    [g <= m * 2^e].  The magnitudes are compared in units of [2^k], for
    any [k] low enough. *)
Theorem binary_round_aux_bounds (m e : Z) (l : location) :
  0 <= m -> e <= fexp prec emax (Zdigits2 m + e) ->
  valid_binary (binary_round_aux prec emax false m e l) = true /\
  (nonneg_finite (binary_round_aux prec emax false m e l) \/
   binary_round_aux prec emax false m e l = S754_infinity false) /\
  forall (g : spec_float) (k : Z),
    valid_binary g = true -> nonneg_finite g -> k <= e -> k <= -1074 ->
    (m * pow2 (e - k) <= SFmag k g ->
     (l <> loc_Exact -> m * pow2 (e - k) < SFmag k g) ->
     SFleb (binary_round_aux prec emax false m e l) g = true) /\
    (SFmag k g <= m * pow2 (e - k) ->
     SFleb g (binary_round_aux prec emax false m e l) = true).
Proof.
  intros Hm Hpre.
  destruct (binary_round_aux_shape m e l Hm Hpre) as (m2 & R1 & R2 & R3 & R4 & ->).
  set (E := fexp prec emax (Zdigits2 m + e)) in *.
  assert (HE : -1074 <= E) by (subst E; rewrite fexp_eq; lia).
  set (T := pow2 (E - e)) in *. set (m1 := m / T) in *.
  assert (PT : 0 < T) by (apply pow2_pos; lia).
  assert (Hlo : m1 * T <= m) by (subst m1; rewrite Z.mul_comm; apply Z.mul_div_le; lia).
  assert (Hhi : m < (m1 + 1) * T)
    by (subst m1; rewrite Z.mul_comm; apply Z.mul_succ_div_gt; lia).
  assert (H1 : 0 <= m1) by (subst m1; apply Z.div_pos; lia).
  assert (N2 : -1074 < E -> pow2 52 <= m2) by lia.
  pose proof (round_result_cases m2 E HE R3 N2) as C.
  split; [|split].
  - destruct C as [(V & _)|(-> & _)]; [exact V | reflexivity].
  - destruct C as [(_ & N & _)|(-> & _)]; [left; exact N | right; reflexivity].
  - intros g k Vg Ng Hk Hk'.
    set (S := pow2 (e - k)). set (c := pow2 (-1074 - k)). set (A := pow2 (E + 1074)).
    assert (PS : 0 < S) by (apply pow2_pos; lia).
    assert (Pc : 0 < c) by (apply pow2_pos; lia).
    assert (PA : 0 < A) by (apply pow2_pos; lia).
    assert (Heq : S * T = A * c).
    { subst S T A c. rewrite <- !pow2_add by lia. f_equal. lia. }
    assert (Hg : SFmag k g = SFZ g * c) by (apply SFmag_scale; [exact Vg | lia]).
    rewrite Hg. pose proof (SFZ_bounds g Vg) as Bg.
    split.
    + intros HU HU'.
      assert (Val : m2 * A <= SFZ g).
      { destruct (Z.eq_dec m2 m1) as [->|Hne].
        - apply (scaled_le m1 T m m S (SFZ g) c A); assumption || lia.
        - replace m2 with (m1 + 1) by lia.
          apply next_multiple; try assumption.
          destruct l as [|cmp].
          + apply (scaled_lt m1 T m S (SFZ g) c A); try assumption.
            destruct (Z.eq_dec (m mod T) 0) as [Hd|Hd].
            * exfalso. apply Hne. apply R2; [reflexivity | exact Hd].
            * assert (m = T * m1 + m mod T) by (subst m1; apply Z.div_mod; lia).
              assert (0 <= m mod T < T) by (apply Z.mod_pos_bound; lia).
              lia.
          + apply (scaled_lt' m1 T m S (SFZ g) c A); try assumption.
            apply HU'. discriminate. }
      destruct C as [(V & N & Q)|(_ & Q)]; [|fold A in Q; lia].
      apply SFleb_nonneg; try assumption. fold A in Q. lia.
    + intros HL.
      assert (Val : SFZ g <= m2 * A).
      { apply Z.le_trans with (m1 * A).
        - apply prev_multiple; try assumption.
          apply (scaled_gt m1 T m S (SFZ g) c A); assumption.
        - apply Z.mul_le_mono_nonneg_r; lia. }
      destruct C as [(V & N & Q)|(-> & _)].
      * apply SFleb_nonneg; try assumption. fold A in Q. lia.
      * apply SFleb_infinity. exact Ng.
Qed.

(** *** Rounding an exact dyadic number: [binary_round] *)

Lemma Pos_iter_xO (m d : positive) :
  Zpos (Pos.iter xO m d) = Zpos m * pow2 (Zpos d).
Proof.
  induction d as [|d IH] using Pos.peano_ind.
  - cbn [Pos.iter]. change (pow2 1) with 2. lia.
  - rewrite Pos.iter_succ, Pos2Z.inj_succ. unfold Z.succ.
    rewrite pow2_succ by lia.
    change (Zpos (Pos.iter xO m d)~0) with (2 * Zpos (Pos.iter xO m d)).
    rewrite IH. ring.
Qed.

(** [shl_align] brings a mantissa down to the lower of two exponents. *)
Lemma shl_align_spec (mx : positive) (ex ex' : Z) :
  snd (shl_align mx ex ex') = Z.min ex ex' /\
  Zpos (fst (shl_align mx ex ex')) = Zpos mx * pow2 (ex - Z.min ex ex').
Proof.
  unfold shl_align. destruct (ex' - ex) as [|d|d] eqn:D; cbn [fst snd].
  - replace (Z.min ex ex') with ex by lia. rewrite Z.sub_diag.
    change (pow2 0) with 1. lia.
  - replace (Z.min ex ex') with ex by lia. rewrite Z.sub_diag.
    change (pow2 0) with 1. lia.
  - replace (Z.min ex ex') with ex' by lia. rewrite Pos_iter_xO.
    split; [reflexivity|]. do 2 f_equal. lia.
Qed.

Lemma Zdigits2_shift (m n : Z) :
  0 < m -> 0 <= n -> Zdigits2 (m * pow2 n) = Zdigits2 m + n.
Proof.
  intros Hm Hn. destruct (Zdigits2_bounds m Hm) as [Hd [Hl Hu]].
  pose proof (pow2_pos n Hn) as Pn.
  apply Zdigits2_unique; [lia|]. split.
  - replace (Zdigits2 m + n - 1) with ((Zdigits2 m - 1) + n) by lia.
    rewrite pow2_add by lia. apply Z.mul_le_mono_nonneg_r; lia.
  - rewrite pow2_add by lia. apply Z.mul_lt_mono_pos_r; lia.
Qed.

Lemma binary_round_eq (mx : positive) (ex : Z) :
  binary_round prec emax false mx ex =
  binary_round_aux prec emax false
    (Zpos mx * pow2 (ex - Z.min ex (fexp prec emax (Zdigits2 (Zpos mx) + ex))))
    (Z.min ex (fexp prec emax (Zdigits2 (Zpos mx) + ex))) loc_Exact.
Proof.
  unfold binary_round.
  pose proof (shl_align_spec mx ex (fexp prec emax (Zpos (digits2_pos mx) + ex)))
    as [H1 H2].
  destruct (shl_align mx ex (fexp prec emax (Zpos (digits2_pos mx) + ex)))
    as [mz ez].
  cbn [fst snd] in *. rewrite H1, H2. reflexivity.
Qed.

(** The mantissa that [binary_round] hands over has its canonical
    exponent at or above the exponent it comes with. *)
Lemma binary_round_pre (mx : positive) (ex : Z) :
  let E := fexp prec emax (Zdigits2 (Zpos mx) + ex) in
  Zdigits2 (Zpos mx * pow2 (ex - Z.min ex E)) + Z.min ex E
  = Zdigits2 (Zpos mx) + ex.
Proof.
  intros E. rewrite Zdigits2_shift by lia. lia.
Qed.

Theorem binary_round_bounds (mx : positive) (ex : Z) :
  valid_binary (binary_round prec emax false mx ex) = true /\
  (nonneg_finite (binary_round prec emax false mx ex) \/
   binary_round prec emax false mx ex = S754_infinity false) /\
  forall (g : spec_float) (k : Z),
    valid_binary g = true -> nonneg_finite g -> k <= ex -> k <= -1074 ->
    (Zpos mx * pow2 (ex - k) <= SFmag k g ->
     SFleb (binary_round prec emax false mx ex) g = true) /\
    (SFmag k g <= Zpos mx * pow2 (ex - k) ->
     SFleb g (binary_round prec emax false mx ex) = true).
Proof.
  rewrite binary_round_eq.
  set (E := fexp prec emax (Zdigits2 (Zpos mx) + ex)).
  assert (HE : -1074 <= E) by (subst E; rewrite fexp_eq; lia).
  set (ez := Z.min ex E).
  pose proof (pow2_pos (ex - ez) ltac:(lia)) as Ps.
  destruct (binary_round_aux_bounds (Zpos mx * pow2 (ex - ez)) ez loc_Exact)
    as (V & N & B).
  - lia.
  - subst ez. rewrite binary_round_pre. fold E. lia.
  - split; [exact V|]. split; [exact N|].
    intros g k Vg Ng Hk Hk'.
    destruct (B g k Vg Ng ltac:(lia) Hk') as [B1 B2].
    assert (Q : Zpos mx * pow2 (ex - ez) * pow2 (ez - k) = Zpos mx * pow2 (ex - k)).
    { rewrite <- Z.mul_assoc, <- pow2_add by lia. do 2 f_equal. lia. }
    rewrite Q in B1, B2. split; [|assumption].
    intros H. apply B1; [exact H | intros C; contradiction C; reflexivity].
Qed.

(** A mantissa below [2^53] at an exponent of the format is not rounded:
    the result has the magnitude of the input, unless that is [2^1024] or
    more. *)
Theorem binary_round_exact (mx : positive) (ex : Z) :
  Zpos mx < pow2 53 -> -1074 <= ex ->
  (valid_binary (binary_round prec emax false mx ex) = true /\
   nonneg_finite (binary_round prec emax false mx ex) /\
   SFZ (binary_round prec emax false mx ex) = Zpos mx * pow2 (ex + 1074)) \/
  (binary_round prec emax false mx ex = S754_infinity false /\
   pow2 2098 <= Zpos mx * pow2 (ex + 1074)).
Proof.
  intros Hm Hex. rewrite binary_round_eq.
  set (E := fexp prec emax (Zdigits2 (Zpos mx) + ex)).
  assert (HE : -1074 <= E <= ex).
  { subst E. rewrite fexp_eq.
    destruct (Zdigits2_bounds (Zpos mx) ltac:(lia)) as [Hd [Hl _]].
    assert (Zdigits2 (Zpos mx) - 1 < 53) by (apply pow2_lt_inv; lia). lia. }
  replace (Z.min ex E) with E by lia.
  pose proof (pow2_pos (ex - E) ltac:(lia)) as Ps.
  destruct (binary_round_aux_shape (Zpos mx * pow2 (ex - E)) E loc_Exact)
    as (m2 & R1 & R2 & R3 & R4 & ->).
  - lia.
  - rewrite Zdigits2_shift by lia.
    replace (Zdigits2 (Zpos mx) + (ex - E) + E) with (Zdigits2 (Zpos mx) + ex) by lia.
    fold E. lia.
  - rewrite Zdigits2_shift in * by lia.
    replace (Zdigits2 (Zpos mx) + (ex - E) + E) with (Zdigits2 (Zpos mx) + ex) in * by lia.
    fold E in R1, R2, R4 |- *. rewrite Z.sub_diag in *. change (pow2 0) with 1 in *.
    rewrite Z.div_1_r in *.
    assert (M2 : m2 = Zpos mx * pow2 (ex - E))
      by (apply R2; [reflexivity | apply Z.mod_1_r]).
    assert (Q : m2 * pow2 (E + 1074) = Zpos mx * pow2 (ex + 1074)).
    { rewrite M2, <- Z.mul_assoc, <- pow2_add by lia. do 2 f_equal. lia. }
    rewrite <- Q.
    apply round_result_cases; try lia.
Qed.

(** *** Addition, multiplication and division of numbers that are not
    negative *)

Lemma SFleb_zero_l (s : bool) (g : spec_float) :
  nonneg_finite g -> SFleb (S754_zero s) g = true.
Proof. destruct g as [s'| | |[] m e]; try contradiction; reflexivity. Qed.

Lemma SFZ_finite (s : bool) (m : positive) (e : Z) :
  SFZ (S754_finite s m e) = Zpos m * pow2 (e + 1074).
Proof. unfold SFZ. cbn [SFmag]. do 2 f_equal. Qed.

(** The sum [x + y] rounds to a number between the binary64 numbers
    around it. *)
Theorem SFadd_bounds (x y : spec_float) :
  valid_binary x = true -> valid_binary y = true ->
  nonneg_finite x -> nonneg_finite y ->
  valid_binary (SFadd prec emax x y) = true /\
  (nonneg_finite (SFadd prec emax x y) \/
   SFadd prec emax x y = S754_infinity false) /\
  forall g : spec_float,
    valid_binary g = true -> nonneg_finite g ->
    (SFZ x + SFZ y <= SFZ g -> SFleb (SFadd prec emax x y) g = true) /\
    (SFZ g <= SFZ x + SFZ y -> SFleb g (SFadd prec emax x y) = true).
Proof.
  intros Vx Vy Nx Ny.
  assert (Same : forall r : spec_float,
             valid_binary r = true -> nonneg_finite r -> SFZ r = SFZ x + SFZ y ->
             valid_binary r = true /\
             (nonneg_finite r \/ r = S754_infinity false) /\
             forall g : spec_float,
               valid_binary g = true -> nonneg_finite g ->
               (SFZ x + SFZ y <= SFZ g -> SFleb r g = true) /\
               (SFZ g <= SFZ x + SFZ y -> SFleb g r = true)).
  { intros r Vr Nr Er. split; [exact Vr|]. split; [left; exact Nr|].
    intros g Vg Ng. rewrite <- Er.
    split; intros H; apply SFleb_nonneg; assumption. }
  destruct x as [sx| | |sx mx ex]; try contradiction;
    destruct y as [sy| | |sy my ey]; try contradiction.
  - apply Same; [destruct sx, sy; reflexivity | destruct sx, sy; exact I
                | destruct sx, sy; reflexivity].
  - apply Same; [exact Vy | exact Ny | reflexivity].
  - apply Same; [exact Vx | exact Nx | cbn [SFadd]; unfold SFZ at 3; cbn [SFmag]; lia].
  - destruct sx; [contradiction|]. destruct sy; [contradiction|].
    cbn [SFadd cond_Zopp].
    pose proof (valid_finite _ _ _ Vx) as (Hex & _ & _).
    pose proof (valid_finite _ _ _ Vy) as (Hey & _ & _).
    set (ez := Z.min ex ey).
    pose proof (shl_align_spec mx ex ez) as [_ Ax].
    pose proof (shl_align_spec my ey ez) as [_ Ay].
    replace (Z.min ex ez) with ez in Ax by lia.
    replace (Z.min ey ez) with ez in Ay by lia.
    set (ax := fst (shl_align mx ex ez)) in *.
    set (ay := fst (shl_align my ey ez)) in *.
    change (Zpos ax + Zpos ay) with (Zpos (ax + ay)).
    cbn [binary_normalize].
    destruct (binary_round_bounds (ax + ay) ez) as (V & N & B).
    split; [exact V|]. split; [exact N|].
    intros g Vg Ng. destruct (B g (-1074) Vg Ng ltac:(lia) ltac:(lia)) as [B1 B2].
    assert (Q : Zpos (ax + ay) * pow2 (ez - -1074) = SFZ (S754_finite false mx ex)
                                                   + SFZ (S754_finite false my ey)).
    { rewrite !SFZ_finite, Pos2Z.inj_add, Ax, Ay, Z.mul_add_distr_r.
      rewrite <- !Z.mul_assoc, <- !pow2_add by lia.
      f_equal; do 2 f_equal; lia. }
    rewrite Q in B1, B2. split; assumption.
Qed.

Lemma Zdigits2_mul (a b : Z) :
  0 < a -> 0 < b -> Zdigits2 a + Zdigits2 b - 1 <= Zdigits2 (a * b).
Proof.
  intros Ha Hb.
  destruct (Zdigits2_bounds a Ha) as [Da [La _]].
  destruct (Zdigits2_bounds b Hb) as [Db [Lb _]].
  destruct (Zdigits2_bounds (a * b) ltac:(lia)) as [Dab [_ Uab]].
  assert (pow2 (Zdigits2 a - 1 + (Zdigits2 b - 1)) <= a * b).
  { rewrite pow2_add by lia.
    pose proof (pow2_pos (Zdigits2 a - 1) ltac:(lia)).
    pose proof (pow2_pos (Zdigits2 b - 1) ltac:(lia)).
    apply Z.mul_le_mono_nonneg; lia. }
  assert (Zdigits2 a - 1 + (Zdigits2 b - 1) < Zdigits2 (a * b))
    by (apply pow2_lt_inv; lia).
  lia.
Qed.

Lemma valid_canonical (s : bool) (m : positive) (e : Z) :
  valid_binary (S754_finite s m e) = true ->
  e = fexp prec emax (Zdigits2 (Zpos m) + e).
Proof.
  cbn [SpecFloat.valid_binary]. unfold bounded, canonical_mantissa.
  intros H. apply andb_true_iff in H. destruct H as [H _].
  apply Z.eqb_eq in H. symmetry. exact H.
Qed.

(** The product [x * y] rounds to a number between the binary64 numbers
    around it ([SFZ x * SFZ y] is the product in units of [2^-2148]). *)
Theorem SFmul_bounds (x y : spec_float) :
  valid_binary x = true -> valid_binary y = true ->
  nonneg_finite x -> nonneg_finite y ->
  valid_binary (SFmul prec emax x y) = true /\
  (nonneg_finite (SFmul prec emax x y) \/
   SFmul prec emax x y = S754_infinity false) /\
  forall g : spec_float,
    valid_binary g = true -> nonneg_finite g ->
    (SFZ x * SFZ y <= SFZ g * pow2 1074 -> SFleb (SFmul prec emax x y) g = true) /\
    (SFZ g * pow2 1074 <= SFZ x * SFZ y -> SFleb g (SFmul prec emax x y) = true).
Proof.
  intros Vx Vy Nx Ny.
  assert (Zero : forall s : bool, SFZ x * SFZ y = 0 ->
             valid_binary (S754_zero s) = true /\
             (nonneg_finite (S754_zero s) \/ S754_zero s = S754_infinity false) /\
             forall g : spec_float,
               valid_binary g = true -> nonneg_finite g ->
               (SFZ x * SFZ y <= SFZ g * pow2 1074 -> SFleb (S754_zero s) g = true) /\
               (SFZ g * pow2 1074 <= SFZ x * SFZ y -> SFleb g (S754_zero s) = true)).
  { intros s E. split; [reflexivity|]. split; [left; exact I|].
    intros g Vg Ng. rewrite E. split; intros H.
    - apply SFleb_zero_l. exact Ng.
    - apply SFleb_nonneg; try assumption; try reflexivity; try exact I.
      pose proof (SFZ_bounds g Vg). pose proof (pow2_pos 1074 ltac:(lia)).
      change (SFZ (S754_zero s)) with 0. nia. }
  destruct x as [sx| | |sx mx ex]; try contradiction;
    destruct y as [sy| | |sy my ey]; try contradiction;
    try (apply Zero; unfold SFZ; cbn [SFmag]; lia).
  destruct sx; [contradiction|]. destruct sy; [contradiction|].
  cbn [SFmul xorb].
  pose proof (valid_finite _ _ _ Vx) as (Hex & Ux & Lx).
  pose proof (valid_finite _ _ _ Vy) as (Hey & Uy & Ly).
  pose proof (valid_canonical _ _ _ Vx) as Cx.
  pose proof (valid_canonical _ _ _ Vy) as Cy.
  rewrite fexp_eq in Cx, Cy.
  change (Zpos (mx * my)) with (Zpos mx * Zpos my).
  destruct (binary_round_aux_bounds (Zpos mx * Zpos my) (ex + ey) loc_Exact)
    as (V & N & B).
  - lia.
  - pose proof (Zdigits2_mul (Zpos mx) (Zpos my) ltac:(lia) ltac:(lia)) as D.
    destruct (Zdigits2_bounds (Zpos mx) ltac:(lia)) as [Dx _].
    destruct (Zdigits2_bounds (Zpos my) ltac:(lia)) as [Dy _].
    rewrite fexp_eq. lia.
  - split; [exact V|]. split; [exact N|].
    intros g Vg Ng.
    destruct (B g (-2148) Vg Ng ltac:(lia) ltac:(lia)) as [B1 B2].
    assert (Q : Zpos mx * Zpos my * pow2 (ex + ey - -2148)
                = SFZ (S754_finite false mx ex) * SFZ (S754_finite false my ey)).
    { rewrite !SFZ_finite.
      replace (ex + ey - -2148) with ((ex + 1074) + (ey + 1074)) by lia.
      rewrite pow2_add by lia. ring. }
    assert (Qg : SFmag (-2148) g = SFZ g * pow2 1074).
    { rewrite (SFmag_scale (-1074) (-2148)) by (assumption || lia). reflexivity. }
    rewrite Q, Qg in B1, B2. split; [|exact B2].
    intros H. apply B1; [exact H | intros C; contradiction C; reflexivity].
Qed.

Lemma Zdigits2_le (a b : Z) : 0 <= a <= b -> Zdigits2 a <= Zdigits2 b.
Proof.
  intros H. destruct (Z.eq_dec a 0) as [->|Ha]; [apply Zdigits2_nonneg|].
  destruct (Zdigits2_bounds a ltac:(lia)) as [Da [La _]].
  destruct (Zdigits2_bounds b ltac:(lia)) as [Db [_ Ub]].
  assert (Zdigits2 a - 1 < Zdigits2 b) by (apply pow2_lt_inv; lia).
  lia.
Qed.

Lemma new_location_exact (n k : Z) :
  (k = 0 -> new_location n k = loc_Exact) /\
  (k <> 0 -> new_location n k <> loc_Exact).
Proof.
  unfold new_location, new_location_even, new_location_odd.
  destruct (Z.even n); destruct (Z.eqb_spec k 0); split; intros; try lia;
    try reflexivity; discriminate.
Qed.

(** The quotient and the location that [SFdiv] hands to the rounding. *)
Lemma SFdiv_core_binary_spec (m1 : positive) (e1 : Z) (m2 : positive) (e2 : Z) :
  let e' := Z.min (fexp prec emax (Zdigits2 (Zpos m1) + e1 - (Zdigits2 (Zpos m2) + e2)))
                  (e1 - e2) in
  let s := e1 - e2 - e' in
  SFdiv_core_binary prec emax (Zpos m1) e1 (Zpos m2) e2 =
  ((Zpos m1 * pow2 s) / Zpos m2, e',
   new_location (Zpos m2) ((Zpos m1 * pow2 s) mod Zpos m2)).
Proof.
  intros e' s. unfold SFdiv_core_binary. fold e'. fold s.
  assert (Hs : 0 <= s) by (subst s; lia).
  assert (M : match s with
              | Z0 => Zpos m1
              | Zpos _ => Z.shiftl (Zpos m1) s
              | Zneg _ => 0
              end = Zpos m1 * pow2 s).
  { destruct s as [|p|p] eqn:Es; [change (pow2 0) with 1; lia| |lia].
    rewrite Z.shiftl_mul_pow2 by lia. reflexivity. }
  rewrite M. unfold Z.div, Z.modulo.
  destruct (Z.div_eucl (Zpos m1 * pow2 s) (Zpos m2)) as [q r]. reflexivity.
Qed.

(** The quotient [x / y] rounds to a number that no binary64 number at or
    above it is below. *)
Theorem SFdiv_upper (x y : spec_float) :
  valid_binary x = true -> valid_binary y = true ->
  nonneg_finite x -> nonneg_finite y -> 0 < SFZ y ->
  valid_binary (SFdiv prec emax x y) = true /\
  (nonneg_finite (SFdiv prec emax x y) \/
   SFdiv prec emax x y = S754_infinity false) /\
  forall g : spec_float,
    valid_binary g = true -> nonneg_finite g ->
    SFZ x * pow2 1074 <= SFZ g * SFZ y ->
    SFleb (SFdiv prec emax x y) g = true.
Proof.
  intros Vx Vy Nx Ny Py.
  destruct y as [sy| | |sy my ey]; try contradiction;
    [unfold SFZ in Py; cbn in Py; lia|].
  destruct sy; [contradiction|].
  destruct x as [sx| | |sx mx ex]; try contradiction.
  { cbn [SFdiv]. split; [reflexivity|]. split; [left; exact I|].
    intros g Vg Ng _. apply SFleb_zero_l. exact Ng. }
  destruct sx; [contradiction|].
  cbn [SFdiv xorb]. rewrite SFdiv_core_binary_spec. cbv zeta.
  pose proof (valid_finite _ _ _ Vx) as (Hex & Ux & Lx).
  pose proof (valid_finite _ _ _ Vy) as (Hey & Uy & Ly).
  set (dx := Zdigits2 (Zpos mx)). set (dy := Zdigits2 (Zpos my)).
  destruct (Zdigits2_bounds (Zpos mx) ltac:(lia)) as [Dx [Lmx Umx]].
  destruct (Zdigits2_bounds (Zpos my) ltac:(lia)) as [Dy [Lmy Umy]].
  fold dx in Dx, Lmx, Umx. fold dy in Dy, Lmy, Umy.
  set (D := dx + ex - (dy + ey)).
  set (e' := Z.min (fexp prec emax D) (ex - ey)).
  set (s := ex - ey - e').
  assert (Hs : 0 <= s) by (subst s e'; lia).
  pose proof (pow2_pos s Hs) as Ps.
  set (m' := Zpos mx * pow2 s).
  assert (Hm' : 0 < m') by (subst m'; lia).
  set (q := m' / Zpos my). set (r := m' mod Zpos my).
  assert (Hqr : m' = Zpos my * q + r) by (apply Z.div_mod; lia).
  assert (Hr : 0 <= r < Zpos my) by (apply Z.mod_pos_bound; lia).
  assert (Hq : 0 <= q) by (apply Z.div_pos; lia).
  assert (Dm' : Zdigits2 m' = dx + s) by (apply Zdigits2_shift; lia).
  assert (Ee : e' = Z.min (Z.max (D - 53) (-1074)) (ex - ey))
    by (subst e'; rewrite fexp_eq; reflexivity).
  assert (Es : s = ex - ey - e') by reflexivity.
  assert (ED : D = dx + ex - (dy + ey)) by reflexivity.
  assert (Em' : m' = Zpos mx * pow2 s) by reflexivity.
  clearbody m' q r s e' D.
  destruct (binary_round_aux_bounds q e' (new_location (Zpos my) r)) as (V & N & B).
  - exact Hq.
  - rewrite fexp_eq.
    destruct (Z.eq_dec q 0) as [Q0|Q0].
    + rewrite Q0. cbn [Zdigits2].
      assert (m' < Zpos my) by lia.
      pose proof (Zdigits2_le m' (Zpos my) ltac:(lia)) as Dle.
      rewrite Dm' in Dle. fold dy in Dle. lia.
    + destruct (Zdigits2_bounds q ltac:(lia)) as [Dq [_ Uq]].
      assert (dx + s - dy <= Zdigits2 q).
      { destruct (Z.le_gt_cases (dx + s - dy) 0) as [|Pos]; [lia|].
        assert (pow2 (dx + s - dy - 1) < pow2 (Zdigits2 q)).
        { apply Z.le_lt_trans with q; [|exact Uq].
          destruct (Z.le_gt_cases (pow2 (dx + s - dy - 1)) q) as [|Small];
            [assumption | exfalso].
          pose proof (pow2_pos (dx + s - dy - 1) ltac:(lia)) as Pk.
          assert (A1 : m' < (q + 1) * Zpos my) by lia.
          assert (A2 : (q + 1) * Zpos my <= pow2 (dx + s - dy - 1) * Zpos my)
            by (apply Z.mul_le_mono_nonneg_r; lia).
          assert (A3 : pow2 (dx + s - dy - 1) * Zpos my
                       < pow2 (dx + s - dy - 1) * pow2 dy)
            by (apply Z.mul_lt_mono_pos_l; lia).
          assert (A4 : pow2 (dx + s - dy - 1) * pow2 dy = pow2 (dx - 1) * pow2 s)
            by (rewrite <- !pow2_add by lia; f_equal; lia).
          assert (A5 : pow2 (dx - 1) * pow2 s <= m')
            by (rewrite Em'; apply Z.mul_le_mono_nonneg_r; lia).
          lia. }
        assert (dx + s - dy - 1 < Zdigits2 q) by (apply pow2_lt_inv; lia).
        lia. }
      lia.
  - split; [exact V|]. split; [exact N|].
    intros g Vg Ng H.
    set (k := Z.min e' (-1074)).
    destruct (B g k Vg Ng ltac:(lia) ltac:(lia)) as [B1 _].
    rewrite (SFmag_scale (-1074) k) in B1 by (assumption || lia).
    fold (SFZ g) in B1.
    set (P := pow2 (e' - k)) in *. set (c := pow2 (-1074 - k)) in *.
    set (W := pow2 (ey + 1074)).
    assert (PP : 0 < P) by (apply pow2_pos; lia).
    assert (Pc : 0 < c) by (apply pow2_pos; lia).
    assert (PW : 0 < W) by (apply pow2_pos; lia).
    rewrite !SFZ_finite in H. fold W in H.
    assert (Key : m' * P * W <= SFZ g * c * Zpos my * W).
    { assert (E1 : m' * P * W = Zpos mx * pow2 (ex + 1074) * pow2 1074 * c).
      { rewrite Em'. subst P W c. rewrite <- !Z.mul_assoc, <- !pow2_add by lia.
        do 2 f_equal. lia. }
      rewrite E1.
      replace (SFZ g * c * Zpos my * W) with (SFZ g * (Zpos my * W) * c) by ring.
      apply Z.mul_le_mono_nonneg_r; [lia | exact H]. }
    assert (Key' : m' * P <= SFZ g * c * Zpos my).
    { apply Z.mul_le_mono_pos_r with W; assumption. }
    apply B1.
    + apply Z.mul_le_mono_pos_r with (Zpos my); [lia|].
      apply Z.le_trans with (m' * P); [|exact Key'].
      rewrite Hqr. nia.
    + intros NE. destruct (new_location_exact (Zpos my) r) as [X1 _].
      assert (Hr0 : r <> 0) by (intros R0; apply NE, X1, R0).
      apply Z.mul_lt_mono_pos_r with (Zpos my); [lia|].
      apply Z.lt_le_trans with (m' * P); [|exact Key'].
      rewrite Hqr. nia.
Qed.

(** *** The same on primitive floats *)

Lemma leb_FZ (x y : float) :
  fnonneg x -> fnonneg y -> ((x <=? y)%float = true <-> FZ x <= FZ y).
Proof.
  intros Nx Ny. rewrite leb_spec.
  apply SFleb_nonneg; auto using Prim2SF_valid.
Qed.

Lemma ltb_FZ (x y : float) :
  fnonneg x -> fnonneg y -> ((x <? y)%float = true <-> FZ x < FZ y).
Proof.
  intros Nx Ny. rewrite ltb_spec.
  apply SFltb_nonneg; auto using Prim2SF_valid.
Qed.

Lemma SFleb_not_infinity (r g : spec_float) :
  nonneg_finite r \/ r = S754_infinity false ->
  nonneg_finite g -> SFleb r g = true -> nonneg_finite r.
Proof.
  intros [N | ->] Ng H; [exact N|].
  destruct g as [s| | |[] m e]; try contradiction; discriminate H.
Qed.

(** Between zero and a finite number there are finite numbers only. *)
Lemma fnonneg_between (x hi : float) :
  (0 <=? x)%float = true -> (x <=? hi)%float = true -> fnonneg hi -> fnonneg x.
Proof.
  rewrite !leb_spec. unfold fnonneg.
  change (Prim2SF 0) with (S754_zero false).
  destruct (Prim2SF x) as [s| | |s m e]; destruct (Prim2SF hi) as [s'| | |s' m' e'];
    cbn; try destruct s; try destruct s'; try discriminate; try contradiction; auto.
Qed.

Theorem add_bounds (x y g : float) :
  fnonneg x -> fnonneg y -> fnonneg g ->
  (FZ x + FZ y <= FZ g -> (x + y <=? g)%float = true /\ fnonneg (x + y)) /\
  (FZ g <= FZ x + FZ y -> (g <=? x + y)%float = true).
Proof.
  intros Nx Ny Ng. unfold fnonneg, FZ in *. rewrite !leb_spec, add_spec.
  destruct (SFadd_bounds (Prim2SF x) (Prim2SF y)
              (Prim2SF_valid x) (Prim2SF_valid y) Nx Ny) as (V & N & B).
  destruct (B (Prim2SF g) (Prim2SF_valid g) Ng) as [B1 B2].
  split; [|exact B2]. intros H. specialize (B1 H).
  split; [exact B1|]. exact (SFleb_not_infinity _ _ N Ng B1).
Qed.

Theorem mul_bounds (x y g : float) :
  fnonneg x -> fnonneg y -> fnonneg g ->
  (FZ x * FZ y <= FZ g * pow2 1074 ->
   (x * y <=? g)%float = true /\ fnonneg (x * y)) /\
  (FZ g * pow2 1074 <= FZ x * FZ y -> (g <=? x * y)%float = true).
Proof.
  intros Nx Ny Ng. unfold fnonneg, FZ in *. rewrite !leb_spec, mul_spec.
  destruct (SFmul_bounds (Prim2SF x) (Prim2SF y)
              (Prim2SF_valid x) (Prim2SF_valid y) Nx Ny) as (V & N & B).
  destruct (B (Prim2SF g) (Prim2SF_valid g) Ng) as [B1 B2].
  split; [|exact B2]. intros H. specialize (B1 H).
  split; [exact B1|]. exact (SFleb_not_infinity _ _ N Ng B1).
Qed.

Theorem div_upper (x y g : float) :
  fnonneg x -> fnonneg y -> 0 < FZ y -> fnonneg g ->
  FZ x * pow2 1074 <= FZ g * FZ y ->
  (x / y <=? g)%float = true /\ fnonneg (x / y).
Proof.
  intros Nx Ny Py Ng H. unfold fnonneg, FZ in *. rewrite !leb_spec, div_spec.
  destruct (SFdiv_upper (Prim2SF x) (Prim2SF y)
              (Prim2SF_valid x) (Prim2SF_valid y) Nx Ny Py) as (V & N & B).
  specialize (B (Prim2SF g) (Prim2SF_valid g) Ng H).
  split; [exact B|]. exact (SFleb_not_infinity _ _ N Ng B).
Qed.

(** When the exact result is a binary64 number, it is the result. *)
Lemma add_exact (x y g : float) :
  fnonneg x -> fnonneg y -> fnonneg g -> FZ x + FZ y = FZ g ->
  fnonneg (x + y) /\ FZ (x + y) = FZ g.
Proof.
  intros Nx Ny Ng H. destruct (add_bounds x y g Nx Ny Ng) as [B1 B2].
  destruct (B1 ltac:(lia)) as [L N]. specialize (B2 ltac:(lia)).
  split; [exact N|]. apply leb_FZ in L; [|assumption|assumption].
  apply leb_FZ in B2; [|assumption|assumption]. lia.
Qed.

Lemma mul_exact (x y g : float) :
  fnonneg x -> fnonneg y -> fnonneg g -> FZ x * FZ y = FZ g * pow2 1074 ->
  fnonneg (x * y) /\ FZ (x * y) = FZ g.
Proof.
  intros Nx Ny Ng H. destruct (mul_bounds x y g Nx Ny Ng) as [B1 B2].
  destruct (B1 ltac:(lia)) as [L N]. specialize (B2 ltac:(lia)).
  split; [exact N|]. apply leb_FZ in L; [|assumption|assumption].
  apply leb_FZ in B2; [|assumption|assumption]. lia.
Qed.

Theorem dyadic_spec (k j : Z) :
  0 <= k < pow2 53 -> -1074 <= j -> k * pow2 (j + 1074) < pow2 2098 ->
  fnonneg (dyadic k j) /\ FZ (dyadic k j) = k * pow2 (j + 1074).
Proof.
  intros Hk Hj Hb. unfold dyadic, fnonneg, FZ.
  destruct k as [|p|p]; [| |lia]; cbn [binary_normalize].
  - rewrite Prim2SF_SF2Prim by reflexivity. split; [exact I | reflexivity].
  - destruct (binary_round_exact p j ltac:(lia) Hj) as [(V & N & E)|(_ & E)]; [|lia].
    rewrite Prim2SF_SF2Prim by exact V. split; assumption.
Qed.

Lemma Z2double_dyadic (z : Z) : Z2double z = dyadic z 0.
Proof. reflexivity. Qed.

Theorem Z2double_spec (z : Z) :
  0 <= z < pow2 53 -> fnonneg (Z2double z) /\ FZ (Z2double z) = z * pow2 1074.
Proof.
  intros Hz. rewrite Z2double_dyadic. apply dyadic_spec; try lia.
  change (0 + 1074) with 1074.
  pose proof (pow2_pos 1074 ltac:(lia)).
  apply Z.lt_le_trans with (pow2 53 * pow2 1074).
  - apply Z.mul_lt_mono_pos_r; lia.
  - rewrite <- pow2_add by lia. apply pow2_le. lia.
Qed.

Ltac Zify.zify_post_hook ::= idtac.

(* ================================================================== *)
(** ** Bounds on the delivery ratio and on the start times *)

Lemma pow2_1074_pos : 0 < pow2 1074.
Proof. apply pow2_pos. lia. Qed.

Lemma FZ_one : FZ 1 = pow2 1074.
Proof. vm_compute. reflexivity. Qed.

Lemma FZ_hundred : FZ 100 = 100 * pow2 1074.
Proof. vm_compute. reflexivity. Qed.

Lemma fnonneg_zero : fnonneg 0.
Proof. exact I. Qed.

Lemma FZ_zero : FZ 0 = 0.
Proof. reflexivity. Qed.

Lemma FZ_nonneg (x : float) : 0 <= FZ x.
Proof. unfold FZ. apply SFZ_bounds, Prim2SF_valid. Qed.

Lemma uint32_below_pow2_53 (z : Z) : 0 <= z <= UINT32_MAX -> 0 <= z < pow2 53.
Proof.
  unfold UINT32_MAX. intros H. split; [lia|].
  apply Z.le_lt_trans with 4294967295; [lia | vm_compute; reflexivity].
Qed.

(** The delivery ratio of [rx] packets out of [tx >= rx]. *)
Theorem ratio_bounds (rx tx : Z) :
  0 <= rx <= tx -> 0 < tx <= UINT32_MAX ->
  (0 <=? Z2double rx / Z2double tx * 100)%float = true /\
  (Z2double rx / Z2double tx * 100 <=? 100)%float = true.
Proof.
  intros Hrx Htx.
  destruct (Z2double_spec rx (uint32_below_pow2_53 rx ltac:(lia))) as [NR VR].
  destruct (Z2double_spec tx (uint32_below_pow2_53 tx ltac:(lia))) as [NT VT].
  pose proof pow2_1074_pos as P.
  assert (N1 : fnonneg 1) by exact I.
  assert (N100 : fnonneg 100) by exact I.
  destruct (div_upper (Z2double rx) (Z2double tx) 1 NR NT) as [Q NQ].
  - rewrite VT. nia.
  - exact N1.
  - rewrite VR, VT, FZ_one. nia.
  - apply leb_FZ in Q; [|assumption|assumption]. rewrite FZ_one in Q.
    destruct (mul_bounds (Z2double rx / Z2double tx) 100 100 NQ N100 N100) as [B _].
    destruct B as [L NP].
    + rewrite FZ_hundred. nia.
    + split; [|exact L].
      apply leb_FZ; [exact fnonneg_zero | exact NP |].
      rewrite FZ_zero. apply FZ_nonneg.
Qed.

Lemma eqb_zero_false (x : float) :
  fnonneg x -> 0 < FZ x -> (x =? 0)%float = false.
Proof.
  intros N P. rewrite eqb_spec. unfold SFeqb.
  rewrite SFcompare_nonneg; auto using Prim2SF_valid; [|exact I].
  fold (FZ x). fold (FZ 0). rewrite FZ_zero.
  destruct (Z.compare_spec (FZ x) 0); try reflexivity; lia.
Qed.

(** What compares below something is a number. *)
Lemma leb_not_nan (x y : float) : (x <=? y)%float = true -> is_nan x = false.
Proof.
  unfold is_nan. rewrite leb_spec, eqb_spec. unfold SFleb, SFeqb.
  destruct (Prim2SF x) as [s| | |s m e]; cbn [SFcompare].
  - reflexivity.
  - destruct s; reflexivity.
  - discriminate.
  - intros _. destruct s; rewrite Z.compare_refl, Pos.compare_cont_refl; reflexivity.
Qed.

(** A positive 32-bit count does not convert to zero. *)
Lemma Z2double_nonzero (z : Z) :
  0 < z <= UINT32_MAX -> (Z2double z =? 0)%float = false.
Proof.
  intros H.
  destruct (Z2double_spec z (uint32_below_pow2_53 z ltac:(lia))) as [N V].
  apply eqb_zero_false; [exact N|]. rewrite V. pose proof pow2_1074_pos. nia.
Qed.

(** Nothing out of something is zero. *)
Lemma zero_ratio (tx : Z) :
  0 < tx <= UINT32_MAX -> (Z2double 0 / Z2double tx * 100)%float = 0%float.
Proof.
  intros H.
  destruct (Z2double_spec tx (uint32_below_pow2_53 tx ltac:(lia))) as [N V].
  assert (P : 0 < FZ (Z2double tx)) by (rewrite V; pose proof pow2_1074_pos; nia).
  apply Prim2SF_inj. rewrite mul_spec, div_spec.
  change (Prim2SF (Z2double 0)) with (S754_zero false).
  change (Prim2SF 0) with (S754_zero false).
  unfold fnonneg, FZ in *.
  destruct (Prim2SF (Z2double tx)) as [s| | |[] m e]; try contradiction.
  - unfold SFZ in P. cbn in P. lia.
  - vm_compute. reflexivity.
Qed.

Lemma pow2_1074_eq : pow2 1074 = 2097152 * pow2 1053.
Proof. change 1074 with (21 + 1053). rewrite pow2_add by lia. reflexivity. Qed.

Lemma pow2_1073_eq : pow2 1073 = 1048576 * pow2 1053.
Proof. change 1073 with (20 + 1053). rewrite pow2_add by lia. reflexivity. Qed.

Lemma FZ_half : FZ 0.5 = pow2 1073.
Proof. vm_compute. reflexivity. Qed.

Lemma FZ_two : FZ 2 = 2 * pow2 1074.
Proof. vm_compute. reflexivity. Qed.

Lemma FZ_thousand : FZ 1000 = 1000 * pow2 1074.
Proof. vm_compute. reflexivity. Qed.

Lemma FZ_1e9 : FZ 1e9 = 1000000000 * pow2 1074.
Proof. vm_compute. reflexivity. Qed.

Lemma FZ_2p20 : FZ 1048576 = 1048576 * pow2 1074.
Proof. vm_compute. reflexivity. Qed.

(** [2.0 + i * 0.5] is computed exactly for a 32-bit [i]. *)
Lemma stagger_exact (i : Z) :
  0 <= i <= UINT32_MAX ->
  fnonneg (2.0 + Z2double i * 0.5) /\
  FZ (2.0 + Z2double i * 0.5) = (4 + i) * pow2 1073.
Proof.
  intros Hi. pose proof (uint32_below_pow2_53 i Hi) as Hi53.
  change (pow2 53) with 9007199254740992 in Hi53. unfold UINT32_MAX in Hi.
  destruct (Z2double_spec i ltac:(change (pow2 53) with 9007199254740992; lia))
    as [NI VI].
  pose proof (pow2_pos 1053 ltac:(lia)) as PU.
  assert (B53 : pow2 53 * pow2 1073 <= pow2 2098)
    by (rewrite <- pow2_add by lia; apply pow2_le; lia).
  change (pow2 53) with 9007199254740992 in B53.
  destruct (dyadic_spec i (-1)) as [Nh Vh].
  { change (pow2 53) with 9007199254740992; lia. }
  { lia. }
  { change (-1 + 1074) with 1073.
    apply Z.lt_le_trans with (9007199254740992 * pow2 1073); [|exact B53].
    apply Z.mul_lt_mono_pos_r; [apply pow2_pos|]; lia. }
  change (-1 + 1074) with 1073 in Vh.
  destruct (mul_exact (Z2double i) 0.5 (dyadic i (-1)) NI I Nh) as [NH VH].
  { rewrite VI, FZ_half, Vh. ring. }
  destruct (dyadic_spec (4 + i) (-1)) as [Nb Vb].
  { change (pow2 53) with 9007199254740992; lia. }
  { lia. }
  { change (-1 + 1074) with 1073.
    apply Z.lt_le_trans with (9007199254740992 * pow2 1073); [|exact B53].
    apply Z.mul_lt_mono_pos_r; [apply pow2_pos|]; lia. }
  change (-1 + 1074) with 1073 in Vb.
  destruct (add_exact 2.0 (Z2double i * 0.5) (dyadic (4 + i) (-1)) I NH Nb) as [NB VB].
  { rewrite VH, Vh, FZ_two, Vb.
    change 1074 with (1 + 1073). rewrite pow2_add by lia. change (pow2 1) with 2. ring. }
  split; [exact NB|]. rewrite VB. exact Vb.
Qed.

(** The start times of two nodes differ when the computation time of the
    profile is between 0 and [1e9] ms. *)
Theorem start_time_increasing (g : LweMetrics) (i j : Z) :
  (0 <=? avg_computation_time_ms g)%float = true ->
  (avg_computation_time_ms g <=? 1e9)%float = true ->
  0 <= i < j -> j <= UINT32_MAX ->
  (start_time g i <? start_time g j)%float = true.
Proof.
  intros H0 H9 Hij Hj. unfold start_time.
  set (comp := avg_computation_time_ms g) in *.
  assert (Ncomp : fnonneg comp) by (apply (fnonneg_between comp 1e9 H0 H9); exact I).
  apply leb_FZ in H9; [|exact Ncomp|exact I]. rewrite FZ_1e9 in H9.
  pose proof pow2_1074_pos as P.
  destruct (div_upper comp 1000 1048576 Ncomp I) as [Lc Nc].
  { rewrite FZ_thousand. nia. }
  { exact I. }
  { rewrite FZ_2p20, FZ_thousand. nia. }
  apply leb_FZ in Lc; [|exact Nc|exact I]. rewrite FZ_2p20 in Lc.
  set (c := (comp / 1000)%float) in *.
  destruct (stagger_exact i ltac:(lia)) as [Ni Vi].
  destruct (stagger_exact j ltac:(lia)) as [Nj Vj].
  set (bi := (2.0 + Z2double i * 0.5)%float) in *.
  set (bj := (2.0 + Z2double j * 0.5)%float) in *.
  pose proof (pow2_pos 1053 ltac:(lia)) as PU.
  pose proof (FZ_nonneg c) as C0.
  rewrite pow2_1073_eq in Vi, Vj. rewrite pow2_1074_eq in Lc.
  set (U := pow2 1053) in *. set (C := FZ c) in *.
  assert (Hlo : U * (C / U) <= C) by (apply Z.mul_div_le; lia).
  assert (Hhi : C < U * Z.succ (C / U)) by (apply Z.mul_succ_div_gt; lia).
  assert (Hq : 0 <= C / U <= 2199023255552).
  { split; [apply Z.div_pos; lia|]. apply Z.div_le_upper_bound; lia. }
  set (cU := C / U) in *. unfold UINT32_MAX in Hj.
  assert (B53 : pow2 53 * U <= pow2 2098)
    by (subst U; rewrite <- pow2_add by lia; apply pow2_le; lia).
  change (pow2 53) with 9007199254740992 in B53.
  assert (Rep : forall k, 0 <= k < 9007199254740992 ->
                fnonneg (dyadic k (-21)) /\ FZ (dyadic k (-21)) = k * U).
  { intros k Hk. apply dyadic_spec.
    - change (pow2 53) with 9007199254740992. exact Hk.
    - lia.
    - change (-21 + 1074) with 1053. fold U.
      apply Z.lt_le_trans with (9007199254740992 * U); [|exact B53].
      apply Z.mul_lt_mono_pos_r; lia. }
  destruct (Rep ((4 + i) * 1048576 + cU + 1) ltac:(lia)) as [N1 V1].
  destruct (Rep ((4 + j) * 1048576 + cU) ltac:(lia)) as [N2 V2].
  destruct (Rep ((4 + j) * 1048576 + cU + 1) ltac:(lia)) as [N3 V3].
  destruct (add_bounds bi c _ Ni Nc N1) as [[Li Nsi] _].
  { fold C. rewrite Vi, V1. lia. }
  destruct (add_bounds bj c _ Nj Nc N3) as [[_ Nsj] _].
  { fold C. rewrite Vj, V3. lia. }
  destruct (add_bounds bj c _ Nj Nc N2) as [_ Lj].
  specialize (Lj ltac:(fold C; rewrite Vj, V2; lia)).
  apply leb_FZ in Li; [|assumption|assumption].
  apply leb_FZ in Lj; [|assumption|assumption].
  apply ltb_FZ; [assumption|assumption|].
  rewrite V1 in Li. rewrite V2 in Lj.
  apply Z.le_lt_trans with (((4 + i) * 1048576 + cU + 1) * U); [exact Li|].
  apply Z.lt_le_trans with (((4 + j) * 1048576 + cU) * U); [|exact Lj].
  apply Z.mul_lt_mono_pos_r; lia.
Qed.

(* ================================================================== *)
(** ** More on division, NaN and infinity *)

Ltac Zify.zify_post_hook ::= Z.div_mod_to_equations.

(** The quotient is not below a binary64 number that is not above the
    exact quotient. *)
Theorem SFdiv_lower (x y : spec_float) :
  valid_binary x = true -> valid_binary y = true ->
  nonneg_finite x -> nonneg_finite y -> 0 < SFZ y ->
  forall g : spec_float,
    valid_binary g = true -> nonneg_finite g ->
    SFZ g * SFZ y <= SFZ x * pow2 1074 ->
    SFleb g (SFdiv prec emax x y) = true.
Proof.
  intros Vx Vy Nx Ny Py g Vg Ng H.
  destruct y as [sy| | |sy my ey]; try contradiction;
    [unfold SFZ in Py; cbn in Py; lia|].
  destruct sy; [contradiction|].
  destruct x as [sx| | |sx mx ex]; try contradiction.
  { (* x is zero: so is g *)
    cbn [SFdiv].
    assert (G0 : SFZ g = 0).
    { change (SFZ (S754_zero sx)) with 0 in H. rewrite Z.mul_0_l in H.
      pose proof (SFZ_bounds g Vg) as Bg.
      destruct (Z.eq_dec (SFZ g) 0) as [|NZ]; [assumption | exfalso].
      assert (1 * SFZ (S754_finite false my ey)
              <= SFZ g * SFZ (S754_finite false my ey))
        by (apply Z.mul_le_mono_nonneg_r; lia).
      lia. }
    destruct g as [sg| | |sg mg eg]; try contradiction.
    - destruct sg, (xorb sx false); reflexivity.
    - exfalso. destruct (valid_finite _ _ _ Vg) as (He & _ & _).
      rewrite SFZ_finite in G0. pose proof (pow2_pos (eg + 1074) ltac:(lia)). nia. }
  destruct sx; [contradiction|].
  cbn [SFdiv xorb]. rewrite SFdiv_core_binary_spec. cbv zeta.
  pose proof (valid_finite _ _ _ Vx) as (Hex & Ux & Lx).
  pose proof (valid_finite _ _ _ Vy) as (Hey & Uy & Ly).
  set (dx := Zdigits2 (Zpos mx)). set (dy := Zdigits2 (Zpos my)).
  destruct (Zdigits2_bounds (Zpos mx) ltac:(lia)) as [Dx [Lmx Umx]].
  destruct (Zdigits2_bounds (Zpos my) ltac:(lia)) as [Dy [Lmy Umy]].
  fold dx in Dx, Lmx, Umx. fold dy in Dy, Lmy, Umy.
  assert (Dx53 : dx <= 53).
  { assert (pow2 (dx - 1) < pow2 53) by lia.
    assert (dx - 1 < 53) by (apply pow2_lt_inv; lia). lia. }
  set (D := dx + ex - (dy + ey)).
  set (e' := Z.min (fexp prec emax D) (ex - ey)).
  set (s := ex - ey - e').
  assert (Hs : 0 <= s) by (subst s e'; lia).
  pose proof (pow2_pos s Hs) as Ps.
  set (m' := Zpos mx * pow2 s).
  assert (Hm' : 0 < m') by (subst m'; lia).
  set (q := m' / Zpos my). set (r := m' mod Zpos my).
  assert (Hqr : m' = Zpos my * q + r) by (apply Z.div_mod; lia).
  assert (Hr : 0 <= r < Zpos my) by (apply Z.mod_pos_bound; lia).
  assert (Hq : 0 <= q) by (apply Z.div_pos; lia).
  assert (Dm' : Zdigits2 m' = dx + s) by (apply Zdigits2_shift; lia).
  assert (Ee : e' = Z.min (Z.max (D - 53) (-1074)) (ex - ey))
    by (subst e'; rewrite fexp_eq; reflexivity).
  assert (Es : s = ex - ey - e') by reflexivity.
  assert (ED : D = dx + ex - (dy + ey)) by reflexivity.
  assert (Em' : m' = Zpos mx * pow2 s) by reflexivity.
  clearbody m' q r s e' D.
  destruct (binary_round_aux_bounds q e' (new_location (Zpos my) r)) as (V & N & B).
  - exact Hq.
  - rewrite fexp_eq.
    destruct (Z.eq_dec q 0) as [Q0|Q0].
    + rewrite Q0. cbn [Zdigits2].
      assert (m' < Zpos my) by lia.
      pose proof (Zdigits2_le m' (Zpos my) ltac:(lia)) as Dle.
      rewrite Dm' in Dle. fold dy in Dle. lia.
    + destruct (Zdigits2_bounds q ltac:(lia)) as [Dq [_ Uq]].
      assert (dx + s - dy <= Zdigits2 q).
      { destruct (Z.le_gt_cases (dx + s - dy) 0) as [|Pos]; [lia|].
        assert (pow2 (dx + s - dy - 1) < pow2 (Zdigits2 q)).
        { apply Z.le_lt_trans with q; [|exact Uq].
          destruct (Z.le_gt_cases (pow2 (dx + s - dy - 1)) q) as [|Small];
            [assumption | exfalso].
          pose proof (pow2_pos (dx + s - dy - 1) ltac:(lia)) as Pk.
          assert (A1 : m' < (q + 1) * Zpos my) by lia.
          assert (A2 : (q + 1) * Zpos my <= pow2 (dx + s - dy - 1) * Zpos my)
            by (apply Z.mul_le_mono_nonneg_r; lia).
          assert (A3 : pow2 (dx + s - dy - 1) * Zpos my
                       < pow2 (dx + s - dy - 1) * pow2 dy)
            by (apply Z.mul_lt_mono_pos_l; lia).
          assert (A4 : pow2 (dx + s - dy - 1) * pow2 dy = pow2 (dx - 1) * pow2 s)
            by (rewrite <- !pow2_add by lia; f_equal; lia).
          assert (A5 : pow2 (dx - 1) * pow2 s <= m')
            by (rewrite Em'; apply Z.mul_le_mono_nonneg_r; lia).
          lia. }
        assert (dx + s - dy - 1 < Zdigits2 q) by (apply pow2_lt_inv; lia).
        lia. }
      lia.
  - set (k := Z.min e' (-1074)).
    destruct (B g k Vg Ng ltac:(lia) ltac:(lia)) as [_ B2].
    apply B2. clear B B2.
    rewrite (SFmag_scale (-1074) k) by (assumption || lia).
    fold (SFZ g).
    set (P := pow2 (e' - k)). set (c := pow2 (-1074 - k)).
    set (W := pow2 (ey + 1074)).
    assert (PP : 0 < P) by (apply pow2_pos; lia).
    assert (Pc : 0 < c) by (apply pow2_pos; lia).
    assert (PW : 0 < W) by (apply pow2_pos; lia).
    rewrite !SFZ_finite in H. fold W in H.
    assert (E1 : m' * P * W = Zpos mx * pow2 (ex + 1074) * pow2 1074 * c).
    { rewrite Em'. subst P W c. rewrite <- !Z.mul_assoc, <- !pow2_add by lia.
      do 2 f_equal. lia. }
    assert (Key : SFZ g * c * Zpos my * W <= m' * P * W).
    { rewrite E1.
      replace (SFZ g * c * Zpos my * W) with (SFZ g * (Zpos my * W) * c) by ring.
      apply Z.mul_le_mono_nonneg_r; [lia | exact H]. }
    assert (Key' : SFZ g * c * Zpos my <= m' * P).
    { apply Z.mul_le_mono_pos_r with W; assumption. }
    destruct g as [sg| | |sg mg eg]; try contradiction.
    { unfold SFZ. cbn [SFmag]. nia. }
    destruct sg; [contradiction|].
    pose proof (valid_finite _ _ _ Vg) as (Heg & Ug & Lg).
    rewrite SFZ_finite in Key' |- *.
    destruct (Z.le_gt_cases e' eg) as [Ge|Lt].
    + (* [g] is a multiple of the unit of the quotient *)
      assert (EG : Zpos mg * pow2 (eg + 1074) * c = Zpos mg * pow2 (eg - e') * P).
      { subst P c. rewrite <- !Z.mul_assoc, <- !pow2_add by lia.
        do 2 f_equal. lia. }
      rewrite EG in Key' |- *.
      apply Z.mul_le_mono_nonneg_r; [lia|].
      set (G := Zpos mg * pow2 (eg - e')) in *.
      assert (GM : G * Zpos my <= m').
      { apply Z.mul_le_mono_pos_r with P; [exact PP|].
        replace (G * Zpos my * P) with (G * P * Zpos my) by ring. exact Key'. }
      destruct (Z.le_gt_cases G q) as [|Gt]; [assumption | exfalso].
      assert ((q + 1) * Zpos my <= G * Zpos my)
        by (apply Z.mul_le_mono_nonneg_r; lia).
      lia.
    + (* [g] is finer than the quotient, which has 53 digits: [g] is
         more than a binade below *)
      assert (Ek : k = -1074) by lia.
      assert (Ee' : e' = D - 53) by lia.
      assert (S53 : s = 53 - dx + dy) by lia.
      assert (Q52 : pow2 52 <= q).
      { destruct (Z.le_gt_cases (pow2 52) q) as [|Small]; [assumption | exfalso].
        assert (A1 : m' < (q + 1) * Zpos my) by lia.
        assert (A2 : (q + 1) * Zpos my <= pow2 52 * Zpos my)
          by (apply Z.mul_le_mono_nonneg_r; lia).
        assert (A3 : pow2 52 * Zpos my < pow2 52 * pow2 dy)
          by (apply Z.mul_lt_mono_pos_l; [apply pow2_pos|]; lia).
        assert (A4 : pow2 52 * pow2 dy = pow2 (dx - 1) * pow2 s)
          by (rewrite <- !pow2_add by lia; f_equal; lia).
        assert (A5 : pow2 (dx - 1) * pow2 s <= m')
          by (rewrite Em'; apply Z.mul_le_mono_nonneg_r; lia).
        lia. }
      assert (Ec : c = 1) by (subst c; rewrite Ek; reflexivity).
      rewrite Ec, Z.mul_1_r.
      assert (EP : P = pow2 (e' - eg - 1) * (2 * pow2 (eg + 1074))).
      { subst P. rewrite <- pow2_succ, <- pow2_add by lia. f_equal. lia. }
      pose proof (pow2_pos (e' - eg - 1) ltac:(lia)) as Pd.
      pose proof (pow2_pos (eg + 1074) ltac:(lia)) as Pg.
      assert (T1 : Zpos mg * pow2 (eg + 1074) <= pow2 53 * pow2 (eg + 1074))
        by (apply Z.mul_le_mono_nonneg_r; lia).
      assert (T2 : pow2 53 = pow2 52 * 2) by reflexivity.
      assert (T3 : pow2 52 * (2 * pow2 (eg + 1074)) <= q * (2 * pow2 (eg + 1074)))
        by (apply Z.mul_le_mono_nonneg_r; lia).
      assert (T4 : q * (2 * pow2 (eg + 1074)) * 1
                   <= q * (2 * pow2 (eg + 1074)) * pow2 (e' - eg - 1))
        by (apply Z.mul_le_mono_nonneg_l; lia).
      rewrite EP.
      replace (q * (pow2 (e' - eg - 1) * (2 * pow2 (eg + 1074))))
        with (q * (2 * pow2 (eg + 1074)) * pow2 (e' - eg - 1)) by ring.
      lia.
Qed.

Theorem div_lower (x y g : float) :
  fnonneg x -> fnonneg y -> 0 < FZ y -> fnonneg g ->
  FZ g * FZ y <= FZ x * pow2 1074 ->
  (g <=? x / y)%float = true.
Proof.
  intros Nx Ny Py Ng H. rewrite leb_spec, div_spec.
  apply SFdiv_lower; auto using Prim2SF_valid.
Qed.

(** A quotient that is a binary64 number is computed exactly. *)
Lemma div_exact (x y g : float) :
  fnonneg x -> fnonneg y -> 0 < FZ y -> fnonneg g ->
  FZ g * FZ y = FZ x * pow2 1074 ->
  fnonneg (x / y) /\ FZ (x / y) = FZ g.
Proof.
  intros Nx Ny Py Ng H.
  destruct (div_upper x y g Nx Ny Py Ng ltac:(lia)) as [U N].
  pose proof (div_lower x y g Nx Ny Py Ng ltac:(lia)) as L.
  apply leb_FZ in U; [|assumption|assumption].
  apply leb_FZ in L; [|assumption|assumption].
  split; [exact N | lia].
Qed.

(** Two non-negative numbers of the same magnitude that are not zero are
    the same number. *)
Lemma FZ_inj (x y : float) :
  fnonneg x -> fnonneg y -> 0 < FZ x -> FZ x = FZ y -> x = y.
Proof.
  intros Nx Ny P E. apply Prim2SF_inj.
  pose proof (Prim2SF_valid x) as Vx. pose proof (Prim2SF_valid y) as Vy.
  unfold fnonneg, FZ in *.
  destruct (Prim2SF x) as [sx| | |sx mx ex]; try contradiction.
  { unfold SFZ in P. cbn in P. lia. }
  destruct sx; [contradiction|].
  destruct (Prim2SF y) as [sy| | |sy my ey]; try contradiction.
  { unfold SFZ at 2 in E. cbn [SFmag] in E. lia. }
  destruct sy; [contradiction|].
  assert (C : SFcompare (S754_finite false mx ex) (S754_finite false my ey)
              = Some Eq).
  { rewrite SFcompare_nonneg by (assumption || exact I).
    rewrite E, Z.compare_refl. reflexivity. }
  cbn [SFcompare] in C.
  destruct (Z.compare_spec ex ey) as [Ee|Ee|Ee]; try discriminate.
  injection C as C. apply Pos.compare_eq in C. subst. reflexivity.
Qed.

(** *** NaN *)

Lemma is_nan_Prim2SF (x : float) : is_nan x = true <-> Prim2SF x = S754_nan.
Proof.
  unfold is_nan. rewrite eqb_spec. unfold SFeqb.
  destruct (Prim2SF x) as [s| | |s m e]; cbn [SFcompare].
  - split; discriminate.
  - destruct s; split; discriminate.
  - split; reflexivity.
  - destruct s; rewrite Z.compare_refl, Pos.compare_cont_refl; split; discriminate.
Qed.

Lemma add_nan_l (x y : float) : is_nan x = true -> is_nan (x + y) = true.
Proof.
  rewrite !is_nan_Prim2SF, add_spec. intros ->. reflexivity.
Qed.

Lemma add_nan_r (x y : float) : is_nan y = true -> is_nan (x + y) = true.
Proof.
  rewrite !is_nan_Prim2SF, add_spec. intros ->.
  destruct (Prim2SF x); reflexivity.
Qed.

Lemma div_nan_l (x y : float) : is_nan x = true -> is_nan (x / y) = true.
Proof.
  rewrite !is_nan_Prim2SF, div_spec. intros ->. reflexivity.
Qed.

(** A sum with a NaN among its terms is a NaN. *)
Lemma accumulate_nan (values : list float) : forall init : float,
  is_nan init = true \/ Exists (fun v => is_nan v = true) values ->
  is_nan (accumulate init values) = true.
Proof.
  induction values as [|v values IH]; intros init H; cbn [accumulate fold_left].
  - destruct H as [H|H]; [exact H | inversion H].
  - apply IH. destruct H as [H|H].
    + left. apply add_nan_l. exact H.
    + inversion H as [? ? Hv|? ? Hr]; subst.
      * left. apply add_nan_r. exact Hv.
      * right. exact Hr.
Qed.

(** *** Positive numbers and infinity *)

Lemma positive_finite_intro (x : float) :
  (0 <? x)%float = true -> (x <? infinity)%float = true -> positive_finite x.
Proof.
  rewrite !ltb_spec. unfold positive_finite, fnonneg, FZ.
  pose proof (Prim2SF_valid x) as V.
  change (Prim2SF 0) with (S754_zero false).
  change (Prim2SF infinity) with (S754_infinity false).
  destruct (Prim2SF x) as [s| | |s m e]; try discriminate.
  - destruct s; discriminate.
  - destruct s; [discriminate|]. intros _ _. split; [exact I|].
    destruct (valid_finite _ _ _ V) as (He & _ & _).
    rewrite SFZ_finite. pose proof (pow2_pos (e + 1074) ltac:(lia)). nia.
Qed.

Lemma Prim2SF_infinity (x : float) :
  Prim2SF x = S754_infinity false -> x = infinity.
Proof. intros H. apply Prim2SF_inj. exact H. Qed.

Lemma not_negative_SF (x : float) :
  nonneg_finite (Prim2SF x) \/ Prim2SF x = S754_infinity false -> not_negative x.
Proof.
  intros [H|H]; [left; exact H | right; apply Prim2SF_infinity; exact H].
Qed.

Lemma not_negative_add (x y : float) :
  not_negative x -> not_negative y -> not_negative (x + y).
Proof.
  intros Hx Hy. apply not_negative_SF. rewrite add_spec.
  destruct Hx as [Nx| ->]; destruct Hy as [Ny| ->].
  - apply (SFadd_bounds _ _ (Prim2SF_valid x) (Prim2SF_valid y) Nx Ny).
  - right. change (Prim2SF infinity) with (S754_infinity false).
    unfold fnonneg in Nx. destruct (Prim2SF x) as [s| | |[] m e];
      try contradiction; reflexivity.
  - right. change (Prim2SF infinity) with (S754_infinity false).
    unfold fnonneg in Ny. destruct (Prim2SF y) as [s| | |[] m e];
      try contradiction; reflexivity.
  - right. reflexivity.
Qed.

Lemma not_negative_mul (x y : float) :
  not_negative x -> positive_finite y -> not_negative (x * y).
Proof.
  intros Hx [Ny Py]. apply not_negative_SF. rewrite mul_spec.
  destruct Hx as [Nx| ->].
  - apply (SFmul_bounds _ _ (Prim2SF_valid x) (Prim2SF_valid y) Nx Ny).
  - right. change (Prim2SF infinity) with (S754_infinity false).
    unfold fnonneg, FZ in *. destruct (Prim2SF y) as [s| | |[] m e];
      try contradiction; [|reflexivity].
    unfold SFZ in Py. cbn in Py. lia.
Qed.

Lemma not_negative_div (x y : float) :
  not_negative x -> positive_finite y -> not_negative (x / y).
Proof.
  intros Hx [Ny Py]. apply not_negative_SF. rewrite div_spec.
  destruct Hx as [Nx| ->].
  - apply (SFdiv_upper _ _ (Prim2SF_valid x) (Prim2SF_valid y) Nx Ny Py).
  - right. change (Prim2SF infinity) with (S754_infinity false).
    unfold fnonneg, FZ in *. destruct (Prim2SF y) as [s| | |[] m e];
      try contradiction; [|reflexivity].
    unfold SFZ in Py. cbn in Py. lia.
Qed.

(** Such a number is not below zero, and it is a number. *)
Lemma not_negative_leb (x : float) :
  not_negative x -> (0 <=? x)%float = true /\ is_nan x = false.
Proof.
  intros H.
  assert (L : (0 <=? x)%float = true).
  { rewrite leb_spec. change (Prim2SF 0) with (S754_zero false).
    destruct H as [N| ->]; [|reflexivity].
    unfold fnonneg in N. destruct (Prim2SF x) as [s| | |[] m e];
      try contradiction; reflexivity. }
  split; [exact L|].
  destruct (is_nan x) eqn:E; [|reflexivity].
  apply is_nan_Prim2SF in E. rewrite leb_spec, E in L. discriminate L.
Qed.

Lemma not_negative_accumulate (values : list float) : forall init : float,
  not_negative init -> Forall not_negative values ->
  not_negative (accumulate init values).
Proof.
  induction values as [|v values IH]; intros init Hi Hv; [exact Hi|].
  inversion Hv as [|? ? H1 H2]; subst. cbn [accumulate fold_left].
  apply IH; [|exact H2]. apply not_negative_add; assumption.
Qed.

(** The conversion of a count to [double]. *)
Lemma Z2double_not_negative (z : Z) : 0 <= z -> not_negative (Z2double z).
Proof.
  intros Hz. apply not_negative_SF. unfold Z2double.
  destruct z as [|p|p]; [| |lia]; cbn [binary_normalize].
  - rewrite Prim2SF_SF2Prim by reflexivity. left. exact I.
  - destruct (binary_round_bounds p 0) as (V & N & _).
    rewrite Prim2SF_SF2Prim by exact V. exact N.
Qed.

Lemma Z2double_positive (z : Z) :
  0 < z <= UINT32_MAX -> positive_finite (Z2double z).
Proof.
  intros H.
  destruct (Z2double_spec z (uint32_below_pow2_53 z ltac:(lia))) as [N V].
  split; [exact N|]. rewrite V. pose proof pow2_1074_pos. nia.
Qed.

(** *** The start times again *)

Lemma FZ_ten : FZ 10 = 20 * pow2 1073.
Proof. vm_compute. reflexivity. Qed.

Lemma FZ_milli : 1000 * pow2 1053 <= FZ 0.001.
Proof. apply Z.leb_le. vm_compute. reflexivity. Qed.

(** The start time is a finite number, not below [2.0 + i * 0.5], when
    the computation time is between 0 and [1e9] ms; it is above once the
    computation time is a microsecond or more. *)
Lemma start_time_bounds (g : LweMetrics) (i : Z) :
  (0 <=? avg_computation_time_ms g)%float = true ->
  (avg_computation_time_ms g <=? 1e9)%float = true ->
  0 <= i <= UINT32_MAX ->
  fnonneg (logged_start i) /\ FZ (logged_start i) = (4 + i) * pow2 1073 /\
  fnonneg (start_time g i) /\ FZ (logged_start i) <= FZ (start_time g i) /\
  ((0.001 <=? avg_computation_time_ms g)%float = true ->
   FZ (logged_start i) < FZ (start_time g i)).
Proof.
  intros H0 H9 Hi. unfold start_time, logged_start.
  set (comp := avg_computation_time_ms g) in *.
  assert (Ncomp : fnonneg comp) by (apply (fnonneg_between comp 1e9 H0 H9); exact I).
  apply leb_FZ in H9; [|exact Ncomp|exact I]. rewrite FZ_1e9 in H9.
  pose proof pow2_1074_pos as P.
  destruct (div_upper comp 1000 1048576 Ncomp I) as [Lc Nc].
  { rewrite FZ_thousand. nia. }
  { exact I. }
  { rewrite FZ_2p20, FZ_thousand. nia. }
  apply leb_FZ in Lc; [|exact Nc|exact I]. rewrite FZ_2p20 in Lc.
  assert (Lo : (0.001 <=? comp)%float = true ->
               pow2 1053 <= FZ (comp / 1000)%float).
  { intros Hm. apply leb_FZ in Hm; [|exact I|exact Ncomp].
    pose proof FZ_milli as Fm.
    destruct (dyadic_spec 1 (-21)) as [Ng Vg].
    { split; [lia | reflexivity]. }
    { lia. }
    { change (-21 + 1074) with 1053. rewrite Z.mul_1_l. apply pow2_lt. lia. }
    change (-21 + 1074) with 1053 in Vg. rewrite Z.mul_1_l in Vg.
    assert (L : (dyadic 1 (-21) <=? comp / 1000)%float = true).
    { apply div_lower; [exact Ncomp | exact I | | exact Ng | ].
      - rewrite FZ_thousand. nia.
      - rewrite Vg, FZ_thousand.
        replace (pow2 1053 * (1000 * pow2 1074))
          with (1000 * pow2 1053 * pow2 1074) by ring.
        apply Z.mul_le_mono_nonneg_r; lia. }
    apply leb_FZ in L; [|assumption|assumption]. rewrite Vg in L. exact L. }
  set (c := (comp / 1000)%float) in *.
  destruct (stagger_exact i Hi) as [Ni Vi].
  set (bi := (2.0 + Z2double i * 0.5)%float) in *.
  pose proof (pow2_pos 1053 ltac:(lia)) as PU.
  pose proof (FZ_nonneg c) as C0.
  split; [exact Ni | split; [exact Vi|]].
  rewrite pow2_1073_eq in Vi. rewrite pow2_1074_eq in Lc.
  set (U := pow2 1053) in *. set (C := FZ c) in *.
  assert (Hlo : U * (C / U) <= C) by (apply Z.mul_div_le; lia).
  assert (Hhi : C < U * Z.succ (C / U)) by (apply Z.mul_succ_div_gt; lia).
  assert (Hq : 0 <= C / U <= 2199023255552).
  { split; [apply Z.div_pos; lia|]. apply Z.div_le_upper_bound; lia. }
  set (cU := C / U) in *. unfold UINT32_MAX in Hi.
  assert (B53 : pow2 53 * U <= pow2 2098)
    by (subst U; rewrite <- pow2_add by lia; apply pow2_le; lia).
  change (pow2 53) with 9007199254740992 in B53.
  assert (Rep : forall k, 0 <= k < 9007199254740992 ->
                fnonneg (dyadic k (-21)) /\ FZ (dyadic k (-21)) = k * U).
  { intros k Hk. apply dyadic_spec.
    - change (pow2 53) with 9007199254740992. exact Hk.
    - lia.
    - change (-21 + 1074) with 1053. fold U.
      apply Z.lt_le_trans with (9007199254740992 * U); [|exact B53].
      apply Z.mul_lt_mono_pos_r; lia. }
  destruct (Rep ((4 + i) * 1048576 + cU + 1) ltac:(lia)) as [N1 V1].
  destruct (add_bounds bi c _ Ni Nc N1) as [[_ Ns] _].
  { fold C. rewrite Vi, V1. lia. }
  split; [exact Ns|].
  destruct (add_bounds bi c bi Ni Nc Ni) as [_ Lb].
  specialize (Lb ltac:(fold C; lia)).
  apply leb_FZ in Lb; [|assumption|assumption].
  split; [exact Lb|].
  intros Hm. specialize (Lo Hm).
  destruct (Rep ((4 + i) * 1048576 + 1) ltac:(lia)) as [N2 V2].
  destruct (add_bounds bi c _ Ni Nc N2) as [_ L2].
  specialize (L2 ltac:(fold C; rewrite Vi, V2; lia)).
  apply leb_FZ in L2; [|assumption|assumption].
  rewrite V2 in L2. rewrite Vi. lia.
Qed.

(** *** The delivery ratio again *)

Lemma FZ_dyadic_32 (k : Z) :
  0 <= k < pow2 53 -> k * pow2 1042 < pow2 2098 ->
  fnonneg (dyadic k (-32)) /\ FZ (dyadic k (-32)) = k * pow2 1042.
Proof.
  intros Hk Hb. apply dyadic_spec; [exact Hk | lia | exact Hb].
Qed.

Lemma pow2_1074_split : pow2 1074 = 4294967296 * pow2 1042.
Proof. change 1074 with (32 + 1042). rewrite pow2_add by lia. reflexivity. Qed.

(** All packets delivered: the ratio is 100 exactly. *)
Lemma ratio_full (tx : Z) :
  0 < tx <= UINT32_MAX -> (Z2double tx / Z2double tx * 100)%float = 100%float.
Proof.
  intros H.
  destruct (Z2double_spec tx (uint32_below_pow2_53 tx ltac:(lia))) as [N V].
  pose proof pow2_1074_pos as P.
  assert (Pt : 0 < FZ (Z2double tx)) by (rewrite V; nia).
  destruct (div_exact (Z2double tx) (Z2double tx) 1 N N Pt I) as [Nq Vq].
  { rewrite FZ_one. ring. }
  assert (E : (Z2double tx / Z2double tx)%float = 1%float).
  { apply FZ_inj; [assumption | exact I | rewrite Vq, FZ_one; exact P | exact Vq]. }
  rewrite E. vm_compute. reflexivity.
Qed.

(** A packet lost: the ratio is below 100.  A packet delivered: it is
    above 0. *)
Lemma ratio_partial (rx tx : Z) :
  0 <= rx <= tx -> 0 < tx <= UINT32_MAX ->
  fnonneg (Z2double rx / Z2double tx * 100)%float /\
  (rx < tx -> FZ (Z2double rx / Z2double tx * 100)%float < FZ 100) /\
  (0 < rx -> 0 < FZ (Z2double rx / Z2double tx * 100)%float).
Proof.
  intros Hrx Htx.
  destruct (Z2double_spec rx (uint32_below_pow2_53 rx ltac:(lia))) as [NR VR].
  destruct (Z2double_spec tx (uint32_below_pow2_53 tx ltac:(lia))) as [NT VT].
  pose proof pow2_1074_pos as P.
  pose proof (pow2_pos 1042 ltac:(lia)) as PU.
  assert (Pt : 0 < FZ (Z2double tx)) by (rewrite VT; nia).
  assert (N100 : fnonneg 100) by exact I.
  destruct (div_upper (Z2double rx) (Z2double tx) 1 NR NT Pt I) as [Q NQ].
  { rewrite VR, VT, FZ_one. nia. }
  apply leb_FZ in Q; [|assumption|exact I]. rewrite FZ_one in Q.
  set (q := (Z2double rx / Z2double tx)%float) in *.
  destruct (mul_bounds q 100 100 NQ N100 N100) as [[_ NP] _].
  { rewrite FZ_hundred. nia. }
  split; [exact NP|].
  assert (B : forall k, 0 <= k <= 429496729600 ->
              fnonneg (dyadic k (-32)) /\ FZ (dyadic k (-32)) = k * pow2 1042).
  { intros k Hk. apply FZ_dyadic_32.
    - split; [lia|]. apply Z.le_lt_trans with 429496729600; [lia | reflexivity].
    - apply Z.le_lt_trans with (429496729600 * pow2 1042).
      + apply Z.mul_le_mono_nonneg_r; lia.
      + apply Z.lt_le_trans with (pow2 53 * pow2 1042).
        * apply Z.mul_lt_mono_pos_r; [exact PU | reflexivity].
        * rewrite <- pow2_add by lia. apply pow2_le. lia. }
  unfold UINT32_MAX in Htx.
  split.
  - intros Lt.
    destruct (B 4294967295 ltac:(lia)) as [Ng Vg].
    destruct (div_upper (Z2double rx) (Z2double tx) _ NR NT Pt Ng) as [Q' _].
    { rewrite VR, VT, Vg, pow2_1074_split.
      set (U := pow2 1042) in *.
      replace (rx * (4294967296 * U) * (4294967296 * U))
        with (rx * 4294967296 * (4294967296 * U * U)) by ring.
      replace (4294967295 * U * (tx * (4294967296 * U)))
        with (4294967295 * tx * (4294967296 * U * U)) by ring.
      apply Z.mul_le_mono_nonneg_r; [nia | lia]. }
    fold q in Q'. apply leb_FZ in Q'; [|assumption|assumption]. rewrite Vg in Q'.
    destruct (B 429496729500 ltac:(lia)) as [Nh Vh].
    destruct (mul_bounds q 100 _ NQ N100 Nh) as [[L _] _].
    { rewrite FZ_hundred, Vh.
      apply Z.le_trans with (4294967295 * pow2 1042 * (100 * pow2 1074)).
      - apply Z.mul_le_mono_nonneg_r; [lia | exact Q'].
      - apply Z.eq_le_incl. ring. }
    apply leb_FZ in L; [|assumption|assumption]. rewrite Vh in L.
    rewrite FZ_hundred, pow2_1074_split. lia.
  - intros Pos.
    destruct (B 1 ltac:(lia)) as [Ng Vg].
    assert (L : (dyadic 1 (-32) <=? q)%float = true).
    { apply div_lower; try assumption.
      rewrite VR, VT, Vg, pow2_1074_split.
      set (U := pow2 1042) in *.
      replace (1 * U * (tx * (4294967296 * U)))
        with (tx * (4294967296 * U * U)) by ring.
      replace (rx * (4294967296 * U) * (4294967296 * U))
        with (rx * 4294967296 * (4294967296 * U * U)) by ring.
      apply Z.mul_le_mono_nonneg_r; [nia | lia]. }
    apply leb_FZ in L; [|assumption|assumption]. rewrite Vg in L.
    destruct (B 100 ltac:(lia)) as [Nh Vh].
    destruct (mul_bounds q 100 _ NQ N100 Nh) as [_ L'].
    specialize (L' ltac:(rewrite FZ_hundred, Vh;
                         replace (100 * pow2 1042 * pow2 1074)
                           with (1 * pow2 1042 * (100 * pow2 1074)) by ring;
                         apply Z.mul_le_mono_nonneg_r; lia)).
    apply leb_FZ in L'; [|assumption|assumption]. rewrite Vh in L'. lia.
Qed.

Lemma fnonneg_intro (x : float) :
  (0 <=? x)%float = true -> (x <? infinity)%float = true -> fnonneg x.
Proof.
  rewrite leb_spec, ltb_spec. unfold fnonneg.
  change (Prim2SF 0) with (S754_zero false).
  change (Prim2SF infinity) with (S754_infinity false).
  destruct (Prim2SF x) as [s| | |s m e]; try discriminate.
  - intros _ _. exact I.
  - destruct s; discriminate.
  - destruct s; [discriminate|]. intros _ _. exact I.
Qed.

Lemma positive_finite_8 : positive_finite 8.
Proof. split; [exact I | reflexivity]. Qed.

Lemma positive_finite_1000 : positive_finite 1000.
Proof. split; [exact I | reflexivity]. Qed.

Ltac Zify.zify_post_hook ::= idtac.

(* ================================================================== *)
(** * Properties of the program *)

Open Scope string_scope.

(** ** Reading lines *)

Lemma getlines_unfold (delim : ascii) (input : string) :
  getlines delim input =
  match getline delim input with
  | None => []
  | Some (item, rest) => item :: getlines delim rest
  end.
Proof.
  induction input as [|c rest IH]; [reflexivity|].
  cbn [getlines getline take_until].
  destruct (Ascii.eqb c delim); [reflexivity|].
  rewrite IH. destruct rest as [|c' rest']; [reflexivity|].
  cbn [getline]. destruct (take_until delim (String c' rest')); reflexivity.
Qed.

Lemma take_until_length (delim : ascii) (input : string) :
  (String.length (snd (take_until delim input)) <= String.length input)%nat.
Proof.
  induction input as [|c input IH]; cbn [take_until]; [cbn; lia|].
  destruct (Ascii.eqb c delim); [cbn; lia|].
  destruct (take_until delim input); cbn in *; lia.
Qed.

(** Each successful [getline] takes at least one character off the
    stream, so both loops of the loader end. *)
Lemma getline_shorter (delim : ascii) (input item rest : string) :
  getline delim input = Some (item, rest) ->
  (String.length rest < String.length input)%nat.
Proof.
  destruct input as [|c input]; [discriminate|].
  cbn [getline take_until]. destruct (Ascii.eqb c delim).
  - intros H. injection H as <- <-. cbn. lia.
  - pose proof (take_until_length delim input) as L.
    destruct (take_until delim input) as [i r]. intros H. injection H as <- <-.
    cbn in *. lia.
Qed.

(** ** The loader *)

Section Loader.

Variable stod : string -> result float.

Lemma add_row_skip (acc : sums) (line : string) :
  valid_line line = false -> add_row stod acc line = Ok acc.
Proof. unfold valid_line, add_row. intros ->. reflexivity. Qed.

Lemma add_row_numeric (acc : sums) (line : string) :
  valid_line line = true -> numeric stod (split_row line) ->
  (count acc < INT_MAX)%Z ->
  add_row stod acc line =
  Ok {| total_time := total_time acc + field stod 1 (split_row line);
        total_memory := total_memory acc + field stod 2 (split_row line);
        total_energy := total_energy acc + field stod 5 (split_row line);
        count := count acc + 1 |}.
Proof.
  unfold valid_line, add_row, field. intros -> (t & m & e & Ht & Hm & He) Hc.
  rewrite Ht, Hm, He. cbn [bind].
  destruct (Z.ltb_spec (count acc) INT_MAX); [reflexivity | lia].
Qed.

(** The loop over the data lines: the rows with fewer than six items
    leave the sums alone, the others add their three numbers. *)
Lemma add_rows_valid (lines : list string) : forall acc : sums,
  Forall (numeric stod) (map split_row (filter valid_line lines)) ->
  (count acc + Z.of_nat (List.length (filter valid_line lines)) <= INT_MAX)%Z ->
  add_rows stod acc lines =
  Ok {| total_time :=
          accumulate (total_time acc)
            (map (field stod 1) (map split_row (filter valid_line lines)));
        total_memory :=
          accumulate (total_memory acc)
            (map (field stod 2) (map split_row (filter valid_line lines)));
        total_energy :=
          accumulate (total_energy acc)
            (map (field stod 5) (map split_row (filter valid_line lines)));
        count := count acc + Z.of_nat (List.length (filter valid_line lines)) |}.
Proof.
  induction lines as [|line lines IH]; intros acc Hnum Hcount.
  - cbn. rewrite Z.add_0_r. destruct acc; reflexivity.
  - cbn [add_rows filter] in *. destruct (valid_line line) eqn:V.
    + cbn [map List.length] in *. inversion Hnum as [|? ? Hrow Hrest]; subst.
      rewrite add_row_numeric by (assumption || lia). cbn [bind].
      rewrite IH by (cbn [count]; assumption || lia).
      cbn [total_time total_memory total_energy count accumulate fold_left].
      unfold accumulate. f_equal. f_equal. lia.
    + rewrite add_row_skip by assumption. cbn [bind]. apply IH; assumption.
Qed.

(** Dropping the rows with fewer than six items changes nothing. *)
Lemma add_rows_filter (lines : list string) : forall acc : sums,
  add_rows stod acc lines = add_rows stod acc (filter valid_line lines).
Proof.
  induction lines as [|line lines IH]; intros acc; [reflexivity|].
  cbn [add_rows filter]. destruct (valid_line line) eqn:V.
  - cbn [add_rows]. destruct (add_row stod acc line); cbn [bind]; auto.
  - rewrite add_row_skip by assumption. cbn [bind]. apply IH.
Qed.

(** A row of six items or more whose number cannot be read ends the loop:
    whatever was summed before, the loop does not return. *)
Lemma add_row_not_numeric (acc : sums) (line : string) :
  valid_line line = true -> ~ numeric stod (split_row line) ->
  forall s, add_row stod acc line <> Ok s.
Proof.
  unfold valid_line, add_row, numeric. intros -> Hnot s.
  destruct (stod (nth 1 _ _)) as [t| |] eqn:Ht; cbn [bind]; try discriminate.
  destruct (stod (nth 2 _ _)) as [m| |] eqn:Hm; cbn [bind]; try discriminate.
  destruct (stod (nth 5 _ _)) as [e| |] eqn:He; cbn [bind]; try discriminate.
  exfalso. apply Hnot. exists t, m, e. auto.
Qed.

Lemma add_rows_not_numeric (lines : list string) (line : string) :
  In line lines -> valid_line line = true -> ~ numeric stod (split_row line) ->
  forall acc s, add_rows stod acc lines <> Ok s.
Proof.
  induction lines as [|l lines IH]; intros Hin V Hnot acc s; [destruct Hin|].
  cbn [add_rows]. destruct Hin as [->|Hin].
  - destruct (add_row stod acc line) as [acc'| |] eqn:E; cbn [bind]; try discriminate.
    exfalso. exact (add_row_not_numeric acc line V Hnot acc' E).
  - destruct (add_row stod acc l) as [acc'| |]; cbn [bind]; try discriminate.
    apply IH; assumption.
Qed.

End Loader.

Section LoaderResults.

Variable stod : string -> result float.

Lemma length_valid_rows (contents : string) :
  List.length (valid_rows contents)
  = List.length (filter valid_line (data_lines contents)).
Proof. unfold valid_rows. apply length_map. Qed.

(** What the loader returns when every row of six items or more is
    numeric (and [count] stays an [int]). *)
Lemma load_numeric (contents : string) (g : LweMetrics) :
  Forall (numeric stod) (valid_rows contents) ->
  (Z.of_nat (List.length (valid_rows contents)) <= INT_MAX)%Z ->
  LoadMetricsFromCSV stod (Some contents) g =
  Ok (if (0 <? Z.of_nat (List.length (valid_rows contents)))%Z
      then store_averages g (sums_of stod contents) else g).
Proof.
  intros Hnum Hlen. unfold LoadMetricsFromCSV.
  fold (data_lines contents).
  rewrite length_valid_rows in Hlen.
  rewrite (add_rows_valid stod (data_lines contents) zero_sums Hnum)
    by (cbn [count zero_sums]; lia).
  cbn [bind count zero_sums total_time total_memory total_energy].
  rewrite Z.add_0_l, <- length_valid_rows.
  destruct (0 <? _)%Z; reflexivity.
Qed.

Lemma load_filter (contents : string) (g : LweMetrics) :
  LoadMetricsFromCSV stod (Some contents) g =
  (s <- add_rows stod zero_sums (filter valid_line (data_lines contents)) ;;
   if (0 <? count s)%Z then Ok (store_averages g s) else Ok g).
Proof.
  unfold LoadMetricsFromCSV. fold (data_lines contents).
  rewrite add_rows_filter. reflexivity.
Qed.

Lemma load_not_numeric (contents line : string) (g : LweMetrics) :
  In line (data_lines contents) -> valid_line line = true ->
  ~ numeric stod (split_row line) ->
  forall g', LoadMetricsFromCSV stod (Some contents) g <> Ok g'.
Proof.
  intros Hin V Hnot g'. unfold LoadMetricsFromCSV. fold (data_lines contents).
  pose proof (add_rows_not_numeric stod _ _ Hin V Hnot zero_sums) as H.
  destruct (add_rows stod zero_sums (data_lines contents)) as [s| |];
    cbn [bind]; try discriminate.
  exfalso. exact (H s eq_refl).
Qed.

End LoaderResults.

Lemma valid_rows_P2 :
  valid_rows P2_csv =
  [ ["1"; "1.0"; "10.0"; "256"; "16640"; "2.0"];
    ["2"; "3.0"; "20.0"; "256"; "16640"; "4.0"] ].
Proof. vm_compute. reflexivity. Defined.

Lemma valid_rows_P3 :
  valid_rows P3_csv = [ ["1"; "1.0"; "10.0"; "256"; "16640"; "2.0"] ].
Proof. vm_compute. reflexivity. Defined.

(** C1, as the code has it.  For a CSV file that can be opened and has at
    least one row of six comma-separated items or more after the header,
    when [std::stod] converts fields 1, 2 and 5 of every such row (and
    their number fits the [int] that counts them), the loader stores
    [sum / count] in the three averaged fields, the sums running over
    fields 1, 2 and 5 of those rows and [count] being their number.  For
    the two-row file of P2 the profile is 2.0, 15.0, 3.0. *)
Theorem load_averages :
  (forall (stod : string -> result float) (contents : string) (g : LweMetrics),
      valid_rows contents <> [] ->
      Forall (numeric stod) (valid_rows contents) ->
      (Z.of_nat (List.length (valid_rows contents)) <= INT_MAX)%Z ->
      LoadMetricsFromCSV stod (Some contents) g =
      Ok {| avg_computation_time_ms :=
              fsum (map (field stod 1) (valid_rows contents))
              / Z2double (Z.of_nat (List.length (valid_rows contents)));
            avg_memory_kb :=
              fsum (map (field stod 2) (valid_rows contents))
              / Z2double (Z.of_nat (List.length (valid_rows contents)));
            avg_energy_mj :=
              fsum (map (field stod 5) (valid_rows contents))
              / Z2double (Z.of_nat (List.length (valid_rows contents)));
            key_size_bytes := key_size_bytes g;
            public_data_bytes := public_data_bytes g |})
  /\
  (forall stod : string -> result float,
      stod "1.0" = Ok 1.0%float -> stod "3.0" = Ok 3.0%float ->
      stod "10.0" = Ok 10.0%float -> stod "20.0" = Ok 20.0%float ->
      stod "2.0" = Ok 2.0%float -> stod "4.0" = Ok 4.0%float ->
      LoadMetricsFromCSV stod (Some P2_csv) default_metrics =
      Ok {| avg_computation_time_ms := 2.0;
            avg_memory_kb := 15.0;
            avg_energy_mj := 3.0;
            key_size_bytes := 256;
            public_data_bytes := 16640 |}).
Proof.
  split.
  - intros stod contents g Hne Hnum Hlen.
    rewrite load_numeric by assumption.
    destruct (valid_rows contents) as [|row rows] eqn:E; [contradiction|].
    replace (0 <? Z.of_nat (List.length (row :: rows)))%Z with true
      by (symmetry; apply Z.ltb_lt; cbn [List.length]; lia).
    unfold store_averages, sums_of. rewrite E. reflexivity.
  - intros stod H1 H3 H10 H20 H2 H4.
    rewrite load_numeric; rewrite ?valid_rows_P2.
    + unfold store_averages, sums_of, fsum, accumulate, field.
      rewrite valid_rows_P2. cbn [map nth fold_left List.length].
      rewrite H1, H3, H10, H20, H2, H4. vm_compute. reflexivity.
    + constructor; [|constructor; [|constructor]]; cbn [nth].
      * exists 1%float, 10%float, 2%float. auto.
      * exists 3%float, 20%float, 4%float. auto.
    + vm_compute. discriminate.
Qed.

(** With the model of [std::stod], on the file of P2. *)
Lemma load_averages_witness :
  LoadMetricsFromCSV stod_decimal (Some P2_csv) default_metrics =
  Ok {| avg_computation_time_ms :=
          fsum (map (field stod_decimal 1) (valid_rows P2_csv)) / Z2double 2;
        avg_memory_kb :=
          fsum (map (field stod_decimal 2) (valid_rows P2_csv)) / Z2double 2;
        avg_energy_mj :=
          fsum (map (field stod_decimal 5) (valid_rows P2_csv)) / Z2double 2;
        key_size_bytes := 256;
        public_data_bytes := 16640 |} /\
  LoadMetricsFromCSV stod_decimal (Some P2_csv) default_metrics =
  Ok {| avg_computation_time_ms := 2.0;
        avg_memory_kb := 15.0;
        avg_energy_mj := 3.0;
        key_size_bytes := 256;
        public_data_bytes := 16640 |}.
Proof.
  split.
  - apply (proj1 load_averages stod_decimal P2_csv default_metrics).
    + rewrite valid_rows_P2. discriminate.
    + rewrite valid_rows_P2. constructor; [|constructor; [|constructor]].
      * exists 1%float, 10%float, 2%float. repeat split; vm_compute; reflexivity.
      * exists 3%float, 20%float, 4%float. repeat split; vm_compute; reflexivity.
    + rewrite valid_rows_P2. vm_compute. discriminate.
  - apply (proj2 load_averages stod_decimal); vm_compute; reflexivity.
Defined.

(** C1 fails as stated: a file whose only data row has six items, all of
    them numbers, the second being [1e999]; the row is valid, but
    [std::stod] throws [out_of_range] and the loader sets no field. *)
Lemma load_throws_out_of_range :
  valid_rows overflow_csv = [ ["1"; "1e999"; "10.0"; "256"; "16640"; "2.0"] ] /\
  stod_decimal "1e999" = Throw out_of_range /\
  LoadMetricsFromCSV stod_decimal (Some overflow_csv) default_metrics
  = Throw out_of_range /\
  ~ (exists g,
        LoadMetricsFromCSV stod_decimal (Some overflow_csv) default_metrics
        = Ok g).
Proof.
  assert (E : LoadMetricsFromCSV stod_decimal (Some overflow_csv) default_metrics
              = Throw out_of_range) by (vm_compute; reflexivity).
  split; [vm_compute; reflexivity|].
  split; [vm_compute; reflexivity | split; [exact E|]].
  intros (g & Hg). rewrite E in Hg. discriminate.
Qed.

(** C4. When the CSV file cannot be opened, and when it is opened but has
    no row of six items or more, the loader leaves the profile as it was:
    for the initial profile that is 0.5, 12.0, 0.5, 256, 16640. *)
Theorem load_keeps_defaults :
  forall (stod : string -> result float) (file : option string),
    (file = None \/
     exists contents, file = Some contents /\ valid_rows contents = []) ->
    (forall g, LoadMetricsFromCSV stod file g = Ok g) /\
    LoadMetricsFromCSV stod file default_metrics =
    Ok {| avg_computation_time_ms := 0.5;
          avg_memory_kb := 12.0;
          avg_energy_mj := 0.5;
          key_size_bytes := 256;
          public_data_bytes := 16640 |}.
Proof.
  intros stod file H.
  assert (K : forall g, LoadMetricsFromCSV stod file g = Ok g).
  { intros g. destruct H as [->|(contents & -> & Hnone)]; [reflexivity|].
    rewrite load_numeric; rewrite Hnone; [reflexivity|constructor|].
    cbn. unfold INT_MAX. lia. }
  split; [exact K|]. rewrite K. reflexivity.
Qed.

Lemma load_keeps_defaults_witness :
  LoadMetricsFromCSV stod_decimal None default_metrics = Ok default_metrics /\
  LoadMetricsFromCSV stod_decimal (Some ("header" ++ endl ++ "1,2,3" ++ endl))
    default_metrics = Ok default_metrics.
Proof.
  split.
  - apply (load_keeps_defaults stod_decimal None). left. reflexivity.
  - apply (load_keeps_defaults stod_decimal
             (Some ("header" ++ endl ++ "1,2,3" ++ endl))).
    right. eexists. split; [reflexivity|]. vm_compute. reflexivity.
Defined.

(** C5, as the code has it.  A row with fewer than six items is skipped:
    it adds nothing to the sums or to the count, the load goes on and its
    result is that of the file without such rows; when the fields 1, 2
    and 5 of the rows of six items or more are numbers the load returns
    the averages over exactly those rows.  A row of six items or more with
    a field that [std::stod] does not read is not skipped: the load does
    not return a profile. *)
Theorem short_rows_skipped :
  forall (stod : string -> result float) (contents : string) (g : LweMetrics),
    (forall acc line, valid_line line = false -> add_row stod acc line = Ok acc) /\
    LoadMetricsFromCSV stod (Some contents) g =
      (s <- add_rows stod zero_sums (filter valid_line (data_lines contents)) ;;
       if (0 <? count s)%Z then Ok (store_averages g s) else Ok g) /\
    (Forall (numeric stod) (valid_rows contents) ->
     (Z.of_nat (List.length (valid_rows contents)) <= INT_MAX)%Z ->
     LoadMetricsFromCSV stod (Some contents) g =
     Ok (if (0 <? Z.of_nat (List.length (valid_rows contents)))%Z
         then store_averages g (sums_of stod contents) else g)) /\
    (forall line,
        In line (data_lines contents) -> valid_line line = true ->
        ~ numeric stod (split_row line) ->
        forall g', LoadMetricsFromCSV stod (Some contents) g <> Ok g').
Proof.
  intros stod contents g. split; [|split; [|split]].
  - intros acc line. apply add_row_skip.
  - apply load_filter.
  - apply load_numeric.
  - intros line. apply load_not_numeric.
Qed.

(** P3 with the model of [std::stod]: the row of three items is left out,
    the profile is that of the one good row. *)
Lemma short_rows_skipped_witness :
  LoadMetricsFromCSV stod_decimal (Some P3_csv) default_metrics =
  Ok {| avg_computation_time_ms := 1.0;
        avg_memory_kb := 10.0;
        avg_energy_mj := 2.0;
        key_size_bytes := 256;
        public_data_bytes := 16640 |}.
Proof.
  destruct (short_rows_skipped stod_decimal P3_csv default_metrics)
    as (_ & _ & H & _).
  rewrite H.
  - vm_compute. reflexivity.
  - rewrite valid_rows_P3. constructor; [|constructor].
    exists 1%float, 10%float, 2%float. repeat split; vm_compute; reflexivity.
  - rewrite valid_rows_P3. vm_compute. discriminate.
Defined.

(** C5 fails as stated: a row of six items whose field 1 is [n/a] is not
    skipped; [std::stod] throws and the load returns no profile, not the
    profile of the other row. *)
Lemma non_numeric_row_not_skipped :
  stod_decimal "n/a" = Throw invalid_argument /\
  LoadMetricsFromCSV stod_decimal (Some non_numeric_csv) default_metrics
  = Throw invalid_argument /\
  ~ (exists g,
        LoadMetricsFromCSV stod_decimal (Some non_numeric_csv) default_metrics
        = Ok g).
Proof.
  assert (E : LoadMetricsFromCSV stod_decimal (Some non_numeric_csv) default_metrics
              = Throw invalid_argument) by (vm_compute; reflexivity).
  split; [vm_compute; reflexivity | split; [exact E|]].
  intros (g & Hg). rewrite E in Hg. discriminate.
Qed.

(* ================================================================== *)
(** ** The reduction of the flow statistics *)

Lemma wrap32_idem (z : Z) : wrap32 (wrap32 z) = wrap32 z.
Proof. unfold wrap32. apply Z.mod_mod. lia. Qed.

Lemma wrap32_add_l (a b : Z) : wrap32 (wrap32 a + b) = wrap32 (a + b).
Proof. unfold wrap32. apply Z.add_mod_idemp_l. lia. Qed.

Lemma wrap32_small (z : Z) : (0 <= z <= UINT32_MAX)%Z -> wrap32 z = z.
Proof. unfold wrap32, UINT32_MAX. intros H. apply Z.mod_small. lia. Qed.

Lemma Zsum_nonneg (values : list Z) :
  Forall (fun v => 0 <= v)%Z values -> (0 <= Zsum values)%Z.
Proof.
  induction 1 as [|v values Hv _ IH]; [cbn; lia|].
  change (Zsum (v :: values)) with (v + Zsum values)%Z. lia.
Qed.

Lemma sum_flows_from (simTime : float) (stats : list FlowStats) : forall t : totals,
  wrap32 (totalRxPackets t) = totalRxPackets t ->
  wrap32 (totalTxPackets t) = totalTxPackets t ->
  fold_left (add_flow simTime) stats t =
  {| totalThroughput :=
       accumulate (totalThroughput t)
         (map (flow_kbps simTime) (filter received stats));
     totalDelay :=
       accumulate (totalDelay t) (map delaySum (filter received stats));
     totalRxPackets := wrap32 (totalRxPackets t + Zsum (map rxPackets stats));
     totalTxPackets := wrap32 (totalTxPackets t + Zsum (map txPackets stats)) |}.
Proof.
  induction stats as [|f stats IH]; intros t Hrx Htx.
  - cbn. rewrite !Z.add_0_r, Hrx, Htx. destruct t; reflexivity.
  - cbn [fold_left]. rewrite IH.
    + unfold add_flow, received. cbn [filter map Zsum fold_right].
      fold (received f). unfold received.
      destruct (0 <? rxPackets f)%Z;
        cbn [totalThroughput totalDelay totalRxPackets totalTxPackets
             map accumulate fold_left];
        rewrite !wrap32_add_l, !Z.add_assoc; reflexivity.
    + unfold add_flow. destruct (0 <? rxPackets f)%Z; apply wrap32_idem.
    + unfold add_flow. destruct (0 <? rxPackets f)%Z; apply wrap32_idem.
Qed.

Lemma sum_flows_eq (simTime : float) (stats : list FlowStats) :
  sum_flows simTime stats =
  {| totalThroughput := fsum (map (flow_kbps simTime) (filter received stats));
     totalDelay := fsum (map delaySum (filter received stats));
     totalRxPackets := wrap32 (Zsum (map rxPackets stats));
     totalTxPackets := wrap32 (Zsum (map txPackets stats)) |}.
Proof.
  unfold sum_flows. rewrite sum_flows_from; reflexivity.
Qed.

(** C2, as the code has it.  The packet totals are the sums of the flows'
    counts reduced modulo [2^32], the width of the two accumulators (so
    they are the sums themselves as long as these stay below [2^32]);
    [totalDelay] and [totalThroughput] accumulate, over the flows with
    [rxPackets > 0] only, [delaySum] and
    [rxBytes * 8.0 / simTime / 1000.0]; the average delay is
    [totalDelay / totalRx * 1000.0] when [totalRx > 0] and 0 otherwise;
    the delivery ratio is [totalRx / totalTx * 100.0] when [totalTx > 0]
    and 0 otherwise. *)
Theorem aggregate_totals :
  forall (stats : list FlowStats) (simTime : float)
         (nIoTNodes sent arrived : Z) (g : LweMetrics),
    let t := sum_flows simTime stats in
    let r := aggregate stats simTime nIoTNodes sent arrived g in
    totalTxPackets t = wrap32 (Zsum (map txPackets stats)) /\
    totalRxPackets t = wrap32 (Zsum (map rxPackets stats)) /\
    (Forall flow_ok stats ->
     (Zsum (map txPackets stats) <= UINT32_MAX)%Z ->
     (Zsum (map rxPackets stats) <= UINT32_MAX)%Z ->
     totalTxPackets t = Zsum (map txPackets stats) /\
     totalRxPackets t = Zsum (map rxPackets stats)) /\
    totalDelay t = fsum (map delaySum (filter received stats)) /\
    totalThroughput t =
      fsum (map (fun f => Z2double (rxBytes f) * 8.0 / simTime / 1000.0)%float
                (filter received stats)) /\
    throughput_kbps r = totalThroughput t /\
    avg_delay_ms r =
      (if (0 <? totalRxPackets t)%Z
       then totalDelay t / Z2double (totalRxPackets t) * 1000.0
       else 0)%float /\
    pdr r =
      (if (0 <? totalTxPackets t)%Z
       then Z2double (totalRxPackets t) / Z2double (totalTxPackets t) * 100.0
       else 0)%float.
Proof.
  intros stats simTime nIoTNodes sent arrived g t r. subst t r.
  rewrite sum_flows_eq.
  cbn [totalTxPackets totalRxPackets totalDelay totalThroughput].
  repeat split; try reflexivity.
  - apply wrap32_small. split; [|assumption].
    apply Zsum_nonneg. rewrite Forall_map.
    eapply Forall_impl; [|eassumption]. unfold flow_ok. intros f Hf. lia.
  - apply wrap32_small. split; [|assumption].
    apply Zsum_nonneg. rewrite Forall_map.
    eapply Forall_impl; [|eassumption]. unfold flow_ok. intros f Hf. lia.
  - unfold aggregate. rewrite sum_flows_eq. reflexivity.
  - unfold aggregate. rewrite sum_flows_eq. reflexivity.
  - unfold aggregate. rewrite sum_flows_eq. reflexivity.
Qed.

(** Property P6 as an instance: full delivery of two packets gives 100 %,
    10 ms and the [double] nearest to 26.624 kbps. *)
Lemma aggregate_totals_witness :
  totalTxPackets (sum_flows 10 P6_flows) = 2%Z /\
  totalRxPackets (sum_flows 10 P6_flows) = 2%Z /\
  pdr (aggregate P6_flows 10 2 2 2 default_metrics) = 100%float /\
  avg_delay_ms (aggregate P6_flows 10 2 2 2 default_metrics) = 10%float /\
  throughput_kbps (aggregate P6_flows 10 2 2 2 default_metrics) = 26.624%float.
Proof.
  destruct (aggregate_totals P6_flows 10 2 2 2 default_metrics)
    as (_ & _ & H & _ & _ & _ & Hd & Hp).
  destruct H as [Htx Hrx].
  - unfold P6_flows, flow_ok, UINT32_MAX.
    constructor; [|constructor; [|constructor]]; cbn; lia.
  - vm_compute. discriminate.
  - vm_compute. discriminate.
  - split; [|split; [|split; [|split]]].
    + rewrite Htx. vm_compute. reflexivity.
    + rewrite Hrx. vm_compute. reflexivity.
    + rewrite Hp. vm_compute. reflexivity.
    + rewrite Hd. vm_compute. reflexivity.
    + vm_compute. reflexivity.
Defined.

(** C2 fails as stated: for two flows of [2^31] transmitted packets each,
    [totalTxPackets] is 0 and not their sum [2^32], and the delivery ratio
    is 0 although every packet was delivered. *)
Lemma totals_wrap_around :
  Forall flow_ok wrapping_flows /\
  Zsum (map txPackets wrapping_flows) = 4294967296%Z /\
  totalTxPackets (sum_flows 10 wrapping_flows) = 0%Z /\
  totalTxPackets (sum_flows 10 wrapping_flows)
    <> Zsum (map txPackets wrapping_flows) /\
  pdr (aggregate wrapping_flows 10 2 2 2 default_metrics) = 0%float.
Proof.
  split; [|split; [|split; [|split]]].
  - unfold wrapping_flows, flow_ok, UINT32_MAX.
    constructor; [|constructor; [|constructor]]; cbn; lia.
  - vm_compute. reflexivity.
  - vm_compute. reflexivity.
  - vm_compute. discriminate.
  - vm_compute. reflexivity.
Qed.

(** C7. The total energy is the number of packets the scheduling loop
    counted times the profile's energy per operation, whatever the flow
    statistics are: all packets lost or all delivered makes no
    difference, and neither does what the simulator reports. *)
Theorem energy_independent_of_delivery :
  forall (stats stats' : list FlowStats) (simTime : float)
         (nIoTNodes sent arrived arrived' : Z) (g : LweMetrics)
         (Simulator_Run Simulator_Run' :
            list ClientApp -> float -> list FlowStats * nat),
    total_energy_mj (aggregate stats simTime nIoTNodes sent arrived g)
    = (Z2double sent * avg_energy_mj g)%float /\
    total_energy_mj (aggregate stats simTime nIoTNodes sent arrived g)
    = total_energy_mj (aggregate stats' simTime nIoTNodes sent arrived' g) /\
    total_energy_mj (run_metrics Simulator_Run nIoTNodes simTime g)
    = (Z2double (g_totalPacketsSent
                   (install_clients g simTime nIoTNodes no_schedule))
       * avg_energy_mj g)%float /\
    total_energy_mj (run_metrics Simulator_Run nIoTNodes simTime g)
    = total_energy_mj (run_metrics Simulator_Run' nIoTNodes simTime g).
Proof.
  intros.
  assert (R : forall sim : list ClientApp -> float -> list FlowStats * nat,
             total_energy_mj (run_metrics sim nIoTNodes simTime g)
             = (Z2double (g_totalPacketsSent
                            (install_clients g simTime nIoTNodes no_schedule))
                * avg_energy_mj g)%float).
  { intros sim. unfold run_metrics.
    destruct (sim (clients (install_clients g simTime nIoTNodes no_schedule)) simTime).
    reflexivity. }
  split; [reflexivity | split; [reflexivity | split]].
  - apply R.
  - rewrite !R. reflexivity.
Qed.

Lemma Zsum_le (stats : list FlowStats) :
  Forall (fun f => rxPackets f <= txPackets f)%Z stats ->
  (Zsum (map rxPackets stats) <= Zsum (map txPackets stats))%Z.
Proof.
  induction 1 as [|f stats Hf _ IH]; [cbn; lia|].
  change (Zsum (map rxPackets (f :: stats)))
    with (rxPackets f + Zsum (map rxPackets stats))%Z.
  change (Zsum (map txPackets (f :: stats)))
    with (txPackets f + Zsum (map txPackets stats))%Z.
  lia.
Qed.

Lemma Zsum_zero (stats : list FlowStats) :
  Forall (fun f => rxPackets f = 0)%Z stats -> Zsum (map rxPackets stats) = 0%Z.
Proof.
  induction 1 as [|f stats Hf _ IH]; [reflexivity|].
  change (Zsum (map rxPackets (f :: stats)))
    with (rxPackets f + Zsum (map rxPackets stats))%Z.
  lia.
Qed.

Lemma none_received (stats : list FlowStats) :
  Forall (fun f => rxPackets f = 0)%Z stats -> filter received stats = [].
Proof.
  induction 1 as [|f stats Hf _ IH]; [reflexivity|].
  cbn [filter]. unfold received at 1. rewrite Hf. exact IH.
Qed.

Lemma wrap32_range (z : Z) : (0 <= wrap32 z <= UINT32_MAX)%Z.
Proof.
  unfold wrap32, UINT32_MAX.
  pose proof (Z.mod_pos_bound z 4294967296 ltac:(lia)). lia.
Qed.

(** C3, as the code has it.  When every flow has [rxPackets <= txPackets]
    and the transmitted packets of all flows together fit the 32-bit
    accumulator, the delivery ratio lies in [0, 100] (and is not a NaN).
    When no flow received a packet, the delivery ratio, the average delay
    and the throughput are exactly 0.  A division by a packet total is
    evaluated only when that total is positive, and then its divisor is
    not zero. *)
Theorem pdr_in_range :
  forall (stats : list FlowStats) (simTime : float)
         (nIoTNodes sent arrived : Z) (g : LweMetrics),
    let r := aggregate stats simTime nIoTNodes sent arrived g in
    let t := sum_flows simTime stats in
    (Forall flow_ok stats ->
     Forall (fun f => rxPackets f <= txPackets f)%Z stats ->
     (Zsum (map txPackets stats) <= UINT32_MAX)%Z ->
     (0 <=? pdr r)%float = true /\ (pdr r <=? 100)%float = true /\
     is_nan (pdr r) = false) /\
    (Forall (fun f => rxPackets f = 0)%Z stats ->
     pdr r = 0%float /\ avg_delay_ms r = 0%float /\ throughput_kbps r = 0%float) /\
    ((0 < totalTxPackets t)%Z ->
     (Z2double (totalTxPackets t) =? 0)%float = false) /\
    ((0 < totalRxPackets t)%Z ->
     (Z2double (totalRxPackets t) =? 0)%float = false).
Proof.
  intros stats simTime nIoTNodes sent arrived g r t. subst r t.
  unfold aggregate. cbn [pdr avg_delay_ms throughput_kbps].
  rewrite sum_flows_eq. unfold pdr_of, avgDelay_of.
  cbn [totalTxPackets totalRxPackets totalDelay totalThroughput].
  split; [|split; [|split]].
  - intros Hok Hle Htx.
    assert (Hrx0 : (0 <= Zsum (map rxPackets stats))%Z).
    { apply Zsum_nonneg. rewrite Forall_map.
      eapply Forall_impl; [|exact Hok]. unfold flow_ok. intros f Hf. lia. }
    pose proof (Zsum_le stats Hle) as Hrt.
    rewrite !wrap32_small by lia.
    assert (B : forall p : float,
               (0 <=? p)%float = true /\ (p <=? 100)%float = true ->
               (0 <=? p)%float = true /\ (p <=? 100)%float = true /\
               is_nan p = false).
    { intros p [L U]. split; [exact L|]. split; [exact U|].
      exact (leb_not_nan p 100 U). }
    apply B.
    destruct (Z.ltb_spec 0 (Zsum (map txPackets stats))) as [Pos|Zero].
    + apply ratio_bounds; lia.
    + split; reflexivity.
  - intros Hnone. rewrite (Zsum_zero stats Hnone), (none_received stats Hnone).
    change (wrap32 0) with 0%Z. cbn [Z.ltb Z.compare map].
    split; [|split; reflexivity].
    pose proof (wrap32_range (Zsum (map txPackets stats))) as R.
    destruct (Z.ltb_spec 0 (wrap32 (Zsum (map txPackets stats)))) as [Pos|Zero];
      [|reflexivity].
    apply zero_ratio. lia.
  - intros Pos. apply Z2double_nonzero.
    pose proof (wrap32_range (Zsum (map txPackets stats))). lia.
  - intros Pos. apply Z2double_nonzero.
    pose proof (wrap32_range (Zsum (map rxPackets stats))). lia.
Qed.

(** Properties P5 and P6 as instances: ten packets sent and none
    received give 0, 0 and 0; two packets sent and received give a ratio
    within the range. *)
Lemma pdr_in_range_witness :
  ((0 <=? pdr (aggregate P6_flows 10 2 2 2 default_metrics))%float = true /\
   (pdr (aggregate P6_flows 10 2 2 2 default_metrics) <=? 100)%float = true /\
   is_nan (pdr (aggregate P6_flows 10 2 2 2 default_metrics)) = false) /\
  (pdr (aggregate P5_flows 10 2 2 0 default_metrics) = 0%float /\
   avg_delay_ms (aggregate P5_flows 10 2 2 0 default_metrics) = 0%float /\
   throughput_kbps (aggregate P5_flows 10 2 2 0 default_metrics) = 0%float).
Proof.
  split.
  - apply (proj1 (pdr_in_range P6_flows 10 2 2 2 default_metrics)).
    + unfold P6_flows, flow_ok, UINT32_MAX.
      constructor; [|constructor; [|constructor]]; cbn; lia.
    + unfold P6_flows. constructor; [|constructor; [|constructor]]; cbn; lia.
    + vm_compute. discriminate.
  - apply (proj1 (proj2 (pdr_in_range P5_flows 10 2 2 0 default_metrics))).
    unfold P5_flows. constructor; [|constructor; [|constructor]]; reflexivity.
Defined.

(** C3 fails as stated: with a fully delivered flow of [2^32 - 1] packets
    and a second flow of two lost packets, every flow has
    [rxPackets <= txPackets], the 32-bit total of transmitted packets
    wraps around to 1, and the delivery ratio is far above 100. *)
Lemma pdr_above_100 :
  Forall flow_ok overfull_flows /\
  Forall (fun f => rxPackets f <= txPackets f)%Z overfull_flows /\
  totalTxPackets (sum_flows 10 overfull_flows) = 1%Z /\
  pdr (aggregate overfull_flows 10 2 2 2 default_metrics) = 429496729500%float /\
  (pdr (aggregate overfull_flows 10 2 2 2 default_metrics) <=? 100)%float = false.
Proof.
  split; [|split; [|split; [|split]]].
  - unfold overfull_flows, flow_ok, UINT32_MAX.
    constructor; [|constructor; [|constructor]]; cbn; lia.
  - unfold overfull_flows. constructor; [|constructor; [|constructor]]; cbn; lia.
  - vm_compute. reflexivity.
  - vm_compute. reflexivity.
  - vm_compute. reflexivity.
Qed.

(* ================================================================== *)
(** ** The scheduling loop *)

Lemma install_clients_app (g : LweMetrics) (simTime : float) (l : list Z) :
  forall st : schedule,
    clients (fold_left (install_client g simTime) l st)
    = (clients st ++ map (make_client g simTime) l)%list.
Proof.
  induction l as [|i l IH]; intros st; cbn [fold_left map].
  - symmetry. apply app_nil_r.
  - rewrite IH. cbn [install_client clients]. rewrite <- app_assoc. reflexivity.
Qed.

Lemma install_clients_count (g : LweMetrics) (simTime : float) (l : list Z) :
  forall st : schedule,
    (0 <= g_totalPacketsSent st)%Z ->
    (g_totalPacketsSent st + Z.of_nat (List.length l) <= UINT32_MAX)%Z ->
    g_totalPacketsSent (fold_left (install_client g simTime) l st)
    = (g_totalPacketsSent st + Z.of_nat (List.length l))%Z.
Proof.
  induction l as [|i l IH]; intros st H0 H; cbn [fold_left List.length] in *.
  - lia.
  - rewrite IH; cbn [install_client g_totalPacketsSent];
      rewrite wrap32_small by lia; lia.
Qed.

Lemma length_indices (n : Z) : List.length (indices n) = Z.to_nat n.
Proof. unfold indices. rewrite length_map, length_seq. reflexivity. Qed.

Lemma nth_indices (n : Z) (k : nat) :
  (k < Z.to_nat n)%nat -> nth k (indices n) 0%Z = Z.of_nat k.
Proof.
  intros H. unfold indices.
  rewrite (nth_indep _ 0%Z (Z.of_nat 0)) by (rewrite length_map, length_seq; exact H).
  rewrite map_nth, seq_nth by exact H. reflexivity.
Qed.

(** The loop installs one client per index, in order, and counts them. *)
Lemma install_clients_spec (g : LweMetrics) (simTime : float) (n : Z) :
  (0 <= n <= UINT32_MAX)%Z ->
  clients (install_clients g simTime n no_schedule)
    = map (make_client g simTime) (indices n) /\
  g_totalPacketsSent (install_clients g simTime n no_schedule) = n.
Proof.
  intros H. unfold install_clients. split.
  - rewrite install_clients_app. reflexivity.
  - rewrite install_clients_count; rewrite ?length_indices;
      cbn [no_schedule g_totalPacketsSent]; lia.
Qed.

Lemma nth_error_clients (g : LweMetrics) (simTime : float) (n i : Z) :
  (0 <= n <= UINT32_MAX)%Z -> (0 <= i < n)%Z ->
  nth_error (clients (install_clients g simTime n no_schedule)) (Z.to_nat i)
  = Some (make_client g simTime i).
Proof.
  intros Hn Hi. destruct (install_clients_spec g simTime n Hn) as [-> _].
  rewrite nth_error_map.
  assert (L : (Z.to_nat i < Z.to_nat n)%nat) by lia.
  rewrite (nth_error_nth' (indices n) 0%Z) by (rewrite length_indices; exact L).
  rewrite nth_indices by exact L. cbn [option_map]. do 2 f_equal. lia.
Qed.

(** C6, as the code has it.  The client of node [i] starts at
    [2.0 + i * 0.5 + avg_computation_time_ms / 1000.0] (the base offset
    is the constant 2.0) and sends packets of [public_data_bytes] bytes,
    the same for every node.  When the computation time of the profile is
    between 0 and [1e9] ms, the start times increase strictly with the
    node index. *)
Theorem schedule_of_node :
  forall (g : LweMetrics) (simTime : float) (nIoTNodes : Z),
    (0 <= nIoTNodes <= UINT32_MAX)%Z ->
    let installed := clients (install_clients g simTime nIoTNodes no_schedule) in
    (forall i : Z,
        (0 <= i < nIoTNodes)%Z ->
        exists c : ClientApp,
          nth_error installed (Z.to_nat i) = Some c /\
          start_seconds c
          = (2.0 + Z2double i * 0.5 + avg_computation_time_ms g / 1000.0)%float /\
          start_seconds c = start_time g i /\
          PacketSize c = public_data_bytes g) /\
    ((0 <=? avg_computation_time_ms g)%float = true ->
     (avg_computation_time_ms g <=? 1e9)%float = true ->
     forall i j : Z,
       (0 <= i < j)%Z -> (j < nIoTNodes)%Z ->
       (start_time g i <? start_time g j)%float = true).
Proof.
  intros g simTime nIoTNodes Hn installed. split.
  - intros i Hi. exists (make_client g simTime i). split.
    + subst installed. apply nth_error_clients; assumption.
    + split; [reflexivity | split; reflexivity].
  - intros H0 H9 i j Hij Hj. apply start_time_increasing; try assumption. lia.
Qed.

(** Property P4 for the built-in profile and three nodes. *)
Lemma schedule_of_node_witness :
  (start_time default_metrics 0 <? start_time default_metrics 1)%float = true /\
  (start_time default_metrics 1 <? start_time default_metrics 2)%float = true.
Proof.
  pose proof (proj2 (schedule_of_node default_metrics 10 3
                       ltac:(unfold UINT32_MAX; lia))
                eq_refl eq_refl) as H.
  split; apply H; lia.
Defined.

(** C6 fails as stated: for a profile whose computation time is [1e20]
    ms, the half second between two nodes is lost in the rounding of the
    sum, and nodes 0 and 1 start at the same time. *)
Lemma start_times_collide :
  start_time slow_metrics 0 = start_time slow_metrics 1 /\
  (start_time slow_metrics 0 <? start_time slow_metrics 1)%float = false /\
  start_seconds (make_client slow_metrics 10 0)
  = start_seconds (make_client slow_metrics 10 1).
Proof.
  split; [|split]; vm_compute; reflexivity.
Qed.

(** C10. After the scheduling loop the global counter of packets sent is
    the number of IoT nodes: the loop installs one client per node, each
    limited to one packet, and counts each once; this is the value in the
    [packets_sent] column of the results row, whatever the simulator
    reports. *)
Theorem packets_sent_is_node_count :
  forall (show_uint : Z -> string) (show_double : float -> string)
         (Simulator_Run : list ClientApp -> float -> list FlowStats * nat)
         (nIoTNodes : Z) (simTime : float) (g : LweMetrics),
    (0 <= nIoTNodes <= UINT32_MAX)%Z ->
    let sched := install_clients g simTime nIoTNodes no_schedule in
    let r := run_metrics Simulator_Run nIoTNodes simTime g in
    g_totalPacketsSent sched = nIoTNodes /\
    Z.of_nat (List.length (clients sched)) = nIoTNodes /\
    Forall (fun c => MaxPackets c = 1%Z) (clients sched) /\
    packets_sent r = nIoTNodes /\
    exists rest,
      row_text show_uint show_double r
      = show_uint nIoTNodes ++ "," ++ show_uint nIoTNodes ++ "," ++ rest.
Proof.
  intros show_uint show_double Simulator_Run nIoTNodes simTime g H sched r.
  destruct (install_clients_spec g simTime nIoTNodes H) as [Hc Hs].
  fold sched in Hc, Hs.
  assert (Hr : packets_sent r = nIoTNodes /\ nodes r = nIoTNodes).
  { subst r. unfold run_metrics. fold sched.
    destruct (Simulator_Run (clients sched) simTime) as [stats arrivals].
    cbn [aggregate packets_sent nodes]. auto. }
  destruct Hr as [Hsent Hnodes].
  repeat split.
  - exact Hs.
  - rewrite Hc, length_map, length_indices. lia.
  - rewrite Hc. apply Forall_map. apply Forall_forall. reflexivity.
  - exact Hsent.
  - unfold row_text. rewrite Hsent, Hnodes. eexists. reflexivity.
Qed.

Lemma packets_sent_is_node_count_witness :
  g_totalPacketsSent (install_clients default_metrics 10 3 no_schedule) = 3%Z /\
  packets_sent (run_metrics (fun _ _ => ([], 0%nat)) 3 10 default_metrics) = 3%Z.
Proof.
  destruct (packets_sent_is_node_count
              (fun _ => EmptyString) (fun _ => EmptyString)
              (fun _ _ => ([], 0%nat)) 3 10 default_metrics)
    as (H1 & _ & _ & H2 & _).
  - unfold UINT32_MAX. lia.
  - split; [exact H1 | exact H2].
Defined.

(* ================================================================== *)
(** ** The results file *)

Lemma length_append (s1 s2 : string) :
  String.length (s1 ++ s2) = (String.length s1 + String.length s2)%nat.
Proof. induction s1 as [|c s1 IH]; cbn; [reflexivity | rewrite IH; reflexivity]. Qed.

Lemma append_assoc (s1 s2 s3 : string) : (s1 ++ s2) ++ s3 = s1 ++ s2 ++ s3.
Proof. induction s1 as [|c s1 IH]; cbn; [reflexivity | rewrite IH; reflexivity]. Qed.

Lemma append_inv_head (s s1 s2 : string) : s ++ s1 = s ++ s2 -> s1 = s2.
Proof. induction s as [|c s IH]; cbn; intros H; [exact H | injection H as H; auto]. Qed.


Section Writer.

Variable show_uint : Z -> string.
Variable show_double : float -> string.

Lemma row_text_not_empty (r : RunMetrics) :
  (0 < String.length (row_text show_uint show_double r))%nat.
Proof.
  unfold row_text. rewrite !length_append. cbn. lia.
Qed.

Lemma tellp_zero (f : out_file) :
  tellp (open_append f) = 0%Z <-> f <> Unopenable /\ old_contents f = "".
Proof.
  destruct f as [| |contents]; cbn.
  - split; [discriminate | intros [H _]; contradiction].
  - split; [intros _; split; [discriminate | reflexivity] | reflexivity].
  - destruct contents; cbn; split; try lia; try (intros [_ H]; discriminate H).
    intros _. split; [discriminate | reflexivity].
Qed.

Lemma save_results_opened (f : out_file) (r : RunMetrics) :
  f <> Unopenable ->
  fst (save_results show_uint show_double f r) =
  Existing (old_contents f
            ++ (if (tellp (open_append f) =? 0)%Z then header else "")
            ++ row_text show_uint show_double r).
Proof.
  intros H. unfold save_results. cbn [fst].
  destruct f as [| |contents]; [contradiction| |]; cbn [open_append old_contents].
  - reflexivity.
  - destruct (tellp (Some contents) =? 0)%Z; cbn [put close];
      rewrite ?append_assoc; reflexivity.
Qed.

End Writer.

(** C8. When the results file is opened for appending, the header line is
    written exactly when the write position after the open is 0, that is
    when the file is new or empty; then one data row follows, made of
    nodes, packets sent, packets received, delivery ratio, average delay,
    throughput, total energy, computation time and total memory in this
    order.  Appending once more to the file that results writes a data
    row only. *)
Theorem header_written_once :
  forall (show_uint : Z -> string) (show_double : float -> string)
         (f : out_file) (r r' : RunMetrics),
    f <> Unopenable ->
    let row := row_text show_uint show_double in
    let f1 := fst (save_results show_uint show_double f r) in
    f1 = Existing (old_contents f
                   ++ (if (tellp (open_append f) =? 0)%Z then header else "")
                   ++ row r) /\
    (f1 = Existing (old_contents f ++ header ++ row r)
     <-> tellp (open_append f) = 0%Z) /\
    (tellp (open_append f) = 0%Z <-> old_contents f = "") /\
    row r =
      show_uint (nodes r) ++ "," ++ show_uint (packets_sent r) ++ ","
      ++ show_uint (packets_received r) ++ ","
      ++ show_double (pdr r) ++ "," ++ show_double (avg_delay_ms r) ++ ","
      ++ show_double (throughput_kbps r) ++ ","
      ++ show_double (total_energy_mj r) ++ ","
      ++ show_double (computation_ms r) ++ ","
      ++ show_double (memory_kb r) ++ endl /\
    fst (save_results show_uint show_double f1 r')
    = Existing (old_contents f1 ++ row r').
Proof.
  intros show_uint show_double f r r' Hf row f1.
  assert (E1 : f1 = Existing (old_contents f
                   ++ (if (tellp (open_append f) =? 0)%Z then header else "")
                   ++ row r))
    by (apply save_results_opened; exact Hf).
  repeat split.
  - exact E1.
  - intros H. rewrite H in E1. injection E1 as E1.
    apply append_inv_head in E1.
    destruct (Z.eqb_spec (tellp (open_append f)) 0) as [|N]; [assumption|].
    exfalso. apply (f_equal String.length) in E1.
    rewrite length_append in E1. cbn in E1. lia.
  - intros H. rewrite E1, H. reflexivity.
  - intros H. apply tellp_zero in H. tauto.
  - intros H. apply tellp_zero. auto.
  - assert (N : f1 <> Unopenable) by (rewrite E1; discriminate).
    rewrite (save_results_opened show_uint show_double f1 r' N).
    replace (tellp (open_append f1) =? 0)%Z with false; [reflexivity|].
    symmetry. apply Z.eqb_neq. rewrite E1. cbn [open_append tellp].
    pose proof (row_text_not_empty show_uint show_double r) as L. fold row in L.
    rewrite !length_append. lia.
Qed.

(** Property P7 on a file that does not exist yet, for the run with no
    node at all (whose row is [0,0,0,0,0,0,0,0.5,0]). *)
Lemma header_written_once_witness :
  fst (save_results show_count show_sample Missing idle_metrics)
  = Existing (header ++ "0,0,0,0,0,0,0,0.5,0" ++ endl) /\
  fst (save_results show_count show_sample
         (Existing (header ++ "0,0,0,0,0,0,0,0.5,0" ++ endl)) idle_metrics)
  = Existing ((header ++ "0,0,0,0,0,0,0,0.5,0" ++ endl)
              ++ "0,0,0,0,0,0,0,0.5,0" ++ endl).
Proof.
  destruct (header_written_once show_count show_sample Missing
              idle_metrics idle_metrics)
    as (H1 & _ & _ & _ & H2); [discriminate|].
  split; [exact H1|]. exact H2.
Defined.

(** C9 does not hold of the code.  When the results file cannot be opened,
    nothing is written, and the run ends as every other run does: the
    same line "Saved to lwe_ns3_results.csv" is logged and [main] returns
    0, so that the caller cannot tell the failure from a success. *)
Theorem unwritable_results_not_reported :
  forall (stod : string -> result float)
         (show_uint : Z -> string) (show_double : float -> string)
         (Simulator_Run : list ClientApp -> float -> list FlowStats * nat)
         (nIoTNodes : Z) (simTime : float) (csv : option string)
         (r : RunMetrics) (out : out_file),
    save_results show_uint show_double Unopenable r
    = (Unopenable, "Saved to lwe_ns3_results.csv" ++ endl) /\
    snd (save_results show_uint show_double out r)
    = snd (save_results show_uint show_double Unopenable r) /\
    report (main stod show_uint show_double Simulator_Run
                 nIoTNodes simTime csv Unopenable)
    = report (main stod show_uint show_double Simulator_Run
                   nIoTNodes simTime csv out) /\
    (forall o, main stod show_uint show_double Simulator_Run
                    nIoTNodes simTime csv Unopenable = Ok o ->
               results_file o = Unopenable /\ exit_status o = 0%Z).
Proof.
  intros. repeat split.
  - unfold main. destruct (LoadMetricsFromCSV stod csv default_metrics);
      reflexivity.
  - unfold main in H. destruct (LoadMetricsFromCSV stod csv default_metrics);
      cbn in H; try discriminate. injection H as <-. reflexivity.
  - unfold main in H. destruct (LoadMetricsFromCSV stod csv default_metrics);
      cbn in H; try discriminate. injection H as <-. reflexivity.
Qed.

(* ================================================================== *)
(** * Further properties *)

Open Scope string_scope.

(** ** Splitting into lines and items *)

Lemma getlines_nil (delim : ascii) (input : string) :
  getlines delim input = [] <-> input = "".
Proof.
  destruct input as [|c rest]; cbn [getlines]; [tauto|].
  split; [|discriminate].
  destruct (Ascii.eqb c delim); [discriminate|].
  destruct (getlines delim rest); discriminate.
Qed.

Lemma contains_cons (c a : ascii) (s : string) :
  contains c (String a s) = Ascii.eqb a c || contains c s.
Proof.
  unfold contains. cbn [occurrences]. destruct (Ascii.eqb a c); reflexivity.
Qed.

Lemma contains_app (c : ascii) (s1 s2 : string) :
  contains c (s1 ++ s2) = contains c s1 || contains c s2.
Proof.
  induction s1 as [|a s1 IH]; [reflexivity|].
  cbn [append]. rewrite !contains_cons, IH. apply orb_assoc.
Qed.

(** An item that holds no delimiter and is followed by one is read as
    it is. *)
Lemma getlines_item (delim : ascii) (item rest : string) :
  contains delim item = false ->
  getlines delim (item ++ String delim rest) = item :: getlines delim rest.
Proof.
  induction item as [|a item IH]; intros H; cbn [append getlines].
  - rewrite Ascii.eqb_refl. reflexivity.
  - rewrite contains_cons in H. apply orb_false_elim in H as [Ha Hi].
    rewrite Ha, IH by exact Hi. reflexivity.
Qed.

(** The last item needs no delimiter after it. *)
Lemma getlines_last (delim : ascii) (item : string) :
  contains delim item = false -> item <> "" -> getlines delim item = [item].
Proof.
  induction item as [|a item IH]; intros H N; [contradiction|].
  rewrite contains_cons in H. apply orb_false_elim in H as [Ha Hi].
  cbn [getlines]. rewrite Ha.
  destruct item as [|b item]; [reflexivity|].
  rewrite IH by (assumption || discriminate). reflexivity.
Qed.

(** Reading goes on after a delimiter as on a fresh input. *)
Lemma getlines_app (delim : ascii) (s1 s2 : string) :
  s1 = "" \/ ends_with delim s1 = true ->
  getlines delim (s1 ++ s2) = (getlines delim s1 ++ getlines delim s2)%list.
Proof.
  induction s1 as [|a s1 IH]; intros H; [reflexivity|].
  destruct H as [H|H]; [discriminate|].
  cbn [append getlines].
  destruct s1 as [|b s1].
  - cbn [ends_with] in H. rewrite H. reflexivity.
  - cbn [ends_with] in H. rewrite IH by (right; exact H).
    destruct (Ascii.eqb a delim); [reflexivity|].
    destruct (getlines delim (String b s1)) as [|item items] eqn:E.
    + apply getlines_nil in E. discriminate.
    + reflexivity.
Qed.

Lemma ends_with_app (c : ascii) (s : string) :
  ends_with c (s ++ String c "") = true.
Proof.
  induction s as [|a s IH]; cbn [append ends_with].
  - apply Ascii.eqb_refl.
  - destruct (s ++ String c "") eqn:E; [destruct s; discriminate | exact IH].
Qed.

(** What a delimiter added at the end of the input changes: nothing, or
    one more item, which is empty. *)
Lemma getlines_app_delim (delim : ascii) (s : string) :
  getlines delim (s ++ String delim "")
  = (getlines delim s
     ++ (if ends_with delim s || String.eqb s "" then [""] else []))%list.
Proof.
  induction s as [|a s IH]; cbn [append getlines].
  - rewrite Ascii.eqb_refl. reflexivity.
  - rewrite IH. destruct (Ascii.eqb a delim) eqn:Ea.
    + destruct s as [|b s]; [|reflexivity].
      cbn [ends_with getlines]. rewrite Ea. reflexivity.
    + destruct s as [|b s].
      * cbn [ends_with getlines app]. rewrite Ea. reflexivity.
      * change (String.eqb (String a (String b s)) "") with false.
        change (String.eqb (String b s) "") with false.
        change (ends_with delim (String a (String b s)))
          with (ends_with delim (String b s)).
        destruct (getlines delim (String b s)) as [|item items] eqn:E.
        { apply getlines_nil in E. discriminate. }
        reflexivity.
Qed.

(** Joining the items with the delimiter gives the input back, but for a
    delimiter at its very end. *)
Lemma getlines_concat (delim : ascii) (s : string) :
  s = String.concat (String delim "") (getlines delim s)
      ++ (if ends_with delim s then String delim "" else "").
Proof.
  induction s as [|a s IH]; [reflexivity|].
  cbn [getlines]. destruct (Ascii.eqb a delim) eqn:Ea.
  - apply Ascii.eqb_eq in Ea. subst a.
    destruct s as [|b s].
    + cbn [getlines String.concat ends_with]. rewrite Ascii.eqb_refl. reflexivity.
    + change (ends_with delim (String delim (String b s)))
        with (ends_with delim (String b s)).
      destruct (getlines delim (String b s)) as [|item items] eqn:E.
      { apply getlines_nil in E. discriminate. }
      cbn [String.concat append]. f_equal. exact IH.
  - destruct s as [|b s].
    + cbn [getlines String.concat ends_with]. rewrite Ea. reflexivity.
    + change (ends_with delim (String a (String b s)))
        with (ends_with delim (String b s)).
      destruct (getlines delim (String b s)) as [|item items] eqn:E.
      { apply getlines_nil in E. discriminate. }
      rewrite IH at 1.
      destruct items; reflexivity.
Qed.

Lemma getlines_no_delim (delim : ascii) (s : string) :
  Forall (fun item => contains delim item = false) (getlines delim s).
Proof.
  induction s as [|a s IH]; [constructor|].
  cbn [getlines]. destruct (Ascii.eqb a delim) eqn:Ea.
  - constructor; [reflexivity | exact IH].
  - destruct (getlines delim s) as [|item items].
    + constructor; [|constructor]. rewrite contains_cons, Ea. reflexivity.
    + inversion IH as [|? ? Hi Hr]; subst. constructor; [|exact Hr].
      rewrite contains_cons, Ea, Hi. reflexivity.
Qed.

Lemma getlines_length (delim : ascii) (s : string) :
  List.length (getlines delim s)
  = (occurrences delim s
     + (if String.eqb s "" || ends_with delim s then 0 else 1))%nat.
Proof.
  induction s as [|a s IH]; [reflexivity|].
  cbn [getlines occurrences]. change (String.eqb (String a s) "") with false.
  cbn [orb]. destruct (Ascii.eqb a delim) eqn:Ea.
  - cbn [List.length]. rewrite IH.
    destruct s as [|b s]; cbn [ends_with].
    + rewrite Ea. reflexivity.
    + change (String.eqb (String b s) "") with false. cbn [orb]. lia.
  - destruct s as [|b s].
    + cbn [getlines List.length occurrences ends_with]. rewrite Ea. reflexivity.
    + change (ends_with delim (String a (String b s)))
        with (ends_with delim (String b s)).
      change (String.eqb (String b s) "") with false in IH. cbn [orb] in IH.
      destruct (getlines delim (String b s)) as [|item items] eqn:E.
      { apply getlines_nil in E. discriminate. }
      cbn [List.length] in *. lia.
Qed.

(** ** More on the loader *)

(** X1. Splitting a line at its commas loses nothing but a comma at the
    very end of the line: no item holds a comma, and the items joined by
    commas are the line again, up to that last comma. *)
Theorem split_row_lossless :
  forall line : string,
    Forall (fun item => contains comma item = false) (split_row line) /\
    line = String.concat "," (split_row line)
           ++ (if ends_with comma line then "," else "").
Proof.
  intros line. split.
  - apply getlines_no_delim.
  - exact (getlines_concat comma line).
Qed.

(** X2. A line gives one item per comma and one more for what follows
    the last comma, unless nothing follows it: an empty last field is
    not an item.  So a line is a data row exactly when it has six commas,
    or five and a non-empty last field; a line of five commas that ends
    with a comma is skipped. *)
Theorem row_item_count :
  forall line : string,
    let items := (occurrences comma line
                  + (if String.eqb line "" || ends_with comma line
                     then 0 else 1))%nat in
    List.length (split_row line) = items /\
    (valid_line line = true <-> (6 <= items)%nat) /\
    (forall (stod : string -> result float) (acc : sums),
        occurrences comma line = 5%nat -> ends_with comma line = true ->
        add_row stod acc line = Ok acc).
Proof.
  intros line items.
  assert (L : List.length (split_row line) = items)
    by apply getlines_length.
  assert (V : valid_line line = true <-> (6 <= items)%nat).
  { unfold valid_line, enough_fields. rewrite L. rewrite Z.leb_le. lia. }
  split; [exact L | split; [exact V|]].
  intros stod acc H5 He. apply add_row_skip.
  destruct (valid_line line) eqn:E; [|reflexivity].
  exfalso. pose proof (proj1 V eq_refl) as E'. subst items.
  rewrite H5, He, orb_true_r in E'. lia.
Qed.

Lemma row_item_count_witness :
  List.length (split_row "1,2,3,4,5,") = 5%nat /\
  add_row stod_decimal zero_sums "1,2,3,4,5," = Ok zero_sums.
Proof.
  destruct (row_item_count "1,2,3,4,5,") as (L & _ & S).
  split; [exact L|]. apply S; reflexivity.
Defined.

Lemma bind_Ok {A : Type} (r : result A) : (x <- r ;; Ok x) = r.
Proof. destruct r; reflexivity. Qed.

Lemma add_rows_app (stod : string -> result float) (l1 l2 : list string) :
  forall acc : sums,
    add_rows stod acc (l1 ++ l2)
    = (acc' <- add_rows stod acc l1 ;; add_rows stod acc' l2).
Proof.
  induction l1 as [|line l1 IH]; intros acc; [reflexivity|].
  cbn [app add_rows]. destruct (add_row stod acc line); cbn [bind]; auto.
Qed.

Lemma add_rows_empty_line (stod : string -> result float) (lines : list string) :
  forall acc : sums,
    add_rows stod acc (lines ++ [""]) = add_rows stod acc lines.
Proof.
  intros acc. rewrite add_rows_app. cbn [add_rows].
  rewrite <- (bind_Ok (add_rows stod acc lines)) at 2.
  destruct (add_rows stod acc lines); reflexivity.
Qed.

(** X3. The first line of the file is dropped whatever it holds: the
    profile depends on what follows the first end of line only.  A file
    that starts with a data row loses that row, and a file of one line
    leaves the profile as it was. *)
Theorem header_line_ignored :
  forall (stod : string -> result float) (first rest : string) (g : LweMetrics),
    contains newline first = false ->
    LoadMetricsFromCSV stod (Some (first ++ String newline rest)) g
    = (s <- add_rows stod zero_sums (getlines newline rest) ;;
       if (0 <? count s)%Z then Ok (store_averages g s) else Ok g) /\
    (forall first' : string,
        contains newline first' = false ->
        LoadMetricsFromCSV stod (Some (first' ++ String newline rest)) g
        = LoadMetricsFromCSV stod (Some (first ++ String newline rest)) g) /\
    LoadMetricsFromCSV stod (Some first) g = Ok g.
Proof.
  intros stod first rest g H.
  assert (E : forall f : string,
             contains newline f = false ->
             LoadMetricsFromCSV stod (Some (f ++ String newline rest)) g
             = (s <- add_rows stod zero_sums (getlines newline rest) ;;
                if (0 <? count s)%Z then Ok (store_averages g s) else Ok g)).
  { intros f Hf. unfold LoadMetricsFromCSV.
    rewrite getlines_item by exact Hf. reflexivity. }
  split; [exact (E first H) | split].
  - intros first' H'. rewrite (E first H), (E first' H'). reflexivity.
  - unfold LoadMetricsFromCSV. destruct first as [|c first]; [reflexivity|].
    rewrite getlines_last by (exact H || discriminate). reflexivity.
Qed.

(** A file without a header: its first row is taken for one. *)
Lemma header_line_ignored_witness :
  LoadMetricsFromCSV stod_decimal
    (Some ("1,1.0,10.0,256,16640,2.0" ++ String newline
           ("2,3.0,20.0,256,16640,4.0" ++ endl))) default_metrics
  = LoadMetricsFromCSV stod_decimal
      (Some ("run,time_ms,memory_kb,key_bytes,public_bytes,energy_mj"
             ++ String newline ("2,3.0,20.0,256,16640,4.0" ++ endl)))
      default_metrics /\
  LoadMetricsFromCSV stod_decimal (Some "1,1.0,10.0,256,16640,2.0")
    default_metrics = Ok default_metrics.
Proof.
  destruct (header_line_ignored stod_decimal
              "run,time_ms,memory_kb,key_bytes,public_bytes,energy_mj"
              ("2,3.0,20.0,256,16640,4.0" ++ endl) default_metrics eq_refl)
    as (_ & H & _).
  destruct (header_line_ignored stod_decimal "1,1.0,10.0,256,16640,2.0"
              "" default_metrics eq_refl) as (_ & _ & H').
  split; [apply H; reflexivity | exact H'].
Defined.

(** X4. An end of line added at the end of the file changes nothing: the
    last row is read whether an end of line follows it or not. *)
Theorem final_newline_optional :
  forall (stod : string -> result float) (contents : string) (g : LweMetrics),
    LoadMetricsFromCSV stod (Some (contents ++ endl)) g
    = LoadMetricsFromCSV stod (Some contents) g.
Proof.
  intros stod contents g. unfold LoadMetricsFromCSV, endl.
  rewrite getlines_app_delim.
  destruct (ends_with newline contents || String.eqb contents "") eqn:E.
  - destruct (getlines newline contents) as [|l lines] eqn:G; [reflexivity|].
    cbn [app tl]. rewrite add_rows_empty_line. reflexivity.
  - rewrite app_nil_r. reflexivity.
Qed.

Lemma add_row_fields (stod : string -> result float) (acc : sums)
  (line1 line2 : string) :
  valid_line line1 = true -> valid_line line2 = true ->
  read_fields (split_row line1) = read_fields (split_row line2) ->
  add_row stod acc line1 = add_row stod acc line2.
Proof.
  unfold valid_line, add_row, read_fields. intros -> -> E.
  injection E as -> -> ->. reflexivity.
Qed.

Lemma add_rows_fields (stod : string -> result float) (lines1 : list string) :
  forall (lines2 : list string) (acc : sums),
    Forall (fun l => valid_line l = true) lines1 ->
    Forall (fun l => valid_line l = true) lines2 ->
    map read_fields (map split_row lines1)
    = map read_fields (map split_row lines2) ->
    add_rows stod acc lines1 = add_rows stod acc lines2.
Proof.
  induction lines1 as [|l1 lines1 IH]; intros [|l2 lines2] acc V1 V2 E;
    try discriminate; [reflexivity|].
  inversion V1 as [|? ? H1 R1]; inversion V2 as [|? ? H2 R2]; subst.
  cbn [map] in E.
  pose proof (f_equal (hd (read_fields [])) E) as E0.
  apply (f_equal (@tl _)) in E. cbn [hd tl] in E0, E.
  cbn [add_rows]. rewrite (add_row_fields stod acc l1 l2 H1 H2 E0).
  destruct (add_row stod acc l2); cbn [bind]; auto.
Qed.

Lemma Forall_filter_valid (lines : list string) :
  Forall (fun l => valid_line l = true) (filter valid_line lines).
Proof.
  apply Forall_forall. intros l H. apply filter_In in H. tauto.
Qed.

(** X5. Of a data row the loader reads the items 1, 2 and 5 and nothing
    else: two files whose rows of six items or more agree, row by row, on
    these three items load the same profile, or end with the same
    exception; the run number, the two sizes and what follows item 5 have
    no part in it. *)
Theorem only_three_fields_are_read :
  forall (stod : string -> result float) (contents1 contents2 : string)
         (g : LweMetrics),
    map read_fields (valid_rows contents1)
    = map read_fields (valid_rows contents2) ->
    LoadMetricsFromCSV stod (Some contents1) g
    = LoadMetricsFromCSV stod (Some contents2) g.
Proof.
  intros stod contents1 contents2 g E. rewrite !load_filter.
  rewrite (add_rows_fields stod (filter valid_line (data_lines contents1))
             (filter valid_line (data_lines contents2)) zero_sums);
    auto using Forall_filter_valid.
Qed.

(** The file of P2 with other run numbers, other sizes and a seventh
    item. *)
Lemma only_three_fields_are_read_witness :
  LoadMetricsFromCSV stod_decimal
    (Some ("h" ++ endl ++ "a,1.0,10.0,1,2,2.0,x" ++ endl
           ++ "?,3.0,20.0,,,4.0" ++ endl)) default_metrics
  = LoadMetricsFromCSV stod_decimal (Some P2_csv) default_metrics.
Proof.
  apply (only_three_fields_are_read stod_decimal). vm_compute. reflexivity.
Defined.

(** X6. The loader never touches the two sizes of the profile, whatever
    the file holds: after a load from the built-in profile the key size
    is 256 bytes and every client sends packets of 16640 bytes. *)
Theorem packet_size_not_loaded :
  forall (stod : string -> result float) (file : option string)
         (g g' : LweMetrics) (simTime : float) (nIoTNodes : Z),
    LoadMetricsFromCSV stod file g = Ok g' ->
    key_size_bytes g' = key_size_bytes g /\
    public_data_bytes g' = public_data_bytes g /\
    Forall (fun c => PacketSize c = public_data_bytes g)
           (clients (install_clients g' simTime nIoTNodes no_schedule)) /\
    (g = default_metrics ->
     key_size_bytes g' = 256%Z /\
     Forall (fun c => PacketSize c = 16640%Z)
            (clients (install_clients g' simTime nIoTNodes no_schedule))).
Proof.
  intros stod file g g' simTime nIoTNodes H.
  assert (K : key_size_bytes g' = key_size_bytes g /\
              public_data_bytes g' = public_data_bytes g).
  { unfold LoadMetricsFromCSV in H. destruct file as [contents|].
    - destruct (add_rows stod zero_sums (tl (getlines newline contents)))
        as [s| |]; cbn [bind] in H; try discriminate.
      destruct (0 <? count s)%Z; injection H as <-; split; reflexivity.
    - injection H as <-. split; reflexivity. }
  destruct K as [K1 K2].
  assert (F : Forall (fun c => PacketSize c = public_data_bytes g)
                (clients (install_clients g' simTime nIoTNodes no_schedule))).
  { unfold install_clients. rewrite install_clients_app. cbn [no_schedule clients app].
    apply Forall_map. apply Forall_forall. intros i _. exact K2. }
  split; [exact K1 | split; [exact K2 | split; [exact F|]]].
  intros ->. split; [exact K1 | exact F].
Qed.

Lemma packet_size_not_loaded_witness :
  Forall (fun c => PacketSize c = 16640%Z)
    (clients (install_clients
                {| avg_computation_time_ms := 2.0; avg_memory_kb := 15.0;
                   avg_energy_mj := 3.0; key_size_bytes := 256;
                   public_data_bytes := 16640 |} 10 3 no_schedule)).
Proof.
  refine (proj2 (proj2 (proj2 (proj2
            (packet_size_not_loaded stod_decimal (Some P2_csv) default_metrics
               _ 10 3 _))) eq_refl)).
  vm_compute. reflexivity.
Defined.

(** ** Numbers that the loader takes in *)

Lemma valid_rows_nan_csv :
  valid_rows nan_csv =
  [ ["1"; "1.0"; "10.0"; "256"; "16640"; "2.0"];
    ["2"; "nan"; "20.0"; "256"; "16640"; "4.0"] ].
Proof. vm_compute. reflexivity. Qed.

Lemma valid_rows_one_row_csv :
  valid_rows one_row_csv = [ ["1"; "2.5"; "10.0"; "256"; "16640"; "2.0"] ].
Proof. vm_compute. reflexivity. Qed.

(** X7. The loader takes what [std::stod] returns as it is.  When the
    time of one row reads as a NaN (as the text [nan] does), the averaged
    computation time is a NaN, and so is the start time of every client
    that is scheduled from it. *)
Theorem nan_time_spreads :
  forall (stod : string -> result float) (contents : string) (g : LweMetrics),
    Forall (numeric stod) (valid_rows contents) ->
    (Z.of_nat (List.length (valid_rows contents)) <= INT_MAX)%Z ->
    Exists (fun row => is_nan (field stod 1 row) = true) (valid_rows contents) ->
    exists g' : LweMetrics,
      LoadMetricsFromCSV stod (Some contents) g = Ok g' /\
      is_nan (avg_computation_time_ms g') = true /\
      forall (simTime : float) (i : Z),
        is_nan (start_seconds (make_client g' simTime i)) = true.
Proof.
  intros stod contents g Hnum Hlen Hnan.
  rewrite load_numeric by assumption.
  destruct (valid_rows contents) as [|row rows] eqn:E; [inversion Hnan|].
  replace (0 <? Z.of_nat (List.length (row :: rows)))%Z with true
    by (symmetry; apply Z.ltb_lt; cbn [List.length]; lia).
  eexists. split; [reflexivity|].
  assert (N : is_nan (avg_computation_time_ms
                        (store_averages g (sums_of stod contents))) = true).
  { unfold store_averages, sums_of. cbn [avg_computation_time_ms total_time].
    apply div_nan_l. unfold fsum. apply accumulate_nan. right.
    rewrite E. apply Exists_exists. apply Exists_exists in Hnan.
    destruct Hnan as (r & Hin & Hr). exists (field stod 1 r).
    split; [apply in_map; exact Hin | exact Hr]. }
  split; [exact N|].
  intros simTime i. cbn [make_client start_seconds]. unfold start_time.
  apply add_nan_r, div_nan_l, N.
Qed.

Lemma nan_time_spreads_witness :
  exists g' : LweMetrics,
    LoadMetricsFromCSV stod_decimal (Some nan_csv) default_metrics = Ok g' /\
    is_nan (avg_computation_time_ms g') = true /\
    forall (simTime : float) (i : Z),
      is_nan (start_seconds (make_client g' simTime i)) = true.
Proof.
  apply (nan_time_spreads stod_decimal nan_csv default_metrics).
  - rewrite valid_rows_nan_csv. constructor; [|constructor; [|constructor]].
    + exists 1%float, 10%float, 2%float.
      split; [|split]; vm_compute; reflexivity.
    + exists nan, 20%float, 4%float.
      split; [|split]; vm_compute; reflexivity.
  - rewrite valid_rows_nan_csv. vm_compute. discriminate.
  - rewrite valid_rows_nan_csv. apply Exists_cons_tl, Exists_cons_hd.
    vm_compute. reflexivity.
Defined.

(** The average of one positive number is that number. *)
Lemma average_of_one (v : float) :
  (0 <? v)%float = true -> (v <? infinity)%float = true ->
  ((0 + v) / Z2double 1)%float = v.
Proof.
  intros H0 Hi. destruct (positive_finite_intro v H0 Hi) as [N P].
  destruct (add_exact 0 v v fnonneg_zero N N) as [Ns Vs].
  { rewrite FZ_zero. reflexivity. }
  assert (Es : (0 + v)%float = v) by (apply FZ_inj; try assumption; lia).
  rewrite Es.
  destruct (Z2double_spec 1 ltac:(split; [lia | reflexivity])) as [N1 V1].
  destruct (div_exact v (Z2double 1) v N N1) as [Nq Vq]; try assumption.
  { rewrite V1. pose proof pow2_1074_pos. lia. }
  { rewrite V1. ring. }
  apply FZ_inj; try assumption; lia.
Qed.

(** X8. A file with exactly one data row of six items or more, whose
    three numbers are positive and finite, loads these numbers
    themselves: summing from zero and dividing by one is exact. *)
Theorem single_row_average :
  forall (stod : string -> result float) (contents : string)
         (g : LweMetrics) (row : list string),
    valid_rows contents = [row] ->
    numeric stod row ->
    Forall (fun k => (0 <? field stod k row)%float = true /\
                     (field stod k row <? infinity)%float = true)
           [1%nat; 2%nat; 5%nat] ->
    LoadMetricsFromCSV stod (Some contents) g =
    Ok {| avg_computation_time_ms := field stod 1 row;
          avg_memory_kb := field stod 2 row;
          avg_energy_mj := field stod 5 row;
          key_size_bytes := key_size_bytes g;
          public_data_bytes := public_data_bytes g |}.
Proof.
  intros stod contents g row E Hnum Hpos.
  rewrite load_numeric; rewrite ?E.
  - cbn [List.length Z.of_nat Z.ltb Z.compare Pos.of_succ_nat].
    unfold store_averages, sums_of. rewrite E.
    cbn [map fsum accumulate fold_left List.length total_time total_memory
         total_energy count].
    unfold fsum, accumulate. cbn [fold_left].
    change (Z.of_nat 1) with 1%Z.
    inversion Hpos as [|? ? [A1 B1] H2]; subst.
    inversion H2 as [|? ? [A2 B2] H3]; subst.
    inversion H3 as [|? ? [A5 B5] _]; subst.
    rewrite !average_of_one by assumption. reflexivity.
  - constructor; [exact Hnum | constructor].
  - cbn. unfold INT_MAX. lia.
Qed.

Lemma single_row_average_witness :
  LoadMetricsFromCSV stod_decimal (Some one_row_csv) default_metrics =
  Ok {| avg_computation_time_ms := 2.5;
        avg_memory_kb := 10.0;
        avg_energy_mj := 2.0;
        key_size_bytes := 256;
        public_data_bytes := 16640 |}.
Proof.
  apply (single_row_average stod_decimal one_row_csv default_metrics
           ["1"; "2.5"; "10.0"; "256"; "16640"; "2.0"]).
  - exact valid_rows_one_row_csv.
  - exists 2.5%float, 10%float, 2%float.
    split; [|split]; vm_compute; reflexivity.
  - constructor; [|constructor; [|constructor; [|constructor]]];
      split; vm_compute; reflexivity.
Defined.

Lemma average_not_negative (values : list float) (n : Z) :
  Forall (fun v => (0 <=? v)%float = true /\ (v <? infinity)%float = true) values ->
  (0 < n <= INT_MAX)%Z ->
  (0 <=? fsum values / Z2double n)%float = true /\
  is_nan (fsum values / Z2double n) = false.
Proof.
  intros Hv Hn. apply not_negative_leb. apply not_negative_div.
  - apply not_negative_accumulate; [left; exact I|].
    eapply Forall_impl; [|exact Hv]. intros v [H0 Hi].
    left. apply fnonneg_intro; assumption.
  - apply Z2double_positive. unfold INT_MAX, UINT32_MAX in *. lia.
Qed.

(** X9. When the three numbers of every data row are finite and not
    negative, so are the loaded averages, but for an overflow of a sum:
    each average is a number (not a NaN) that is not below zero. *)
Theorem averages_are_numbers :
  forall (stod : string -> result float) (contents : string) (g : LweMetrics),
    valid_rows contents <> [] ->
    Forall (numeric stod) (valid_rows contents) ->
    (Z.of_nat (List.length (valid_rows contents)) <= INT_MAX)%Z ->
    Forall (fun row =>
              Forall (fun k => (0 <=? field stod k row)%float = true /\
                               (field stod k row <? infinity)%float = true)
                     [1%nat; 2%nat; 5%nat])
           (valid_rows contents) ->
    exists g' : LweMetrics,
      LoadMetricsFromCSV stod (Some contents) g = Ok g' /\
      Forall (fun x => (0 <=? x)%float = true /\ is_nan x = false)
             [avg_computation_time_ms g'; avg_memory_kb g'; avg_energy_mj g'].
Proof.
  intros stod contents g Hne Hnum Hlen Hpos.
  rewrite load_numeric by assumption.
  destruct (valid_rows contents) as [|row rows] eqn:E; [contradiction|].
  replace (0 <? Z.of_nat (List.length (row :: rows)))%Z with true
    by (symmetry; apply Z.ltb_lt; cbn [List.length]; lia).
  eexists. split; [reflexivity|].
  unfold store_averages, sums_of. rewrite E.
  cbn [avg_computation_time_ms avg_memory_kb avg_energy_mj
       total_time total_memory total_energy count].
  assert (Hn : (0 < Z.of_nat (List.length (row :: rows)) <= INT_MAX)%Z)
    by (cbn [List.length] in *; lia).
  assert (C : forall k : nat,
             In k [1%nat; 2%nat; 5%nat] ->
             Forall (fun v => (0 <=? v)%float = true /\
                              (v <? infinity)%float = true)
                    (map (field stod k) (row :: rows))).
  { intros k Hk. apply Forall_map. eapply Forall_impl; [|exact Hpos].
    intros r Hr. rewrite Forall_forall in Hr. exact (Hr k Hk). }
  constructor; [|constructor; [|constructor; [|constructor]]];
    apply average_not_negative; try exact Hn; apply C; cbn; auto.
Qed.

Lemma averages_are_numbers_witness :
  exists g' : LweMetrics,
    LoadMetricsFromCSV stod_decimal (Some P2_csv) default_metrics = Ok g' /\
    Forall (fun x => (0 <=? x)%float = true /\ is_nan x = false)
           [avg_computation_time_ms g'; avg_memory_kb g'; avg_energy_mj g'].
Proof.
  apply (averages_are_numbers stod_decimal P2_csv default_metrics).
  - rewrite valid_rows_P2. discriminate.
  - rewrite valid_rows_P2. constructor; [|constructor; [|constructor]].
    + exists 1%float, 10%float, 2%float.
      split; [|split]; vm_compute; reflexivity.
    + exists 3%float, 20%float, 4%float.
      split; [|split]; vm_compute; reflexivity.
  - rewrite valid_rows_P2. vm_compute. discriminate.
  - rewrite valid_rows_P2.
    constructor; [|constructor; [|constructor]];
      (constructor; [|constructor; [|constructor; [|constructor]]]);
      split; vm_compute; reflexivity.
Defined.

(** ** The counters and the links *)

Lemma iter_RxCallback (arrivals : nat) :
  Nat.iter arrivals RxCallback 0%Z = wrap32 (Z.of_nat arrivals).
Proof.
  induction arrivals as [|n IH]; [reflexivity|].
  change (Nat.iter (S n) RxCallback 0%Z)
    with (RxCallback (Nat.iter n RxCallback 0%Z)).
  rewrite IH. unfold RxCallback.
  rewrite wrap32_add_l. f_equal. lia.
Qed.

(** X10. The counter of received packets goes up by one at each call of
    [RxCallback], modulo [2^32]: after the simulation it holds the number
    of packets that arrived at the server, as long as these are fewer
    than [2^32], and that is the value in the results row. *)
Theorem received_counter :
  forall (Simulator_Run : list ClientApp -> float -> list FlowStats * nat)
         (nIoTNodes : Z) (simTime : float) (g : LweMetrics),
    let sched := install_clients g simTime nIoTNodes no_schedule in
    let arrivals := snd (Simulator_Run (clients sched) simTime) in
    let r := run_metrics Simulator_Run nIoTNodes simTime g in
    (forall n : nat, Nat.iter n RxCallback 0%Z = wrap32 (Z.of_nat n)) /\
    packets_received r = wrap32 (Z.of_nat arrivals) /\
    ((Z.of_nat arrivals <= UINT32_MAX)%Z ->
     packets_received r = Z.of_nat arrivals).
Proof.
  intros Simulator_Run nIoTNodes simTime g sched arrivals r.
  assert (E : packets_received r = wrap32 (Z.of_nat arrivals)).
  { subst r arrivals. unfold run_metrics. fold sched.
    destruct (Simulator_Run (clients sched) simTime) as [stats n].
    cbn [aggregate packets_received snd]. apply iter_RxCallback. }
  split; [exact iter_RxCallback | split; [exact E|]].
  intros H. rewrite E. apply wrap32_small. lia.
Qed.

Lemma received_counter_witness :
  packets_received (run_metrics (fun _ _ => ([], 3%nat)) 3 10 default_metrics)
  = 3%Z.
Proof.
  apply (proj2 (proj2 (received_counter (fun _ _ => ([], 3%nat)) 3 10
                         default_metrics))).
  unfold UINT32_MAX. cbn. lia.
Defined.

Lemma append_inv_tail (t : string) : forall s1 s2 : string,
  s1 ++ t = s2 ++ t -> s1 = s2.
Proof.
  induction s1 as [|c s1 IH]; intros s2 H.
  - destruct s2 as [|c2 s2]; [reflexivity | exfalso].
    apply (f_equal String.length) in H. cbn in H. rewrite length_append in H. lia.
  - destruct s2 as [|c2 s2].
    + exfalso. apply (f_equal String.length) in H. cbn in H.
      rewrite length_append in H. lia.
    + cbn [append] in H. injection H as -> H. f_equal. apply IH. exact H.
Qed.

(** Decimal printing tells numbers apart. *)
Lemma show_count_inj (a b : Z) :
  (0 <= a)%Z -> (0 <= b)%Z -> show_count a = show_count b -> a = b.
Proof.
  intros Ha Hb H. unfold show_count in H.
  assert (NN : forall n : N, N.to_uint n <> Decimal.Nil).
  { intros [|p]; [discriminate|]. apply DecimalPos.Unsigned.to_uint_nonnil. }
  apply (f_equal NilZero.uint_of_string) in H.
  rewrite !NilZero.usu in H by apply NN. injection H as H.
  apply DecimalN.Unsigned.to_uint_inj in H. apply Z2N.inj; assumption.
Qed.

Lemma connect_nodes_app (show_uint : Z -> string) (l : list Z) :
  forall interfaces : list string,
    fold_left (connect_node show_uint) l interfaces
    = (interfaces ++ map (subnet show_uint) l)%list.
Proof.
  induction l as [|i l IH]; intros interfaces; cbn [fold_left map].
  - symmetry. apply app_nil_r.
  - rewrite IH. unfold connect_node. rewrite <- app_assoc. reflexivity.
Qed.

Lemma connect_nodes_eq (show_uint : Z -> string) (n : Z) :
  connect_nodes show_uint n = map (subnet show_uint) (indices n).
Proof. unfold connect_nodes. apply connect_nodes_app. Qed.

Lemma In_indices (n i : Z) : In i (indices n) <-> (0 <= i < n)%Z.
Proof.
  unfold indices. rewrite in_map_iff. split.
  - intros (k & <- & Hk). apply in_seq in Hk. lia.
  - intros H. exists (Z.to_nat i). split; [lia|]. apply in_seq. lia.
Qed.

Lemma NoDup_indices (n : Z) : NoDup (indices n).
Proof.
  unfold indices. apply NoDup_map_NoDup_ForallPairs; [|apply seq_NoDup].
  intros a b _ _. apply Nat2Z.inj.
Qed.

(** X11. The first loop gives every node a link of its own: the vector
    [interfaces] has one entry per node, entry [i] is the network
    [10.1.(i+1).0], so that the second loop reads inside the vector, and
    no two nodes are given the same network, as long as the printing of
    numbers tells them apart. *)
Theorem every_node_its_own_network :
  forall (show_uint : Z -> string) (nIoTNodes : Z),
    (forall a b : Z,
        (0 <= a <= UINT32_MAX)%Z -> (0 <= b <= UINT32_MAX)%Z ->
        show_uint a = show_uint b -> a = b) ->
    (0 <= nIoTNodes <= UINT32_MAX)%Z ->
    let interfaces := connect_nodes show_uint nIoTNodes in
    List.length interfaces = Z.to_nat nIoTNodes /\
    (forall i : Z,
        (0 <= i < nIoTNodes)%Z ->
        interface_of interfaces i
        = Some ("10.1." ++ show_uint (i + 1)%Z ++ ".0")) /\
    (forall i : Z, (nIoTNodes <= i)%Z -> interface_of interfaces i = None) /\
    NoDup interfaces.
Proof.
  intros show_uint n Hinj Hn interfaces. subst interfaces.
  rewrite connect_nodes_eq. unfold UINT32_MAX in *.
  split; [|split; [|split]].
  - rewrite length_map, length_indices. reflexivity.
  - intros i Hi. unfold interface_of.
    replace (0 <=? i)%Z with true by (symmetry; apply Z.leb_le; lia).
    rewrite nth_error_map.
    assert (L : (Z.to_nat i < Z.to_nat n)%nat) by lia.
    rewrite (nth_error_nth' (indices n) 0%Z) by (rewrite length_indices; exact L).
    rewrite nth_indices by exact L. cbn [option_map]. unfold subnet.
    rewrite Z2Nat.id by lia. rewrite wrap32_small by (unfold UINT32_MAX; lia).
    reflexivity.
  - intros i Hi. unfold interface_of.
    destruct (0 <=? i)%Z; [|reflexivity].
    apply nth_error_None. rewrite length_map, length_indices. lia.
  - apply NoDup_map_NoDup_ForallPairs; [|apply NoDup_indices].
    intros i j Hi Hj E. apply In_indices in Hi, Hj. unfold subnet in E.
    apply (append_inv_head "10.1.") in E. apply append_inv_tail in E.
    rewrite !wrap32_small in E by (unfold UINT32_MAX; lia).
    apply Hinj in E; lia.
Qed.

Lemma every_node_its_own_network_witness :
  connect_nodes show_count 3 = ["10.1.1.0"; "10.1.2.0"; "10.1.3.0"] /\
  interface_of (connect_nodes show_count 3) 2 = Some "10.1.3.0" /\
  NoDup (connect_nodes show_count 3).
Proof.
  destruct (every_node_its_own_network show_count 3) as (_ & H & _ & D).
  - intros a b Ha Hb. apply show_count_inj; lia.
  - unfold UINT32_MAX. lia.
  - split; [reflexivity | split; [|exact D]].
    apply (H 2%Z). lia.
Defined.

(** ** Start, stop and what the log shows *)

Lemma early_nodes_of_default_run :
  forallb (fun k => (start_time default_metrics (Z.of_nat k) <? default_simTime)%float)
          (seq 0 16) = true.
Proof. vm_compute. reflexivity. Qed.

(** X12. A client is told to stop at [simTime] whatever its start time
    is.  When the computation time of the profile is between 0 and [1e9]
    ms, the client of a node [i] with [simTime <= 2.0 + i * 0.5] is
    configured to start no earlier than it stops.  With the built-in
    profile and the default duration of 10 s, the clients that start
    before they stop are those of the nodes 0 to 15. *)
Theorem late_nodes_start_after_stop :
  (forall (g : LweMetrics) (simTime : float) (nIoTNodes i : Z),
      (0 <= nIoTNodes <= UINT32_MAX)%Z -> (0 <= i < nIoTNodes)%Z ->
      (0 <=? avg_computation_time_ms g)%float = true ->
      (avg_computation_time_ms g <=? 1e9)%float = true ->
      (0 <=? simTime)%float = true ->
      (simTime <=? 2.0 + Z2double i * 0.5)%float = true ->
      exists c : ClientApp,
        nth_error (clients (install_clients g simTime nIoTNodes no_schedule))
                  (Z.to_nat i) = Some c /\
        stop_seconds c = simTime /\
        (stop_seconds c <=? start_seconds c)%float = true /\
        (start_seconds c <? stop_seconds c)%float = false) /\
  (forall i : Z,
      (0 <= i <= UINT32_MAX)%Z ->
      ((start_time default_metrics i <? default_simTime)%float = true
       <-> (i <= 15)%Z)).
Proof.
  split.
  - intros g simTime n i Hn Hi H0 H9 Hs Hl.
    exists (make_client g simTime i).
    split; [apply nth_error_clients; assumption|].
    split; [reflexivity|]. cbn [make_client stop_seconds start_seconds].
    destruct (start_time_bounds g i H0 H9 ltac:(lia)) as (Nl & _ & Ns & L & _).
    unfold logged_start in Nl, L.
    assert (Nt : fnonneg simTime) by exact (fnonneg_between _ _ Hs Hl Nl).
    apply leb_FZ in Hl; [|assumption|assumption].
    assert (Le : (simTime <=? start_time g i)%float = true)
      by (apply leb_FZ; [assumption | assumption | lia]).
    split; [exact Le|].
    destruct (start_time g i <? simTime)%float eqn:E; [|reflexivity].
    apply ltb_FZ in E; [|assumption|assumption]. lia.
  - intros i Hi. split.
    + intros H. destruct (Z.le_gt_cases i 15) as [|Late]; [assumption | exfalso].
      destruct (start_time_bounds default_metrics i eq_refl eq_refl Hi)
        as (_ & V & Ns & L & _).
      apply ltb_FZ in H; [|exact Ns|exact I].
      unfold default_simTime in H. rewrite FZ_ten in H. rewrite V in L.
      pose proof (pow2_pos 1073 ltac:(lia)) as P.
      assert (20 * pow2 1073 <= (4 + i) * pow2 1073)%Z
        by (apply Z.mul_le_mono_nonneg_r; lia).
      lia.
    + intros H. pose proof early_nodes_of_default_run as F.
      rewrite forallb_forall in F. specialize (F (Z.to_nat i)).
      rewrite Z2Nat.id in F by lia. apply F. apply in_seq. lia.
Qed.

(** The built-in profile, ten seconds and seventeen nodes: the last
    client would start at 10.0005 s. *)
Lemma late_nodes_start_after_stop_witness :
  exists c : ClientApp,
    nth_error (clients (install_clients default_metrics 10 17 no_schedule)) 16
    = Some c /\
    stop_seconds c = 10%float /\
    (stop_seconds c <=? start_seconds c)%float = true /\
    (start_seconds c <? stop_seconds c)%float = false.
Proof.
  apply (proj1 late_nodes_start_after_stop default_metrics 10%float 17%Z 16%Z);
    try reflexivity; unfold UINT32_MAX; lia.
Defined.

(** X13. The log line of a node shows [2.0 + i * 0.5] as the time the
    node will send at, without the computation time that the start time
    of its client includes: for a computation time between 0 and [1e9] ms
    the time shown is never later than the start, and it is earlier as
    soon as the computation time is a microsecond or more. *)
Theorem logged_start_is_early :
  forall (g : LweMetrics) (i : Z),
    (0 <= i <= UINT32_MAX)%Z ->
    (0 <=? avg_computation_time_ms g)%float = true ->
    (avg_computation_time_ms g <=? 1e9)%float = true ->
    (logged_start i <=? start_time g i)%float = true /\
    ((0.001 <=? avg_computation_time_ms g)%float = true ->
     (logged_start i <? start_time g i)%float = true).
Proof.
  intros g i Hi H0 H9.
  destruct (start_time_bounds g i H0 H9 Hi) as (Nl & _ & Ns & L & S).
  split.
  - apply leb_FZ; assumption.
  - intros Hm. apply ltb_FZ; [assumption | assumption | exact (S Hm)].
Qed.

Lemma logged_start_is_early_witness :
  (logged_start 0 <? start_time default_metrics 0)%float = true.
Proof.
  apply (proj2 (logged_start_is_early default_metrics 0
                  ltac:(unfold UINT32_MAX; lia) eq_refl eq_refl)).
  reflexivity.
Defined.

(** ** More on the reduction of the flow statistics *)

Lemma pdr_of_sums (stats : list FlowStats) (simTime : float)
  (nIoTNodes sent arrived : Z) (g : LweMetrics) :
  Forall flow_ok stats ->
  Forall (fun f => rxPackets f <= txPackets f)%Z stats ->
  (0 < Zsum (map txPackets stats) <= UINT32_MAX)%Z ->
  (0 <= Zsum (map rxPackets stats) <= Zsum (map txPackets stats))%Z /\
  pdr (aggregate stats simTime nIoTNodes sent arrived g)
  = (Z2double (Zsum (map rxPackets stats))
     / Z2double (Zsum (map txPackets stats)) * 100)%float.
Proof.
  intros Hok Hle Htx.
  assert (Hrx0 : (0 <= Zsum (map rxPackets stats))%Z).
  { apply Zsum_nonneg. rewrite Forall_map.
    eapply Forall_impl; [|exact Hok]. unfold flow_ok. intros f Hf. lia. }
  pose proof (Zsum_le stats Hle) as Hrt.
  split; [lia|].
  unfold aggregate. cbn [pdr]. rewrite sum_flows_eq. unfold pdr_of.
  cbn [totalTxPackets totalRxPackets]. rewrite !wrap32_small by lia.
  replace (0 <? Zsum (map txPackets stats))%Z with true
    by (symmetry; apply Z.ltb_lt; lia).
  reflexivity.
Qed.

(** X14. When no flow received more than it sent and the transmitted
    packets fit the 32-bit total, the delivery ratio is exactly 100 when
    every packet was delivered and only then, and exactly 0 when none was
    and only then: the rounding of the division and of the product
    neither hides a lost packet nor a delivered one. *)
Theorem delivery_ratio_extremes :
  forall (stats : list FlowStats) (simTime : float)
         (nIoTNodes sent arrived : Z) (g : LweMetrics),
    Forall flow_ok stats ->
    Forall (fun f => rxPackets f <= txPackets f)%Z stats ->
    (0 < Zsum (map txPackets stats) <= UINT32_MAX)%Z ->
    let r := aggregate stats simTime nIoTNodes sent arrived g in
    (pdr r = 100%float
     <-> Zsum (map rxPackets stats) = Zsum (map txPackets stats)) /\
    (pdr r = 0%float <-> Zsum (map rxPackets stats) = 0%Z).
Proof.
  intros stats simTime nIoTNodes sent arrived g Hok Hle Htx r. subst r.
  destruct (pdr_of_sums stats simTime nIoTNodes sent arrived g Hok Hle Htx)
    as [Hrx ->].
  set (rx := Zsum (map rxPackets stats)) in *.
  set (tx := Zsum (map txPackets stats)) in *.
  destruct (ratio_partial rx tx Hrx Htx) as (N & Below & Above).
  split; split.
  - intros E. destruct (Z.eq_dec rx tx) as [|Ne]; [assumption | exfalso].
    specialize (Below ltac:(lia)). rewrite E in Below. lia.
  - intros ->. apply ratio_full. exact Htx.
  - intros E. destruct (Z.eq_dec rx 0) as [|Ne]; [assumption | exfalso].
    specialize (Above ltac:(lia)). rewrite E in Above.
    change (FZ 0) with 0%Z in Above. lia.
  - intros ->. apply zero_ratio. exact Htx.
Qed.

(** Two packets sent and two received; three sent and two received. *)
Lemma delivery_ratio_extremes_witness :
  pdr (aggregate P6_flows 10 2 2 2 default_metrics) = 100%float /\
  pdr (aggregate
         [ {| txPackets := 3; rxPackets := 2; delaySum := 0.01; rxBytes := 100 |} ]
         10 1 1 1 default_metrics) <> 100%float.
Proof.
  split.
  - apply (delivery_ratio_extremes P6_flows 10 2 2 2 default_metrics).
    + unfold P6_flows, flow_ok, UINT32_MAX.
      constructor; [|constructor; [|constructor]]; cbn; lia.
    + unfold P6_flows. constructor; [|constructor; [|constructor]]; cbn; lia.
    + unfold UINT32_MAX. cbn. lia.
    + reflexivity.
  - intros E.
    apply (delivery_ratio_extremes
             [ {| txPackets := 3; rxPackets := 2; delaySum := 0.01;
                  rxBytes := 100 |} ] 10 1 1 1 default_metrics) in E.
    + cbn in E. lia.
    + unfold flow_ok, UINT32_MAX. constructor; [|constructor]. cbn. lia.
    + constructor; [|constructor]. cbn. lia.
    + unfold UINT32_MAX. cbn. lia.
Defined.

Lemma flow_kbps_not_negative (simTime : float) (f : FlowStats) :
  positive_finite simTime -> flow_ok f -> not_negative (flow_kbps simTime f).
Proof.
  intros Hs Hf. unfold flow_kbps.
  apply not_negative_div; [|exact positive_finite_1000].
  apply not_negative_div; [|exact Hs].
  apply not_negative_mul; [|exact positive_finite_8].
  apply Z2double_not_negative. unfold flow_ok in Hf. lia.
Qed.

(** X15. For a duration that is positive and finite, the throughput is a
    number that is not negative (possibly [+infinity], never a NaN);
    and so is the average delay when the delay sums of the flows are
    finite and not negative. *)
Theorem throughput_and_delay_are_numbers :
  forall (stats : list FlowStats) (simTime : float)
         (nIoTNodes sent arrived : Z) (g : LweMetrics),
    Forall flow_ok stats ->
    (0 <? simTime)%float = true -> (simTime <? infinity)%float = true ->
    let r := aggregate stats simTime nIoTNodes sent arrived g in
    (0 <=? throughput_kbps r)%float = true /\
    is_nan (throughput_kbps r) = false /\
    (Forall (fun f => (0 <=? delaySum f)%float = true /\
                      (delaySum f <? infinity)%float = true) stats ->
     (0 <=? avg_delay_ms r)%float = true /\ is_nan (avg_delay_ms r) = false).
Proof.
  intros stats simTime nIoTNodes sent arrived g Hok H0 Hi r. subst r.
  pose proof (positive_finite_intro simTime H0 Hi) as Hs.
  unfold aggregate. cbn [throughput_kbps avg_delay_ms].
  rewrite sum_flows_eq. unfold avgDelay_of.
  cbn [totalThroughput totalDelay totalRxPackets].
  assert (T : not_negative
                (fsum (map (flow_kbps simTime) (filter received stats)))).
  { apply not_negative_accumulate; [left; exact I|].
    apply Forall_map. apply Forall_forall. intros f Hf.
    apply filter_In in Hf as [Hf _].
    apply flow_kbps_not_negative; [exact Hs|].
    rewrite Forall_forall in Hok. apply Hok, Hf. }
  destruct (not_negative_leb _ T) as [T1 T2].
  split; [exact T1 | split; [exact T2|]].
  intros Hd. apply not_negative_leb.
  pose proof (wrap32_range (Zsum (map rxPackets stats))) as R.
  destruct (Z.ltb_spec 0 (wrap32 (Zsum (map rxPackets stats)))) as [Pos|Zero];
    [|left; exact I].
  apply not_negative_mul; [|exact positive_finite_1000].
  apply not_negative_div; [|apply Z2double_positive; lia].
  apply not_negative_accumulate; [left; exact I|].
  apply Forall_map. apply Forall_forall. intros f Hf.
  apply filter_In in Hf as [Hf _].
  rewrite Forall_forall in Hd. destruct (Hd f Hf) as [D0 Di].
  left. apply fnonneg_intro; assumption.
Qed.

Lemma throughput_and_delay_are_numbers_witness :
  (0 <=? throughput_kbps (aggregate P6_flows 10 2 2 2 default_metrics))%float
  = true /\
  is_nan (avg_delay_ms (aggregate P6_flows 10 2 2 2 default_metrics)) = false.
Proof.
  destruct (throughput_and_delay_are_numbers P6_flows 10 2 2 2 default_metrics)
    as (H1 & _ & H2).
  - unfold P6_flows, flow_ok, UINT32_MAX.
    constructor; [|constructor; [|constructor]]; cbn; lia.
  - reflexivity.
  - reflexivity.
  - split; [exact H1|]. apply H2.
    unfold P6_flows. constructor; [|constructor; [|constructor]];
      split; reflexivity.
Defined.

(** ** Reading the results file back *)

Lemma contains_concat (c : ascii) (sep : string) (items : list string) :
  contains c sep = false ->
  Forall (fun item => contains c item = false) items ->
  contains c (String.concat sep items) = false.
Proof.
  intros Hs. induction 1 as [|item items Hi Hr IH]; [reflexivity|].
  cbn [String.concat]. destruct items as [|item' items']; [exact Hi|].
  rewrite !contains_app, Hi, Hs, IH. reflexivity.
Qed.

(** Items without a delimiter, the last of them not empty, are what the
    splitting of their concatenation gives. *)
Lemma getlines_of_concat (delim : ascii) (items : list string) :
  Forall (fun item => contains delim item = false) items ->
  last items "x" <> "" ->
  getlines delim (String.concat (String delim "") items) = items.
Proof.
  induction 1 as [|item items Hi Hr IH]; intros Hl; [reflexivity|].
  cbn [String.concat]. destruct items as [|item' items'].
  - apply getlines_last; assumption.
  - change (String delim "" ++ String.concat (String delim "") (item' :: items'))
      with (String delim (String.concat (String delim "") (item' :: items'))).
    rewrite getlines_item by exact Hi. f_equal. apply IH. exact Hl.
Qed.

Section ReadBack.

Variable show_uint : Z -> string.
Variable show_double : float -> string.

Lemma row_text_line (r : RunMetrics) :
  row_text show_uint show_double r
  = row_line show_uint show_double r ++ String newline "".
Proof.
  unfold row_text, row_line, row_fields. cbn [String.concat].
  rewrite !append_assoc. reflexivity.
Qed.

Lemma plain_row_line (r : RunMetrics) :
  Forall plain (row_fields show_uint show_double r) ->
  contains newline (row_line show_uint show_double r) = false.
Proof.
  intros H. apply contains_concat; [reflexivity|].
  eapply Forall_impl; [|exact H]. intros t [_ Ht]. exact Ht.
Qed.

Lemma getlines_row_text (r : RunMetrics) :
  Forall plain (row_fields show_uint show_double r) ->
  getlines newline (row_text show_uint show_double r)
  = [row_line show_uint show_double r].
Proof.
  intros H. rewrite row_text_line, getlines_item by (apply plain_row_line, H).
  reflexivity.
Qed.

End ReadBack.

Lemma header_eq : header = header_line ++ String newline "".
Proof. reflexivity. Qed.

(** X16. What a run appends to the results file reads back, with the
    line and item splitting of the loader, as one more line of nine
    items, the nine values of the run in the order of the header (the
    header has nine names); before it comes the header line when the
    file was new or empty.  This holds when the file so far is empty or
    ends with an end of line, and the printed values hold no comma and no
    end of line, the last of them being not empty. *)
Theorem appended_row_reads_back :
  forall (show_uint : Z -> string) (show_double : float -> string)
         (f : out_file) (r : RunMetrics),
    f <> Unopenable ->
    old_contents f = "" \/ ends_with newline (old_contents f) = true ->
    Forall plain (row_fields show_uint show_double r) ->
    show_double (memory_kb r) <> "" ->
    exists contents : string,
      fst (save_results show_uint show_double f r) = Existing contents /\
      getlines newline contents
      = (getlines newline (old_contents f)
         ++ (if String.eqb (old_contents f) "" then [header_line] else [])
         ++ [row_line show_uint show_double r])%list /\
      split_row (row_line show_uint show_double r)
      = row_fields show_uint show_double r /\
      List.length (split_row header_line)
      = List.length (row_fields show_uint show_double r).
Proof.
  intros show_uint show_double f r Hf Hold Hplain Hlast.
  eexists. split; [apply save_results_opened; exact Hf|].
  split; [|split].
  - destruct (old_contents f) as [|c old] eqn:E.
    + replace (tellp (open_append f) =? 0)%Z with true
        by (symmetry; apply Z.eqb_eq, tellp_zero; auto).
      cbn [append String.eqb app getlines].
      rewrite header_eq, append_assoc. cbn [append].
      rewrite getlines_item by reflexivity.
      rewrite getlines_row_text by exact Hplain. reflexivity.
    + replace (tellp (open_append f) =? 0)%Z with false.
      * cbn [String.eqb app]. change ("" ++ row_text show_uint show_double r)
          with (row_text show_uint show_double r).
        rewrite getlines_app by exact Hold.
        rewrite getlines_row_text by exact Hplain. reflexivity.
      * symmetry. apply Z.eqb_neq. intros T. apply tellp_zero in T.
        destruct T as [_ T]. rewrite E in T. discriminate.
  - unfold split_row, row_line. apply getlines_of_concat.
    + eapply Forall_impl; [|exact Hplain]. intros t [Ht _]. exact Ht.
    + exact Hlast.
  - reflexivity.
Qed.

(** A first run and a second one, for the run without any node. *)
Lemma appended_row_reads_back_witness :
  exists contents : string,
    fst (save_results show_count show_sample
           (Existing (header ++ "0,0,0,0,0,0,0,0.5,0" ++ endl)) idle_metrics)
    = Existing contents /\
    getlines newline contents
    = [header_line; "0,0,0,0,0,0,0,0.5,0"; "0,0,0,0,0,0,0,0.5,0"] /\
    split_row "0,0,0,0,0,0,0,0.5,0"
    = ["0"; "0"; "0"; "0"; "0"; "0"; "0"; "0.5"; "0"] /\
    List.length (split_row header_line) = 9%nat.
Proof.
  apply (appended_row_reads_back show_count show_sample
           (Existing (header ++ "0,0,0,0,0,0,0,0.5,0" ++ endl)) idle_metrics).
  - discriminate.
  - right. reflexivity.
  - repeat (constructor; [split; reflexivity|]). constructor.
  - discriminate.
Defined.

(** ** A run that does not get to its end *)

(** X17. Nothing in [main] catches what the loader throws: when the CSV
    file has a row of six items or more with a number that [std::stod]
    does not read, the run ends with the exception before a client is
    scheduled, and whatever the results file is, no row is added to it
    and no exit status is returned. *)
Theorem bad_row_ends_the_run :
  forall (stod : string -> result float)
         (show_uint : Z -> string) (show_double : float -> string)
         (Simulator_Run : list ClientApp -> float -> list FlowStats * nat)
         (nIoTNodes : Z) (simTime : float) (csv : option string) (out : out_file),
    (forall e : exception,
        LoadMetricsFromCSV stod csv default_metrics = Throw e ->
        main stod show_uint show_double Simulator_Run nIoTNodes simTime csv out
        = Throw e) /\
    (forall contents line : string,
        csv = Some contents ->
        In line (data_lines contents) -> valid_line line = true ->
        ~ numeric stod (split_row line) ->
        forall o : run_outcome,
          main stod show_uint show_double Simulator_Run nIoTNodes simTime csv out
          <> Ok o).
Proof.
  intros stod show_uint show_double Simulator_Run nIoTNodes simTime csv out.
  split.
  - intros e H. unfold main. rewrite H. reflexivity.
  - intros contents line -> Hin V Hnot o.
    pose proof (load_not_numeric stod contents line default_metrics Hin V Hnot)
      as H.
    unfold main.
    destruct (LoadMetricsFromCSV stod (Some contents) default_metrics)
      as [g| |]; cbn [bind]; try discriminate.
    exfalso. exact (H g eq_refl).
Qed.

Lemma bad_row_ends_the_run_witness :
  main stod_decimal show_count show_sample (fun _ _ => ([], 0%nat)) 2 10
       (Some non_numeric_csv) Missing
  = Throw invalid_argument.
Proof.
  apply (proj1 (bad_row_ends_the_run stod_decimal show_count show_sample
                  (fun _ _ => ([], 0%nat)) 2 10 (Some non_numeric_csv) Missing)).
  vm_compute. reflexivity.
Defined.
